(** * Docker-based builder: git fetcher, build orchestration, provenance parsing

    A shallow embedding of [internal/builders/docker/pkg/builder.go].

    - Go strings are byte strings: [string] (a list of [ascii] bytes).
    - A Go function returning [(T, error)] returns a [result T].
    - Everything the builder asks of the operating system and of the Go
      libraries (running [git] and [docker], the file system, [net/url],
      [crypto/sha256], ...) is answered by an environment [Env].  The state
      threaded through the effectful code is the history of the calls made so
      far, most recent first; the environment answers a call as a function of
      that history, so that it may answer the same call differently after the
      working directory has changed or a build has run. *)

From Stdlib Require Import ZArith Ascii.
From stdpp Require Import base strings list gmap pretty.

Set Warnings "-register-all".
Local Open Scope Z_scope.

(** ** Errors *)

(** One constructor per error that [builder.go] creates; the comment gives the
    Go format string.  [ErrExternal] stands for the error values produced by
    the operating system and by library functions. *)
Inductive Error : Type :=
| ErrExternal (msg : string)
| ErrCreateBuilder (e : Error)
    (* "could not create builder: %v" *)
| ErrVerifyOrFetch (e : Error)
    (* "couldn't verify or fetch source repo: %v" *)
| ErrLoadConfig (path : string) (e : Error)
    (* "couldn't load config file from %q: %v" *)
| ErrDockerRun (e : Error)
    (* "running `docker run` failed: %v" *)
| ErrGetwd (e : Error)
    (* "couldn't get the current working directory: %v" *)
| ErrExpectedContainerBased
    (* "expected container-based external parameters" *)
| ErrStdoutPipe (e : Error)
    (* "couldn't get the command's stdout: %v" *)
| ErrStderrPipe (e : Error)
    (* "couldn't get the command's stderr: %v" *)
| ErrStart (e : Error)
    (* "couldn't start the 'git checkout' command: %v" *)
| ErrSaveLogs (e : Error)
    (* "cannot save logs and errs to file: %v" *)
| ErrWait (e : Error) (logs errs : string)
    (* "failed to complete the command: %v; see %s for logs, and %s for errors" *)
| ErrParseRepoURI (e : Error)
    (* "could not parse repo URI: %v" *)
| ErrUnsupportedScheme (scheme : string)
    (* "unsupported scheme: %v" *)
| ErrInvalidSourceFormat (repo : string)
    (* "invalid source repository format: %s" *)
| ErrNotSha1
    (* "git commit digest must be a sha1 digest" *)
| ErrFetchSources (repo : string) (alg value : string) (e : Error)
    (* "couldn't fetch sources from %q at commit %q: %v" *)
| ErrGitCommitMismatch (lastCommitID : string)
    (* "%w: the repo is already checked out at a different commit (%q)",
       wrapping errGitCommitMismatch *)
| ErrMkdirTemp (e : Error)
    (* "couldn't create temp directory: %v" *)
| ErrMkdirAll (dir : string) (e : Error)
    (* "couldn't create directories at %q: %v" *)
| ErrChdir (dir : string) (e : Error)
    (* "couldn't change directory to %q: %v" *)
| ErrGitFetch (e : Error)
    (* "%w: couldn't clone the Git repo: %w", wrapping errGitFetch *)
| ErrGetwdFetch (e : Error)
    (* "couldn't get current working directory: %v" *)
| ErrGitCheckout (e : Error)
    (* "%w: couldn't checkout the Git commit: %w", wrapping errGitCheckout *)
| ErrVerifyRefAndCommit (e : option Error)
    (* "failed to verify ref and commit: %v" *)
| ErrPatternMalformed (pattern : string) (e : Error)
    (* "the pattern (%q) is malformed: %v" *)
| ErrExistingFiles (pattern : string) (n : nat)
    (* "the specified pattern (%q) matches %d existing files; expected no matches" *)
| ErrNoFilesMatching (pattern : string)
    (* "no files matching the pattern %q: %v" *)
| ErrReadFile (path : string) (e : Error)
    (* "couldn't read file %q: %v" *)
| ErrRel (root path : string) (e : Error)
    (* "Root %s Path %s: %w" *)
| ErrCreateOutput (e : Error)
    (* "creating new output file: %v" *)
| ErrWriteOutput (e : Error)
    (* "writing output file: %v" *)
| ErrUnmarshalProvenance (e : Error)
    (* "could not unmarshal the provenance file:\n%v" *)
| ErrMarshalMap (e : Error)
    (* "could not marshal map into JSON bytes: %v" *)
| ErrUnmarshalBuildConfig (e : Error)
    (* "could not unmarshal JSON bytes into a BuildConfig: %v" *)
| ErrCastExternalParameters
    (* "failed to cast ExternalParameters to ContainerBasedExternalParameters" *)
| ErrValidateImageURI (e : Error)
    (* "validating Docker image URI: %v" *)
| ErrInvalidImageDigest
    (* "invalid Docker image digest" *)
| ErrMissingSha1.
    (* "missing sha1 digest for source" *)

Inductive result (A : Type) : Type :=
| Ok (a : A)
| Err (e : Error).
Arguments Ok {A} a.
Arguments Err {A} e.

Definition is_ok {A} (r : result A) : bool :=
  match r with Ok _ => true | Err _ => false end.

(** [errors.Is(e, errGitCommitMismatch)] for the errors of this file: the
    sentinel is only reachable through [%w]. *)
Definition is_commit_mismatch (e : Error) : bool :=
  match e with ErrGitCommitMismatch _ => true | _ => false end.

(** ** Strings *)

Module strings.

Abbreviation len := String.length.

Fixpoint HasPrefix (s prefix : string) {struct prefix} : bool :=
  match prefix, s with
  | EmptyString, _ => true
  | String p prefix', String c s' => Ascii.eqb c p && HasPrefix s' prefix'
  | String _ _, EmptyString => false
  end.

Fixpoint drop (n : nat) (s : string) : string :=
  match n, s with
  | O, _ => s
  | S n', String _ s' => drop n' s'
  | S _, EmptyString => EmptyString
  end.

Fixpoint take (n : nat) (s : string) : string :=
  match n, s with
  | O, _ => EmptyString
  | S n', String c s' => String c (take n' s')
  | S _, EmptyString => EmptyString
  end.

(** [strings.Replace(s, old, new, 1)] for a non-empty [old]: the first
    occurrence of [old], scanning from the left, is replaced. *)
Fixpoint Replace1 (s old new : string) : string :=
  if HasPrefix s old then new +:+ drop (len old) s
  else match s with
       | EmptyString => EmptyString
       | String c s' => String c (Replace1 s' old new)
       end.

(** [strings.Split(s, sep)] for a separator of one byte: the pieces of
    [s] between the separators, of which there is always at least one. *)
Fixpoint Split (s : string) (sep : ascii) : list string :=
  match s with
  | EmptyString => [EmptyString]
  | String c s' =>
      if Ascii.eqb c sep then EmptyString :: Split s' sep
      else match Split s' sep with
           | piece :: pieces => String c piece :: pieces
           | [] => [String c EmptyString]
           end
  end.

Definition HasSuffix (s suffix : string) : bool :=
  (len suffix <=? len s)%nat &&
  String.eqb (drop (len s - len suffix) s) suffix.

Definition TrimSuffix (s suffix : string) : string :=
  if HasSuffix s suffix then take (len s - len suffix) s else s.

Fixpoint contains_byte (c : ascii) (s : string) : bool :=
  match s with
  | EmptyString => false
  | String c' s' => Ascii.eqb c' c || contains_byte c s'
  end.

End strings.

(** [path.Base] (and [filepath.Base] on a system whose separator is [/]). *)
Module path.

Fixpoint strip_leading_slashes (s : string) : string :=
  match s with
  | String "/" s' => strip_leading_slashes s'
  | _ => s
  end.

Fixpoint until_slash (s : string) : string :=
  match s with
  | EmptyString => EmptyString
  | String "/" _ => EmptyString
  | String c s' => String c (until_slash s')
  end.

Definition Base (p : string) : string :=
  match p with
  | EmptyString => "."
  | _ =>
      (* strip trailing slashes, then keep what follows the last slash *)
      match strip_leading_slashes (String.rev p) with
      | EmptyString => "/"
      | r => String.rev (until_slash r)
      end
  end.

End path.

(** ** Data model *)

(** The declarations of [Digest], [DockerImage], [BuildConfig],
    [DockerBuildConfig] and [ContainerBasedExternalParameters] are not in
    [builder.go]; their fields are the ones that [builder.go] reads and
    writes. *)

(** Modelled from the spec: the declaration of [Digest] is missing.  The
    spec gives a digest as a hash algorithm and a value. *)
Record Digest : Type := {
  Alg : string;
  Value : string;
}.

(** Modelled from the spec: the declaration of [DockerImage] is missing.
    The spec gives an image reference as a registry and repository path
    with a digest; [builder.go] reads the digest. *)
Record DockerImage : Type := {
  Name : string;
  ImageDigest : Digest;        (* field [Digest] *)
}.

(** Modelled from the spec: the declaration of [BuildConfig] is missing.
    The spec gives a build configuration as a command, an ordered sequence
    of strings, and an artifact path pattern.  A nil slice and an empty
    slice are both the empty list: the code only appends [Command] to an
    argument vector. *)
Record BuildConfig : Type := {
  Command : list string;
  ArtifactPath : string;
}.

(** Modelled from the spec: the declaration of [DockerBuildConfig] is
    missing.  These are the fields that [builder.go] reads, and that
    [ToDockerBuildConfig] fills in. *)
Record DockerBuildConfig : Type := {
  SourceRepo : string;
  SourceDigest : Digest;
  BuilderImage : DockerImage;
  BuildConfigPath : string;
  ForceCheckout : bool;
  Verbose : bool;
}.

Record RepoCheckoutInfo : Type := {
  RepoRoot : string;
}.

(** [sourceRef] is a pointer that may be nil: an [option].  [sourceDigest]
    points into the configuration, which nothing mutates: a value.
    [checkoutInfo] is a pointer that [Fetch] hands out; it is modelled by the
    value it points to when [Fetch] returns. *)
Record GitClient : Type := {
  sourceRepo : string;
  sourceRef : option string;
  sourceDigest : Digest;
  checkoutInfo : RepoCheckoutInfo;
  logFiles : list string;
  errFiles : list string;
  forceCheckout : bool;
  verbose : bool;
  depth : Z;
}.

(** [net/url.URL], as far as the builder reads it. *)
Record URL : Type := {
  Scheme : string;
}.

(** ** The environment *)

(** The calls the builder makes to the outside. *)
Inductive Call : Type :=
| CallOutput (argv : list string)
    (* exec.Command(argv...).Output() *)
| CallRun (verbose : bool) (argv : list string)
    (* exec.Command(argv...): StdoutPipe, StderrPipe, Start,
       saveToTempFile(verbose, stdout, stderr), Wait *)
| CallMkdirTemp (dir pattern : string)
| CallMkdirAll (dir : string)
| CallChdir (dir : string)
| CallGetwd
| CallLoadBuildConfigFromFile (path : string)
| CallGlob (pattern : string)
| CallSafeReadFile (path : string)
| CallAbs (path : string)
| CallCreateNewFileUnderDirectory (relPath dir : string)
| CallWrite (relPath dir : string) (data : string).

(** The history of calls, most recent first. *)
Definition World : Type := list Call.

(** How far a command whose output is captured got.  [logs] and [errs] are
    the two file names that [saveToTempFile] returned. *)
Inductive RunOutcome : Type :=
| StdoutPipeFailed (e : Error)
| StderrPipeFailed (e : Error)
| StartFailed (e : Error)
| SaveFailed (e : Error)
| WaitFailed (e : Error) (logs errs : string)
| Completed (logs errs : string).

Record Env : Type := {
  (* os/exec; [None] when [Output] returns an error *)
  exec_Output : World -> list string -> option string;
  exec_Run : World -> bool -> list string -> RunOutcome;
  (* os *)
  os_MkdirTemp : World -> string -> string -> result string;
  os_MkdirAll : World -> string -> option Error;
  os_Chdir : World -> string -> option Error;
  os_Getwd : World -> result string;
  (* path/filepath; a pattern is malformed or not whatever the file system
     holds, and [Glob] has no other error *)
  filepath_bad_pattern : string -> bool;
  filepath_matches : World -> string -> list string;
  filepath_Abs : World -> string -> result string;
  filepath_Rel : string -> string -> result string;
  (* internal/utils *)
  utils_SafeReadFile : World -> string -> result string;
  utils_CreateNewFileUnderDirectory : World -> string -> string -> option Error;
  file_Write : World -> string -> string -> string -> option Error;
  (* Modelled from the spec: [DockerBuildConfig.LoadBuildConfigFromFile] is
     not in [builder.go]; it loads and parses the build configuration file
     at the configured path into a [BuildConfig], or fails. *)
  config_LoadBuildConfigFromFile : World -> string -> result BuildConfig;
  (* strings, net/url, crypto/sha256 *)
  strings_TrimSpace : string -> string;
  strings_EqualFold : string -> string -> bool;
  url_Parse : string -> result URL;
  sha256_Sum256 : string -> string;
}.

(** ** State passing *)

Definition IO (A : Type) : Type := World -> A * World.

Definition ret {A} (a : A) : IO A := fun w => (a, w).

Definition bind {A B} (m : IO A) (k : A -> IO B) : IO B :=
  fun w => let (a, w') := m w in k a w'.

(** Ask the environment: the answer is computed from the history before the
    call, and the call is added to the history. *)
Definition ask {A} (c : Call) (answer : World -> A) : IO A :=
  fun w => (answer w, c :: w).

Notation "'let*' x ':=' m 'in' k" := (bind m (fun x => k))
  (at level 10, x pattern, m at level 100, k at level 200).

(** [try* x := m in k]: [x, err := m; if err != nil { return err }; k]. *)
Notation "'try*' x ':=' m 'in' k" :=
  (bind m (fun r => match r with
                    | Ok x => k
                    | Err e => ret (Err e)
                    end))
  (at level 10, x pattern, m at level 100, k at level 200).

(** ** The git client *)

Definition with_files (c : GitClient) (logs errs : string) : GitClient :=
  {| sourceRepo := sourceRepo c; sourceRef := sourceRef c;
     sourceDigest := sourceDigest c; checkoutInfo := checkoutInfo c;
     logFiles := logFiles c ++ [logs]; errFiles := errFiles c ++ [errs];
     forceCheckout := forceCheckout c; verbose := verbose c;
     depth := depth c |}.

Definition with_RepoRoot (c : GitClient) (root : string) : GitClient :=
  {| sourceRepo := sourceRepo c; sourceRef := sourceRef c;
     sourceDigest := sourceDigest c; checkoutInfo := {| RepoRoot := root |};
     logFiles := logFiles c; errFiles := errFiles c;
     forceCheckout := forceCheckout c; verbose := verbose c;
     depth := depth c |}.

(** A fetcher is something with a [Fetch] method; the method may change the
    fetcher. *)
Class Fetcher (F : Type) : Type :=
  Fetch : F -> IO (F * result RepoCheckoutInfo).

Section GitClient.

Variable env : Env.

(** [exec.Command(argv...).Output()] *)
Definition Output (argv : list string) : IO (option string) :=
  ask (CallOutput argv) (fun w => exec_Output env w argv).

Definition Run (verbose : bool) (argv : list string) : IO RunOutcome :=
  ask (CallRun verbose argv) (fun w => exec_Run env w verbose argv).

Definition newGitClient (config : DockerBuildConfig) (depth : Z)
  : result GitClient :=
  let repo := SourceRepo config in
  match url_Parse env repo with
  | Err err => Err (ErrParseRepoURI err)
  | Ok parsed =>
      let after_scheme :=
        if String.eqb (Scheme parsed) "https" then Ok repo
        else if String.eqb (Scheme parsed) "git+https"
        then Ok (strings.Replace1 repo "git+https" "https")
        else if String.eqb (Scheme parsed) "https+git"
        then Ok (strings.Replace1 repo "https+git" "https")
        else Err (ErrUnsupportedScheme (Scheme parsed)) in
      match after_scheme with
      | Err err => Err err
      | Ok repo =>
          (* Retrieve the ref if a tag is added to the repository. *)
          let refParts := strings.Split repo "@" in
          let after_ref :=
            match refParts with
            | [_; ref] => Ok (Some ref, strings.TrimSuffix repo ("@" +:+ ref))
            | [_] => Ok (None, repo)
            | _ => Err (ErrInvalidSourceFormat repo)
            end in
          match after_ref with
          | Err err => Err err
          | Ok (sourceRef, repo) =>
              Ok {| sourceRepo := repo;
                    sourceRef := sourceRef;
                    sourceDigest := SourceDigest config;
                    forceCheckout := ForceCheckout config;
                    depth := depth;
                    checkoutInfo := {| RepoRoot := "" |};
                    logFiles := [];
                    errFiles := [];
                    verbose := Verbose config |}
          end
      end
  end.

Definition rev_parse_HEAD : list string :=
  ["git"; "rev-parse"; "--verify"; "HEAD"].

Definition show_ref (sourceRef : string) : list string :=
  ["git"; "show-ref"; "--hash"; "--verify"; sourceRef].

(** The loop of [verifyRefAndCommit] over [checkCmds]. *)
Fixpoint verifyCommands (c : GitClient) (checkCmds : list (list string))
  : IO (bool * option Error) :=
  match checkCmds with
  | [] => ret (true, None)
  | cmd :: checkCmds' =>
      let* out := Output cmd in
      match out with
      | None =>
          (* The current working directory is not a git repo. *)
          ret (false, None)
      | Some lastCommitIDBytes =>
          let lastCommitID := strings_TrimSpace env lastCommitIDBytes in
          if String.eqb lastCommitID (Value (sourceDigest c))
          then verifyCommands c checkCmds'
          else ret (false, Some (ErrGitCommitMismatch lastCommitID))
      end
  end.

Definition verifyRefAndCommit (c : GitClient) : IO (bool * option Error) :=
  let checkCmds :=
    rev_parse_HEAD ::
    match sourceRef c with
    | Some sourceRef => [show_ref sourceRef]
    | None => []
    end in
  verifyCommands c checkCmds.

(** What [cloneGitRepo] and [checkoutGitCommit] do with a command: run it
    with its output captured, and keep the names of the two log files. *)
Definition runCaptured (c : GitClient) (argv : list string)
  : IO (GitClient * option Error) :=
  let* outcome := Run (verbose c) argv in
  ret match outcome with
      | StdoutPipeFailed err => (c, Some (ErrStdoutPipe err))
      | StderrPipeFailed err => (c, Some (ErrStderrPipe err))
      | StartFailed err => (c, Some (ErrStart err))
      | SaveFailed err => (c, Some (ErrSaveLogs err))
      | WaitFailed err logs errs =>
          (with_files c logs errs, Some (ErrWait err logs errs))
      | Completed logs errs => (with_files c logs errs, None)
      end.

Definition cloneGitRepo (c : GitClient) : IO (GitClient * option Error) :=
  let cmd :=
    if 0 <? depth c
    then ["git"; "clone"; "--depth"; pretty (depth c); sourceRepo c]
    else ["git"; "clone"; sourceRepo c] in
  runCaptured c cmd.

Definition checkoutGitCommit (c : GitClient) : IO (GitClient * option Error) :=
  let* (c, err) := runCaptured c ["git"; "checkout"; Value (sourceDigest c)] in
  match err with
  | Some err => ret (c, Some err)
  | None =>
      let* (ok, err) := verifyRefAndCommit c in
      match err, ok with
      | None, true => ret (c, None)
      | _, _ => ret (c, Some (ErrVerifyRefAndCommit err))
      end
  end.

Definition fetchSourcesFromGitRepo (c : GitClient)
  : IO (GitClient * option Error) :=
  (* create a temp folder in the current directory for fetching the repo. *)
  let* targetDir := ask (CallMkdirTemp "" "release-*")
                        (fun w => os_MkdirTemp env w "" "release-*") in
  match targetDir with
  | Err err => ret (c, Some (ErrMkdirTemp err))
  | Ok targetDir =>
  (* Make targetDir and its parents, and cd to it. *)
  let* err := ask (CallMkdirAll targetDir)
                  (fun w => os_MkdirAll env w targetDir) in
  match err with
  | Some err => ret (c, Some (ErrMkdirAll targetDir err))
  | None =>
  let* err := ask (CallChdir targetDir) (fun w => os_Chdir env w targetDir) in
  match err with
  | Some err => ret (c, Some (ErrChdir targetDir err))
  | None =>
  (* Clone the repo. *)
  let* (c, err) := cloneGitRepo c in
  match err with
  | Some err => ret (c, Some (ErrGitFetch err))
  | None =>
  (* Change directory to the root of the cloned repo. *)
  let repoName := path.Base (sourceRepo c) in
  let* err := ask (CallChdir repoName) (fun w => os_Chdir env w repoName) in
  match err with
  | Some err => ret (c, Some (ErrChdir repoName err))
  | None =>
  let* cwd := ask CallGetwd (os_Getwd env) in
  match cwd with
  | Err err => ret (c, Some (ErrGetwdFetch err))
  | Ok cwd =>
  (* Checkout the commit. *)
  let* (c, err) := checkoutGitCommit c in
  match err with
  | Some err => ret (c, Some (ErrGitCheckout err))
  | None => ret (with_RepoRoot c cwd, None)
  end end end end end end end.

Definition verifyOrFetchRepo (c : GitClient) : IO (GitClient * option Error) :=
  if negb (String.eqb (Alg (sourceDigest c)) "sha1")
  then ret (c, Some ErrNotSha1)
  else
    let* (repoIsCheckedOut, err) := verifyRefAndCommit c in
    match err, forceCheckout c with
    | Some err, false => ret (c, Some err)
    | _, _ =>
        if negb repoIsCheckedOut || forceCheckout c
        then
          let* (c, err) := fetchSourcesFromGitRepo c in
          match err with
          | Some err =>
              ret (c, Some (ErrFetchSources (sourceRepo c)
                              (Alg (sourceDigest c)) (Value (sourceDigest c))
                              err))
          | None => ret (c, None)
          end
        else ret (c, None)
    end.

Definition GitClient_Fetch (c : GitClient)
  : IO (GitClient * result RepoCheckoutInfo) :=
  let* (c, err) := verifyOrFetchRepo c in
  match err with
  | Some err => ret (c, Err err)
  | None => ret (c, Ok (checkoutInfo c))
  end.

#[export] Instance GitClient_Fetcher : Fetcher GitClient := GitClient_Fetch.

End GitClient.

(** *** Cleaning up *)

(** The removals that the clean-up asks of the operating system.  A
    removal that fails is logged and the clean-up goes on: nothing that the
    operating system answers is looked at, so that what the clean-up does
    is the list of the removals it asks for, in order. *)
Inductive Removal : Type :=
| RemoveAll (path : string)     (* os.RemoveAll *)
| Remove (name : string).       (* os.Remove *)

(** Cleanup removes the generated temp files.  But it might not be able to
    remove all the files, for instance the ones generated by the build
    script. *)
Definition Cleanup (info : RepoCheckoutInfo) : list Removal :=
  if String.eqb (RepoRoot info) "" then []
  else [RemoveAll (RepoRoot info)].

(** [cleanupAllFiles]: the checkout, then the log files and the error
    files. *)
Definition cleanupAllFiles (c : GitClient) : list Removal :=
  Cleanup (checkoutInfo c) ++ map Remove (logFiles c ++ errFiles c).

(** ** Capturing the output of a command *)

(** [saveToTempFile] starts a goroutine for each of the two pipes of a
    command, [saveOneTempFile], and collects the names of the files; what
    it returns is an answer of the environment ([RunOutcome] above).  What a
    goroutine does with its pipe is sequential, and is modelled here. *)

(** [io.Reader], as [bufio.Scanner] uses it.  The readers that
    [saveToTempFile] is given are the two pipes of a command.  [stream] is
    what the stream still holds; a call of [Read] delivers bytes from its
    front, as many as fit into the space it is given and no more than the
    next of [chunks] (when that list is used up, as many as fit); at the end
    of the stream it delivers no byte and the error [ending], which is
    [io.EOF] unless the stream breaks. *)
Module io.

Definition EOF : Error := ErrExternal "EOF".

Definition ErrNoProgress : Error :=
  ErrExternal "multiple Read calls return no data or error".

Record Reader : Type := {
  stream : string;
  chunks : list nat;
  ending : Error;
}.

Definition Read (r : Reader) (space : nat) : string * option Error * Reader :=
  match stream r with
  | EmptyString => (EmptyString, Some (ending r), r)
  | _ =>
      let n := Nat.min space (hd space (chunks r)) in
      (strings.take n (stream r), None,
       {| stream := strings.drop n (stream r);
          chunks := tl (chunks r);
          ending := ending r |})
  end.

End io.

(** [bufio.Scanner] with the split function [bufio.ScanLines], which is what
    [bufio.NewScanner] gives. *)
Module bufio.

Definition MaxScanTokenSize : nat := 64 * 1024.
Definition startBufSize : nat := 4096.
Definition maxConsecutiveEmptyReads : nat := 100.

Definition ErrTooLong : Error := ErrExternal "bufio.Scanner: token too long".

Definition ErrBadReadCount : Error :=
  ErrExternal "bufio.Scanner: Read returned impossible count".

Definition newline : ascii := "010"%char.
Definition carriage_return : ascii := "013"%char.

(** [bytes.IndexByte]; [None] is -1. *)
Fixpoint IndexByte (b : string) (c : ascii) : option nat :=
  match b with
  | EmptyString => None
  | String c' b' =>
      if Ascii.eqb c' c then Some 0%nat
      else match IndexByte b' c with
           | Some i => Some (S i)
           | None => None
           end
  end.

(** dropCR drops a terminal \r from the data. *)
Definition dropCR (data : string) : string :=
  if strings.HasSuffix data (String carriage_return EmptyString)
  then strings.take (strings.len data - 1) data
  else data.

(** [ScanLines] returns how far to advance and a token, [None] for the nil
    token; it returns no error. *)
Definition ScanLines (data : string) (atEOF : bool) : nat * option string :=
  if atEOF && (strings.len data =? 0)%nat then (0%nat, None)
  else match IndexByte data newline with
       | Some i =>
           (* We have a full newline-terminated line. *)
           (S i, Some (dropCR (strings.take i data)))
       | None =>
           (* If we're at EOF, we have a final, non-terminated line. *)
           if atEOF then (strings.len data, Some (dropCR data))
           else (* Request more data. *) (0%nat, None)
       end.

(** The buffer [s.buf] is kept as its length [buf_size] and the bytes
    [s.buf[s.start:s.end]], read and not yet given out, [pending]: [s.end]
    is [start + len pending]. *)
Record Scanner : Type := {
  reader : io.Reader;
  buf_size : nat;
  start : nat;
  pending : string;
  err : option Error;
}.

Definition NewScanner (r : io.Reader) : Scanner :=
  {| reader := r; buf_size := 0; start := 0; pending := EmptyString; err := None |}.

Definition has_err (s : Scanner) : bool :=
  match err s with Some _ => true | None => false end.

Definition is_EOF (e : Error) : bool :=
  match e with
  | ErrExternal msg => String.eqb msg "EOF"
  | _ => false
  end.

(** setErr records the first error encountered. *)
Definition setErr (s : Scanner) (e : Error) : Scanner :=
  if match err s with Some e' => is_EOF e' | None => true end
  then {| reader := reader s; buf_size := buf_size s; start := start s;
          pending := pending s; err := Some e |}
  else s.

(** "See if we can get a token with what we already have."  [ScanLines]
    returns no error and does not advance beyond the data. *)
Definition split_pending (s : Scanner) : Scanner * option string :=
  if (0 <? strings.len (pending s))%nat || has_err s
  then
    let '(advance, token) := ScanLines (pending s) (has_err s) in
    ({| reader := reader s; buf_size := buf_size s;
        start := (start s + advance)%nat;
        pending := strings.drop advance (pending s);
        err := err s |}, token)
  else (s, None).

(** The loop that reads some input, with [left] empty reads still allowed:
    the bytes read, the error if there is one, and the reader afterwards. *)
Fixpoint fill (left : nat) (r : io.Reader) (space : nat)
  : string * option Error * io.Reader :=
  let '(bytes, e, r') := io.Read r space in
  if (space <? strings.len bytes)%nat
  then (EmptyString, Some ErrBadReadCount, r')
  else match e with
       | Some e => (bytes, Some e, r')
       | None =>
           if (0 <? strings.len bytes)%nat then (bytes, None, r')
           else match left with
                | O => (bytes, Some io.ErrNoProgress, r')
                | S left' => fill left' r' space
                end
       end.

(** "Must read more data": the buffer is shifted if need be, and resized if
    it is full; then some input is read.  The result is [None] when the
    buffer is full and as large as it may get. *)
Definition read_more (s : Scanner) : option Scanner :=
  (* First, shift data to beginning of buffer if there's lots of empty space
     or space is needed. *)
  let start' :=
    if (0 <? start s)%nat
       && ((start s + strings.len (pending s) =? buf_size s)%nat
           || (buf_size s / 2 <? start s)%nat)
    then 0%nat else start s in
  (* Is the buffer full? If so, resize. *)
  let resized :=
    if (start' + strings.len (pending s) =? buf_size s)%nat
    then
      if (MaxScanTokenSize <=? buf_size s)%nat then None
      else
        let newSize := if (buf_size s * 2 =? 0)%nat then startBufSize
                       else (buf_size s * 2)%nat in
        Some (Nat.min newSize MaxScanTokenSize, 0%nat)
    else Some (buf_size s, start') in
  match resized with
  | None => None
  | Some (size', start') =>
      (* Finally we can read some input. *)
      let '(bytes, e, r') :=
        fill maxConsecutiveEmptyReads (reader s)
             (size' - (start' + strings.len (pending s))) in
      let s' := {| reader := r'; buf_size := size'; start := start';
                   pending := pending s +:+ bytes; err := err s |} in
      Some match e with
           | Some e => setErr s' e
           | None => s'
           end
  end.

(** The loop of [Scan], "until we have a token", run at most [fuel] times. *)
Fixpoint scan (fuel : nat) (s : Scanner) : option string * Scanner :=
  match fuel with
  | O => (None, s)
  | S fuel' =>
      let '(s, token) := split_pending s in
      match token with
      | Some token => (Some token, s)
      | None =>
          (* We cannot generate a token with what we are holding. *)
          if has_err s then
            (* If we've already hit EOF or an I/O error, we are done. *)
            (None, {| reader := reader s; buf_size := buf_size s; start := 0;
                      pending := EmptyString; err := err s |})
          else
            match read_more s with
            | None => (None, setErr s ErrTooLong)
            | Some s => scan fuel' s
            end
      end
  end.

(** [Scan]: the token, if there is one, and the scanner afterwards.  Each
    round of the loop but the last reads at least one byte or meets an
    error, so that these rounds are enough ([scan_rounds] below). *)
Definition Scan (s : Scanner) : option string * Scanner :=
  scan (strings.len (io.stream (reader s)) + 2) s.

End bufio.

(** The errors that [saveOneTempFile] reports. *)
Inductive CaptureError : Type :=
| ErrCreateTemp (e : Error)
    (* the error of [os.CreateTemp], as it is *)
| ErrWriteBytes (e : Error).
    (* "couldn't write bytes to tempfile: %v" *)

(** What [saveOneTempFile] sends on [fileChannel]: the file, by its name, or
    an error. *)
Record tempFileResult : Type := {
  File : option string;
  FileErr : option CaptureError;      (* field [Err] *)
}.

(** What [saveOneTempFile] asks of the operating system. *)
Record TempFiles : Type := {
  (* os.CreateTemp: the name of the file created *)
  os_CreateTemp : string -> string -> result string;
  (* tmpfile.Write: the file and all the bytes *)
  tmpfile_Write : string -> string -> option Error;
}.

(** What [saveOneTempFile] does, in order, besides reading. *)
Inductive Action : Type :=
| PrintLine (line : string)           (* printChannel <- string(bytes) *)
| CreateTempFile (dir pattern : string)
| WriteFile (name bytes : string)
| SendResult (r : tempFileResult)     (* fileChannel <- ... *)
| CloseFile (name : string).          (* defer tmpfile.Close() *)

(** The loop [for scanner.Scan()]: all the bytes, and the lines sent to be
    printed. *)
Fixpoint scanAll (fuel : nat) (verbose : bool) (scanner : bufio.Scanner)
    (allBytes : string) : string * list Action :=
  match fuel with
  | O => (allBytes, [])
  | S fuel' =>
      match bufio.Scan scanner with
      | (None, _) => (allBytes, [])
      | (Some bytes, scanner) =>
          let allBytes := allBytes +:+ bytes +:+ String bufio.newline EmptyString in
          let '(allBytes, printed) := scanAll fuel' verbose scanner allBytes in
          (allBytes, if verbose then PrintLine bytes :: printed else printed)
      end
  end.

(** A helper function used by saveToTempFile to process one individual
    file.  Every token that [Scan] gives takes at least one byte of the
    stream, so that the loop is run at most once more than the stream has
    bytes ([scanAll_rounds] below). *)
Definition saveOneTempFile (os : TempFiles) (verbose : bool)
    (reader : io.Reader) : list Action :=
  let scanner := bufio.NewScanner reader in
  let '(allBytes, printed) :=
    scanAll (strings.len (io.stream reader) + 1) verbose scanner EmptyString in
  printed ++
  CreateTempFile "" "log-*.txt" ::
  match os_CreateTemp os "" "log-*.txt" with
  | Err err => [SendResult {| File := None; FileErr := Some (ErrCreateTemp err) |}]
  | Ok tmpfile =>
      WriteFile tmpfile allBytes ::
      match tmpfile_Write os tmpfile allBytes with
      | Some err =>
          [SendResult {| File := None; FileErr := Some (ErrWriteBytes err) |};
           CloseFile tmpfile]
      | None =>
          [SendResult {| File := Some tmpfile; FileErr := None |};
           CloseFile tmpfile]
      end
  end.

(** ** Provenance data *)

(** A parsed JSON document.  [JNumber] keeps the literal. *)
Inductive json : Type :=
| JNull
| JBool (b : bool)
| JNumber (literal : string)
| JString (s : string)
| JArray (elements : list json)
| JObject (members : list (string * json)).

(** What [encoding/json] stores in an [interface{}]: nil, bool, float64 (kept
    as its literal), string, [[]interface{}] and [map[string]interface{}].
    A map is kept as the list of its entries in increasing key order, which
    is the order in which [json.Marshal] writes them. *)
Inductive any : Type :=
| ANil
| ABool (b : bool)
| AFloat64 (literal : string)
| AString (s : string)
| ASlice (elements : list any)
| AMap (entries : list (string * any)).

(** [common.DigestSet], a [map[string]string]. *)
Abbreviation DigestSet := (gmap string string).

(** [intoto.Subject] and [slsa1.ResourceDescriptor], as far as the builder
    fills them in: the other members of a resource descriptor ([name],
    [downloadLocation], [mediaType], [content], [annotations]) are optional
    and the builder leaves them empty. *)
Record Subject : Type := {
  SubjectName : string;        (* field [Name] *)
  SubjectDigest : DigestSet;   (* field [Digest] *)
}.

Record ResourceDescriptor : Type := {
  URI : string;
  RDDigest : DigestSet;        (* field [Digest] *)
}.

(** Modelled from the spec: the declaration of
    [ContainerBasedExternalParameters] is missing.  These are the four
    fields that [CreateBuildDefinition] fills in; the spec lists them as
    source, builderImage, configPath and config. *)
Record ContainerBasedExternalParameters : Type := {
  EPSource : ResourceDescriptor;         (* field [Source] *)
  EPBuilderImage : ResourceDescriptor;   (* field [BuilderImage] *)
  ConfigPath : string;
  Config : BuildConfig;
}.

(** [ProvenanceBuildDefinition.ExternalParameters] has type [interface{}]:
    it holds what the JSON decoder put there, or the concrete external
    parameters of a container-based build. *)
Inductive ExternalParametersValue : Type :=
| EPGeneric (v : any)
| EPContainerBased (ep : ContainerBasedExternalParameters).

Definition ContainerBasedBuildType : string :=
  "https://slsa.dev/container-based-build/v0.1?draft".

Record ProvenanceBuildDefinition : Type := {
  BuildType : string;
  ExternalParameters : ExternalParametersValue;
  InternalParameters : any;
  ResolvedDependencies : list ResourceDescriptor;
}.

(** Modelled from the spec: [Digest.ToMap] is missing.  The spec writes a
    digest in provenance as the map from its algorithm to its value. *)
Definition ToMap (d : Digest) : DigestSet := {[ Alg d := Value d ]}.

(** Modelled from the spec: [DockerImage.ToString] is missing.  The spec
    has the string form of an image reference always include the digest
    suffix, [name@alg:value]. *)
Definition ToString (bi : DockerImage) : string :=
  Name bi +:+ "@" +:+ Alg (ImageDigest bi) +:+ ":" +:+ Value (ImageDigest bi).

(** ** The builder *)

Record DockerBuild : Type := {
  config : DockerBuildConfig;
  buildConfig : BuildConfig;
  RepoInfo : RepoCheckoutInfo;
}.

Record Builder (F : Type) : Type := {
  repoFetcher : F;
  builder_config : DockerBuildConfig;   (* field [config] *)
}.
Arguments repoFetcher {F} b.
Arguments builder_config {F} b.

(** [encoding/hex.EncodeToString] *)
Module hex.

Definition hextable : list ascii :=
  ["0"; "1"; "2"; "3"; "4"; "5"; "6"; "7"; "8"; "9";
   "a"; "b"; "c"; "d"; "e"; "f"]%char.

Definition digit (n : N) : ascii :=
  nth (N.to_nat n) hextable "0"%char.

Fixpoint EncodeToString (src : string) : string :=
  match src with
  | EmptyString => EmptyString
  | String c src' =>
      let v := N_of_ascii c in
      String (digit (N.shiftr v 4))
        (String (digit (N.land v 15)) (EncodeToString src'))
  end.

End hex.

(** sourceArtifact returns the source repo and its digest as an instance of
    ResourceDescriptor. *)
Definition sourceArtifact (config : DockerBuildConfig) : ResourceDescriptor :=
  {| URI := SourceRepo config;
     RDDigest := ToMap (SourceDigest config) |}.

(** builderImage returns the builder image as an instance of
    ResourceDescriptor. *)
Definition builderImage (config : DockerBuildConfig) : ResourceDescriptor :=
  {| URI := ToString (BuilderImage config);
     RDDigest := ToMap (ImageDigest (BuilderImage config)) |}.

Definition CreateBuildDefinition (db : DockerBuild) : ProvenanceBuildDefinition :=
  let ep :=
    {| EPSource := sourceArtifact (config db);
       EPBuilderImage := builderImage (config db);
       ConfigPath := BuildConfigPath (config db);
       Config := buildConfig db |} in
  {| BuildType := ContainerBasedBuildType;
     ExternalParameters := EPContainerBased ep;
     InternalParameters := ANil;
     (* The source repository is also added as a resolved dependency. *)
     ResolvedDependencies := [sourceArtifact (config db)] |}.

Section Builder.

Variable env : Env.

(** [filepath.ErrBadPattern] *)
Definition ErrBadPattern : Error := ErrExternal "syntax error in pattern".

Definition Glob (pattern : string) : IO (result (list string)) :=
  ask (CallGlob pattern)
      (fun w => if filepath_bad_pattern env pattern then Err ErrBadPattern
                else Ok (filepath_matches env w pattern)).

(** CheckExistingFiles checks if any files match the given pattern, and
    returns an error if so. *)
Definition CheckExistingFiles (pattern : string) : IO (option Error) :=
  let* matches := Glob pattern in
  ret match matches with
      | Err err => Some (ErrPatternMalformed pattern err)
      | Ok matches =>
          if (length matches =? 0)%nat then None
          else Some (ErrExistingFiles pattern (length matches))
      end.

Definition NewBuilderWithGitFetcher (config : DockerBuildConfig)
  : result (Builder GitClient) :=
  match newGitClient env config 0 with
  | Err err => Err (ErrCreateBuilder err)
  | Ok gc => Ok {| repoFetcher := gc; builder_config := config |}
  end.

Definition SetUpBuildState {F} `{Fetcher F} (b : Builder F)
  : IO (Builder F * result DockerBuild) :=
  (* 1. Check out the repo, or verify that it is checked out. *)
  let* (fetcher, repoInfo) := Fetch (repoFetcher b) in
  let b := {| repoFetcher := fetcher; builder_config := builder_config b |} in
  match repoInfo with
  | Err err => ret (b, Err (ErrVerifyOrFetch err))
  | Ok repoInfo =>
  (* 2. Load and parse the config file. *)
  let path := BuildConfigPath (builder_config b) in
  let* bc := ask (CallLoadBuildConfigFromFile path)
                 (fun w => config_LoadBuildConfigFromFile env w path) in
  match bc with
  | Err err => ret (b, Err (ErrLoadConfig path err))
  | Ok bc =>
  (* 3. Check that the ArtifactPath pattern does not match any existing
     files. *)
  let* err := CheckExistingFiles (ArtifactPath bc) in
  match err with
  | Some err => ret (b, Err err)
  | None =>
      ret (b, Ok {| config := builder_config b;
                    buildConfig := bc;
                    RepoInfo := repoInfo |})
  end end end.

Definition runDockerRun (db : DockerBuild) : IO (option Error) :=
  (* Get the current working directory. We will mount it as a Docker
     volume. *)
  let* cwd := ask CallGetwd (os_Getwd env) in
  match cwd with
  | Err err => ret (Some (ErrGetwd err))
  | Ok cwd =>
  let defaultDockerRunFlags :=
    ["--volume=" +:+ cwd +:+ ":/workspace";
     "--workdir=/workspace";
     "--rm"] in
  let buildDef := CreateBuildDefinition db in
  match ExternalParameters buildDef with
  | EPGeneric _ => ret (Some ErrExpectedContainerBased)
  | EPContainerBased containerEp =>
  let args :=
    ["run"] ++ defaultDockerRunFlags ++ [URI (EPBuilderImage containerEp)]
      ++ Command (buildConfig db) in
  let* outcome := Run env (Verbose (config db)) ("docker" :: args) in
  ret match outcome with
      | StdoutPipeFailed err => Some (ErrStdoutPipe err)
      | StderrPipeFailed err => Some (ErrStderrPipe err)
      | StartFailed err => Some (ErrStart err)
      | SaveFailed err => Some (ErrSaveLogs err)
      | WaitFailed err logs errs => Some (ErrWait err logs errs)
      | Completed _ _ => None
      end
  end end.

(** Reads the file in the given path and returns its name and digest
    wrapped in an intoto.Subject. *)
Definition toIntotoSubject (data : string) (filePath : string) : result Subject :=
  let sum256 := sha256_Sum256 env data in
  let digest := hex.EncodeToString sum256 in
  let name := path.Base filePath in
  Ok {| SubjectName := name;
        SubjectDigest := {[ "sha256" := digest ]} |}.

(** The body of the loop of [inspectAndWriteArtifacts], for one match. *)
Definition inspectAndWriteArtifact (outputFolder root path : string)
  : IO (result Subject) :=
  try* data := ask (CallSafeReadFile path)
                   (fun w => match utils_SafeReadFile env w path with
                             | Err err => Err (ErrReadFile path err)
                             | Ok data => Ok data
                             end) in
  match toIntotoSubject data path with
  | Err err => ret (Err err)
  | Ok subject =>
      if String.eqb outputFolder "" then ret (Ok subject)
      else
        (* Write output file to output folder using the path relative to
           the root of the source repository. *)
        try* path :=
          (if String.eqb root "" then ret (Ok path)
           else ask (CallAbs path) (fun w => filepath_Abs env w path)) in
        match filepath_Rel env root path with
        | Err err => ret (Err (ErrRel root path err))
        | Ok relPath =>
            let* err := ask (CallCreateNewFileUnderDirectory relPath outputFolder)
                          (fun w => utils_CreateNewFileUnderDirectory
                                      env w relPath outputFolder) in
            match err with
            | Some err => ret (Err (ErrCreateOutput err))
            | None =>
                let* err := ask (CallWrite relPath outputFolder data)
                              (fun w => file_Write env w relPath outputFolder data) in
                match err with
                | Some err => ret (Err (ErrWriteOutput err))
                | None => ret (Ok subject)
                end
            end
        end
  end.

Fixpoint inspectAndWriteMatches (outputFolder root : string)
    (subjects : list Subject) (matches : list string)
  : IO (result (list Subject)) :=
  match matches with
  | [] => ret (Ok subjects)
  | path :: matches' =>
      try* subject := inspectAndWriteArtifact outputFolder root path in
      inspectAndWriteMatches outputFolder root (subjects ++ [subject]) matches'
  end.

(** Finds all files matching the given pattern, measures the SHA256 digest
    of each file, and returns filenames and digests as an array of
    intoto.Subject.  This also writes the output to a configured output
    folder, if provided. *)
Definition inspectAndWriteArtifacts (pattern outputFolder root : string)
  : IO (result (list Subject)) :=
  let* matches := Glob pattern in
  match matches with
  | Err err => ret (Err (ErrPatternMalformed pattern err))
  | Ok matches =>
      if (length matches =? 0)%nat then ret (Err (ErrNoFilesMatching pattern))
      else inspectAndWriteMatches outputFolder root [] matches
  end.

Definition BuildArtifacts (db : DockerBuild) (outputFolder : string)
  : IO (result (list Subject)) :=
  let* err := runDockerRun db in
  match err with
  | Some err => ret (Err (ErrDockerRun err))
  | None =>
      inspectAndWriteArtifacts (ArtifactPath (buildConfig db)) outputFolder
        (RepoRoot (RepoInfo db))
  end.

End Builder.

(** ** UTF-8 *)

(** [encoding/json] writes a string "coerced to valid UTF-8, replacing invalid
    bytes with the Unicode replacement rune": its encoder calls
    [utf8.DecodeRuneInString] at every byte that is not ASCII and writes
    U+FFFD when that returns [RuneError] with size 1.  Reading the text back
    gives the bytes [EF BF BD] for it, and the bytes written for everything
    else. *)
Module utf8.

Definition in_range (lo hi : N) (c : ascii) : bool :=
  (lo <=? N_of_ascii c)%N && (N_of_ascii c <=? hi)%N.

(** The table [first] with [acceptRanges]: the size of the encoding that a
    leading byte announces and the range of its second byte. *)
Definition first (p0 : N) : option (nat * N * N) :=
  if (p0 <? 0x80)%N then Some (1%nat, 0, 0)%N
  else if (p0 <? 0xC2)%N then None
  else if (p0 <? 0xE0)%N then Some (2%nat, 0x80, 0xBF)%N
  else if (p0 =? 0xE0)%N then Some (3%nat, 0xA0, 0xBF)%N
  else if (p0 =? 0xED)%N then Some (3%nat, 0x80, 0x9F)%N
  else if (p0 <? 0xF0)%N then Some (3%nat, 0x80, 0xBF)%N
  else if (p0 =? 0xF0)%N then Some (4%nat, 0x90, 0xBF)%N
  else if (p0 <? 0xF4)%N then Some (4%nat, 0x80, 0xBF)%N
  else if (p0 =? 0xF4)%N then Some (4%nat, 0x80, 0x8F)%N
  else None.

(** The size that [DecodeRuneInString] returns for a well-formed encoding
    at the head of [s]; [None] where it returns [RuneError] with size 0 or
    1. *)
Definition rune_size (s : string) : option nat :=
  match s with
  | EmptyString => None
  | String p0 s1 =>
      match first (N_of_ascii p0) with
      | None => None
      | Some (1%nat, _, _) => Some 1%nat
      | Some (sz, lo, hi) =>
          match s1 with
          | EmptyString => None
          | String b1 s2 =>
              if negb (in_range lo hi b1) then None
              else if (sz <=? 2)%nat then Some 2%nat
              else match s2 with
                   | EmptyString => None
                   | String b2 s3 =>
                       if negb (in_range 0x80 0xBF b2) then None
                       else if (sz <=? 3)%nat then Some 3%nat
                       else match s3 with
                            | EmptyString => None
                            | String b3 _ =>
                                if negb (in_range 0x80 0xBF b3) then None
                                else Some 4%nat
                            end
                   end
          end
      end
  end.

(** U+FFFD in UTF-8 *)
Definition replacement : string :=
  String (ascii_of_N 0xEF) (String (ascii_of_N 0xBF)
    (String (ascii_of_N 0xBD) EmptyString)).

(** [pending] counts the bytes still to copy of the encoding being read. *)
Fixpoint coerce_from (pending : nat) (s : string) : string :=
  match s with
  | EmptyString => EmptyString
  | String c s' =>
      match pending with
      | S n => String c (coerce_from n s')
      | O =>
          match rune_size s with
          | Some sz => String c (coerce_from (sz - 1) s')
          | None => replacement +:+ coerce_from 0 s'
          end
      end
  end.

(** What a string is after it was written to JSON and read back. *)
Definition coerce (s : string) : string := coerce_from 0 s.

Fixpoint valid_from (pending : nat) (s : string) : bool :=
  match s with
  | EmptyString => true
  | String c s' =>
      match pending with
      | S n => valid_from n s'
      | O =>
          match rune_size s with
          | Some sz => valid_from (sz - 1) s'
          | None => false
          end
      end
  end.

(** [utf8.ValidString] *)
Definition ValidString (s : string) : bool := valid_from 0 s.

End utf8.

(** ** JSON, as [encoding/json] writes and reads the provenance types *)

(** A document is modelled by its parse tree: [json.Marshal] gives the tree
    of the text it writes, and [json.Unmarshal] starts from the tree of the
    text it is given. *)
Module Json.

(** Entries of a map in increasing key order; a later entry replaces an
    earlier one with the same key. *)
Fixpoint insert_entry {V} (k : string) (v : V) (l : list (string * V))
  : list (string * V) :=
  match l with
  | [] => [(k, v)]
  | (k', v') :: l' =>
      match String.compare k k' with
      | Lt => (k, v) :: l
      | Eq => (k, v) :: l'
      | Gt => (k', v') :: insert_entry k v l'
      end
  end.

Definition entries_of_list {V} (l : list (string * V)) : list (string * V) :=
  fold_left (fun acc kv => insert_entry kv.1 kv.2 acc) l [].

(** *** Writing *)

Definition marshal_string (s : string) : json := JString (utf8.coerce s).

(** A nil slice is written [null] and an empty one [[]]; both are the
    empty list here, written [null]. *)
Definition marshal_slice {T} (marshal : T -> json) (l : list T) : json :=
  match l with
  | [] => JNull
  | _ => JArray (map marshal l)
  end.

(** A map is written with its keys sorted. *)
Definition marshal_DigestSet (d : DigestSet) : json :=
  JObject (map (fun kv => (utf8.coerce kv.1, marshal_string kv.2))
               (entries_of_list (map_to_list d))).

(** [omitempty] *)
Definition omitempty_string (name : string) (s : string) : list (string * json) :=
  if String.eqb s "" then [] else [(name, marshal_string s)].

Definition omitempty_DigestSet (name : string) (d : DigestSet)
  : list (string * json) :=
  if (size d =? 0)%nat then [] else [(name, marshal_DigestSet d)].

Definition marshal_ResourceDescriptor (rd : ResourceDescriptor) : json :=
  JObject (omitempty_string "uri" (URI rd)
           ++ omitempty_DigestSet "digest" (RDDigest rd)).

Definition marshal_Subject (sub : Subject) : json :=
  JObject (omitempty_string "name" (SubjectName sub)
           ++ omitempty_DigestSet "digest" (SubjectDigest sub)).

(** Modelled from the spec: the declaration of [BuildConfig] is missing,
    and the spec names no JSON members for it; its fields are then written
    under their Go names. *)
Definition marshal_BuildConfig (bc : BuildConfig) : json :=
  JObject [("Command", marshal_slice marshal_string (Command bc));
           ("ArtifactPath", marshal_string (ArtifactPath bc))].

(** Modelled from the spec: the declaration of
    [ContainerBasedExternalParameters] is missing.  The spec gives the
    members of the external parameters as [source], [builderImage],
    [configPath] and [config]. *)
Definition marshal_ContainerBasedExternalParameters
    (ep : ContainerBasedExternalParameters) : json :=
  JObject [("source", marshal_ResourceDescriptor (EPSource ep));
           ("builderImage", marshal_ResourceDescriptor (EPBuilderImage ep));
           ("configPath", marshal_string (ConfigPath ep));
           ("config", marshal_BuildConfig (Config ep))].

Fixpoint marshal_any (v : any) : json :=
  match v with
  | ANil => JNull
  | ABool b => JBool b
  | AFloat64 literal => JNumber literal
  | AString s => marshal_string s
  | ASlice elements => JArray (map marshal_any elements)
  | AMap entries =>
      JObject (map (fun kv => match kv with
                              | (k, v) => (utf8.coerce k, marshal_any v)
                              end) entries)
  end.

Definition marshal_ExternalParametersValue (v : ExternalParametersValue) : json :=
  match v with
  | EPGeneric v => marshal_any v
  | EPContainerBased ep => marshal_ContainerBasedExternalParameters ep
  end.

(** *** Reading *)

(** [json.UnmarshalTypeError] *)
Definition UnmarshalTypeError : Error :=
  ErrExternal "json: cannot unmarshal value into Go value".

(** Into an [interface{}]. *)
Fixpoint unmarshal_any (j : json) : any :=
  match j with
  | JNull => ANil
  | JBool b => ABool b
  | JNumber literal => AFloat64 literal
  | JString s => AString s
  | JArray elements => ASlice (map unmarshal_any elements)
  | JObject members =>
      AMap (entries_of_list
              (map (fun kv => match kv with
                              | (k, v) => (k, unmarshal_any v)
                              end) members))
  end.

(** [null] leaves a string as it is. *)
Definition unmarshal_string (j : json) (old : string) : result string :=
  match j with
  | JString s => Ok s
  | JNull => Ok old
  | _ => Err UnmarshalTypeError
  end.

(** An array is read element by element, over the elements that the slice
    already has. *)
Fixpoint unmarshal_elements {T} (unmarshal : json -> T -> result T) (zero : T)
    (elements : list json) (old : list T) : result (list T) :=
  match elements with
  | [] => Ok []
  | j :: elements' =>
      match unmarshal j (hd zero old) with
      | Err err => Err err
      | Ok t =>
          match unmarshal_elements unmarshal zero elements' (tl old) with
          | Err err => Err err
          | Ok ts => Ok (t :: ts)
          end
      end
  end.

Definition unmarshal_slice {T} (unmarshal : json -> T -> result T) (zero : T)
    (j : json) (old : list T) : result (list T) :=
  match j with
  | JNull => Ok []
  | JArray elements => unmarshal_elements unmarshal zero elements old
  | _ => Err UnmarshalTypeError
  end.

(** An object is read into the map that is already there, each value into
    a fresh string. *)
Definition unmarshal_DigestSet (j : json) (old : DigestSet) : result DigestSet :=
  match j with
  | JNull => Ok ∅
  | JObject members =>
      fold_left (fun acc kv =>
                   match acc with
                   | Err err => Err err
                   | Ok d =>
                       match unmarshal_string kv.2 "" with
                       | Err err => Err err
                       | Ok v => Ok (<[kv.1 := v]> d)
                       end
                   end) members (Ok old)
  | _ => Err UnmarshalTypeError
  end.

Section Reading.

Variable env : Env.

(** The field for a key: the one with that name or, if there is none,
    the first whose name equals the key under case folding. *)
Definition find_field {T} (fields : list (string * T)) (key : string)
  : option T :=
  match find (fun f => String.eqb f.1 key) fields with
  | Some f => Some f.2
  | None =>
      match find (fun f => strings_EqualFold env f.1 key) fields with
      | Some f => Some f.2
      | None => None
      end
  end.

(** An object is read member by member, in the order of the text, into
    the struct that is already there; a key that names no field is
    skipped; [null] leaves the struct as it is. *)
Definition unmarshal_struct {T}
    (fields : list (string * (json -> T -> result T)))
    (j : json) (old : T) : result T :=
  match j with
  | JNull => Ok old
  | JObject members =>
      fold_left (fun acc kv =>
                   match acc with
                   | Err err => Err err
                   | Ok t =>
                       match find_field fields kv.1 with
                       | Some set => set kv.2 t
                       | None => Ok t
                       end
                   end) members (Ok old)
  | _ => Err UnmarshalTypeError
  end.

(** A field of a struct: read the member over the field's value and
    store the result. *)
Definition field {T A} (get : T -> A) (set : T -> A -> T)
    (unmarshal : json -> A -> result A) : json -> T -> result T :=
  fun j t =>
    match unmarshal j (get t) with
    | Err err => Err err
    | Ok a => Ok (set t a)
    end.

Definition unmarshal_ResourceDescriptor
  : json -> ResourceDescriptor -> result ResourceDescriptor :=
  unmarshal_struct
    [("uri", field URI (fun rd v => {| URI := v; RDDigest := RDDigest rd |})
               unmarshal_string);
     ("digest", field RDDigest (fun rd v => {| URI := URI rd; RDDigest := v |})
                  unmarshal_DigestSet)].

Definition unmarshal_Subject : json -> Subject -> result Subject :=
  unmarshal_struct
    [("name", field SubjectName
                (fun sub v => {| SubjectName := v;
                                 SubjectDigest := SubjectDigest sub |})
                unmarshal_string);
     ("digest", field SubjectDigest
                  (fun sub v => {| SubjectName := SubjectName sub;
                                   SubjectDigest := v |})
                  unmarshal_DigestSet)].

(** Modelled from the spec: the members of [BuildConfig], as
    [marshal_BuildConfig] writes them. *)
Definition unmarshal_BuildConfig : json -> BuildConfig -> result BuildConfig :=
  unmarshal_struct
    [("Command", field Command
                   (fun bc v => {| Command := v;
                                   ArtifactPath := ArtifactPath bc |})
                   (unmarshal_slice unmarshal_string ""));
     ("ArtifactPath", field ArtifactPath
                        (fun bc v => {| Command := Command bc;
                                        ArtifactPath := v |})
                        unmarshal_string)].

(** Modelled from the spec: the members of
    [ContainerBasedExternalParameters], as
    [marshal_ContainerBasedExternalParameters] writes them. *)
Definition unmarshal_ContainerBasedExternalParameters
  : json -> ContainerBasedExternalParameters
    -> result ContainerBasedExternalParameters :=
  unmarshal_struct
    [("source", field EPSource
                  (fun ep v => {| EPSource := v;
                                  EPBuilderImage := EPBuilderImage ep;
                                  ConfigPath := ConfigPath ep;
                                  Config := Config ep |})
                  unmarshal_ResourceDescriptor);
     ("builderImage", field EPBuilderImage
                        (fun ep v => {| EPSource := EPSource ep;
                                        EPBuilderImage := v;
                                        ConfigPath := ConfigPath ep;
                                        Config := Config ep |})
                        unmarshal_ResourceDescriptor);
     ("configPath", field ConfigPath
                      (fun ep v => {| EPSource := EPSource ep;
                                      EPBuilderImage := EPBuilderImage ep;
                                      ConfigPath := v;
                                      Config := Config ep |})
                      unmarshal_string);
     ("config", field Config
                  (fun ep v => {| EPSource := EPSource ep;
                                  EPBuilderImage := EPBuilderImage ep;
                                  ConfigPath := ConfigPath ep;
                                  Config := v |})
                  unmarshal_BuildConfig)].

End Reading.

End Json.

(** ** Provenance statements *)

(** [intoto.StatementHeader], [slsa1.ProvenancePredicate] and the statement
    that embeds them.  The run details are kept as the decoder's generic
    value: the builder never reads them. *)
Record StatementHeader : Type := {
  Type_ : string;              (* field [Type], member [_type] *)
  PredicateType : string;
  Subjects : list Subject;     (* field [Subject] *)
}.

Record ProvenancePredicate : Type := {
  BuildDefinition : ProvenanceBuildDefinition;
  RunDetails : any;
}.

Record ProvenanceStatementSLSA1 : Type := {
  Header : StatementHeader;    (* the embedded [intoto.StatementHeader] *)
  Predicate : ProvenancePredicate;
}.

Definition with_ExternalParameters (statement : ProvenanceStatementSLSA1)
    (v : ExternalParametersValue) : ProvenanceStatementSLSA1 :=
  let bd := BuildDefinition (Predicate statement) in
  {| Header := Header statement;
     Predicate :=
       {| BuildDefinition :=
            {| BuildType := BuildType bd;
               ExternalParameters := v;
               InternalParameters := InternalParameters bd;
               ResolvedDependencies := ResolvedDependencies bd |};
          RunDetails := RunDetails (Predicate statement) |} |}.

Module Zero.

Definition ResourceDescriptor : ResourceDescriptor :=
  {| URI := ""; RDDigest := ∅ |}.

Definition Subject : Subject :=
  {| SubjectName := ""; SubjectDigest := ∅ |}.

Definition BuildConfig : BuildConfig :=
  {| Command := []; ArtifactPath := "" |}.

Definition ContainerBasedExternalParameters : ContainerBasedExternalParameters :=
  {| EPSource := ResourceDescriptor; EPBuilderImage := ResourceDescriptor;
     ConfigPath := ""; Config := BuildConfig |}.

Definition ProvenanceStatementSLSA1 : ProvenanceStatementSLSA1 :=
  {| Header := {| Type_ := ""; PredicateType := ""; Subjects := [] |};
     Predicate :=
       {| BuildDefinition :=
            {| BuildType := "";
               ExternalParameters := EPGeneric ANil;
               InternalParameters := ANil;
               ResolvedDependencies := [] |};
          RunDetails := ANil |} |}.

End Zero.

Module Statement.

Import Json.

Definition marshal_BuildDefinition (bd : ProvenanceBuildDefinition) : json :=
  JObject ([("buildType", marshal_string (BuildType bd));
            ("externalParameters",
             marshal_ExternalParametersValue (ExternalParameters bd))]
           ++ match InternalParameters bd with
              | ANil => []
              | v => [("internalParameters", marshal_any v)]
              end
           ++ match ResolvedDependencies bd with
              | [] => []
              | deps => [("resolvedDependencies",
                          marshal_slice marshal_ResourceDescriptor deps)]
              end).

Definition marshal (statement : ProvenanceStatementSLSA1) : json :=
  JObject [("_type", marshal_string (Type_ (Header statement)));
           ("predicateType", marshal_string (PredicateType (Header statement)));
           ("subject", marshal_slice marshal_Subject (Subjects (Header statement)));
           ("predicate",
            JObject [("buildDefinition",
                      marshal_BuildDefinition
                        (BuildDefinition (Predicate statement)));
                     ("runDetails",
                      marshal_any (RunDetails (Predicate statement)))])].

Section Reading.

Variable env : Env.

Definition unmarshal_BuildDefinition
  : json -> ProvenanceBuildDefinition -> result ProvenanceBuildDefinition :=
  unmarshal_struct env
    [("buildType",
      field BuildType
        (fun bd v => {| BuildType := v;
                        ExternalParameters := ExternalParameters bd;
                        InternalParameters := InternalParameters bd;
                        ResolvedDependencies := ResolvedDependencies bd |})
        unmarshal_string);
     ("externalParameters",
      field ExternalParameters
        (fun bd v => {| BuildType := BuildType bd;
                        ExternalParameters := v;
                        InternalParameters := InternalParameters bd;
                        ResolvedDependencies := ResolvedDependencies bd |})
        (fun j _ => Ok (EPGeneric (unmarshal_any j))));
     ("internalParameters",
      field InternalParameters
        (fun bd v => {| BuildType := BuildType bd;
                        ExternalParameters := ExternalParameters bd;
                        InternalParameters := v;
                        ResolvedDependencies := ResolvedDependencies bd |})
        (fun j _ => Ok (unmarshal_any j)));
     ("resolvedDependencies",
      field ResolvedDependencies
        (fun bd v => {| BuildType := BuildType bd;
                        ExternalParameters := ExternalParameters bd;
                        InternalParameters := InternalParameters bd;
                        ResolvedDependencies := v |})
        (unmarshal_slice (unmarshal_ResourceDescriptor env)
           Zero.ResourceDescriptor))].

Definition unmarshal_Predicate
  : json -> ProvenancePredicate -> result ProvenancePredicate :=
  unmarshal_struct env
    [("buildDefinition",
      field BuildDefinition
        (fun p v => {| BuildDefinition := v; RunDetails := RunDetails p |})
        unmarshal_BuildDefinition);
     ("runDetails",
      field RunDetails
        (fun p v => {| BuildDefinition := BuildDefinition p; RunDetails := v |})
        (fun j _ => Ok (unmarshal_any j)))].

Definition set_Header (statement : ProvenanceStatementSLSA1)
    (h : StatementHeader) : ProvenanceStatementSLSA1 :=
  {| Header := h; Predicate := Predicate statement |}.

Definition unmarshal
  : json -> ProvenanceStatementSLSA1 -> result ProvenanceStatementSLSA1 :=
  unmarshal_struct env
    [("_type",
      field (fun st => Type_ (Header st))
        (fun st v => set_Header st
                       {| Type_ := v;
                          PredicateType := PredicateType (Header st);
                          Subjects := Subjects (Header st) |})
        unmarshal_string);
     ("predicateType",
      field (fun st => PredicateType (Header st))
        (fun st v => set_Header st
                       {| Type_ := Type_ (Header st);
                          PredicateType := v;
                          Subjects := Subjects (Header st) |})
        unmarshal_string);
     ("subject",
      field (fun st => Subjects (Header st))
        (fun st v => set_Header st
                       {| Type_ := Type_ (Header st);
                          PredicateType := PredicateType (Header st);
                          Subjects := v |})
        (unmarshal_slice (unmarshal_Subject env) Zero.Subject));
     ("predicate",
      field Predicate
        (fun st v => {| Header := Header st; Predicate := v |})
        unmarshal_Predicate)].

End Reading.

End Statement.

Section Provenance.

Variable env : Env.

(** [validateDockerImage] is not in [builder.go]: it is a parameter. *)
Variable validateDockerImage : string -> result DockerImage.

(** ParseProvenance parses a byte array into an instance of
    ProvenanceStatementSLSA1.  The argument is the document that the
    bytes spell. *)
Definition ParseProvenance (bytes : json) : result ProvenanceStatementSLSA1 :=
  match Statement.unmarshal env bytes Zero.ProvenanceStatementSLSA1 with
  | Err err => Err (ErrUnmarshalProvenance err)
  | Ok statement =>
      (* ExternalParameters is an interface in slsa1.ProvenancePredicate,
         so we marshal and unmarshal it as an instance of
         ContainerBasedExternalParameters to be able to use the actual
         type.  Marshalling what the decoder produced cannot fail. *)
      let b := Json.marshal_ExternalParametersValue
                 (ExternalParameters (BuildDefinition (Predicate statement))) in
      match Json.unmarshal_ContainerBasedExternalParameters env b
              Zero.ContainerBasedExternalParameters with
      | Err err => Err (ErrUnmarshalBuildConfig err)
      | Ok ep => Ok (with_ExternalParameters statement (EPContainerBased ep))
      end
  end.

(** A map lookup that gives the zero value for a missing key. *)
Definition index (d : DigestSet) (key : string) : string :=
  default "" (d !! key).

(** ToDockerBuildConfig creates an instance of DockerBuildConfig using the
    external parameters in this provenance. *)
Definition ToDockerBuildConfig (p : ProvenanceStatementSLSA1)
    (forceCheckout : bool) : result DockerBuildConfig :=
  match ExternalParameters (BuildDefinition (Predicate p)) with
  | EPGeneric _ => Err ErrCastExternalParameters
  | EPContainerBased ep =>
      match validateDockerImage (URI (EPBuilderImage ep)) with
      | Err err => Err (ErrValidateImageURI err)
      | Ok di =>
          if negb (String.eqb (Value (ImageDigest di))
                     (index (RDDigest (EPBuilderImage ep)) (Alg (ImageDigest di))))
          then Err ErrInvalidImageDigest
          else
            match RDDigest (EPSource ep) !! "sha1" with
            | None => Err ErrMissingSha1
            | Some val =>
                let sd := {| Alg := "sha1"; Value := val |} in
                Ok {| SourceRepo := URI (EPSource ep);
                      SourceDigest := sd;
                      BuilderImage := di;
                      BuildConfigPath := ConfigPath ep;
                      ForceCheckout := forceCheckout;
                      Verbose := false |}
            end
      end
  end.

End Provenance.

(** ** A sample environment *)

(** A small simulated machine on which the statements below are run: one
    working directory that may hold a checkout, a remote whose clone lands
    in a temporary directory, and a build that leaves some files behind. *)
Module Sample.

Definition newline : string := String "010"%char EmptyString.

(** [strings.TrimSpace] on ASCII white space *)
Fixpoint trim_left (s : string) : string :=
  match s with
  | String c s' => if Ascii.is_space c then trim_left s' else s
  | EmptyString => EmptyString
  end.

Definition TrimSpace (s : string) : string :=
  String.rev (trim_left (String.rev (trim_left s))).

Definition lower (c : ascii) : ascii :=
  let n := N_of_ascii c in
  if ((65 <=? n) && (n <=? 90))%N then ascii_of_N (n + 32) else c.

Fixpoint ToLower (s : string) : string :=
  match s with
  | EmptyString => EmptyString
  | String c s' => String (lower c) (ToLower s')
  end.

(** [strings.EqualFold] on ASCII letters *)
Definition EqualFold (s t : string) : bool :=
  String.eqb (ToLower s) (ToLower t).

(** The scheme of a URL as [net/url] finds it: the letters, digits, [+],
    [-] and [.] before the first colon, starting with a letter, in lower
    case.  [seen] is the part read so far, reversed. *)
Fixpoint getScheme (seen : string) (rawURL : string) : result string :=
  match rawURL with
  | EmptyString => Ok EmptyString
  | String c rest =>
      let n := N_of_ascii c in
      if ((97 <=? n) && (n <=? 122) || (65 <=? n) && (n <=? 90))%N
      then getScheme (String c seen) rest
      else if ((48 <=? n) && (n <=? 57))%N
              || Ascii.eqb c "+" || Ascii.eqb c "-" || Ascii.eqb c "."
      then match seen with
           | EmptyString => Ok EmptyString
           | _ => getScheme (String c seen) rest
           end
      else if Ascii.eqb c ":"
      then match seen with
           | EmptyString => Err (ErrExternal "missing protocol scheme")
           | _ => Ok (String.rev seen)
           end
      else Ok EmptyString
  end.

Definition Parse (rawURL : string) : result URL :=
  match getScheme EmptyString rawURL with
  | Err err => Err err
  | Ok scheme => Ok {| Scheme := ToLower scheme |}
  end.

Definition is_checkout (c : Call) : option string :=
  match c with
  | CallRun _ ["git"; "checkout"; commit] => Some commit
  | _ => None
  end.

Definition is_docker_run (c : Call) : bool :=
  match c with
  | CallRun _ ("docker" :: _) => true
  | _ => false
  end.

(** The commit that the working directory is at: the last one checked
    out, or [head] before any checkout. *)
Fixpoint current_commit (head : option string) (w : World) : option string :=
  match w with
  | [] => head
  | c :: w' =>
      match is_checkout c with
      | Some commit => Some commit
      | None => current_commit head w'
      end
  end.

Record Machine : Type := {
  head : option string;           (* the commit of the working directory *)
  refs : list (string * string);  (* what [git show-ref] knows *)
  before : list string;           (* files that exist before the build *)
  after : list string;            (* files that exist after the build *)
  readable : bool;                (* can the files be read? *)
  writable : bool;                (* can the output folder be written? *)
}.

Definition lookup_ref (m : Machine) (ref : string) : option string :=
  match find (fun kv => String.eqb kv.1 ref) (refs m) with
  | Some kv => Some kv.2
  | None => None
  end.

Definition env (m : Machine) : Env :=
  {| exec_Output := fun w argv =>
       match argv with
       | ["git"; "rev-parse"; "--verify"; "HEAD"] =>
           match current_commit (head m) w with
           | Some commit => Some (commit +:+ newline)
           | None => None
           end
       | ["git"; "show-ref"; "--hash"; "--verify"; ref] =>
           match lookup_ref m ref with
           | Some commit => Some (commit +:+ newline)
           | None => None
           end
       | _ => None
       end;
     exec_Run := fun _ _ _ => Completed "/tmp/log-1.txt" "/tmp/log-2.txt";
     os_MkdirTemp := fun _ _ _ => Ok "/tmp/release-1";
     os_MkdirAll := fun _ _ => None;
     os_Chdir := fun _ _ => None;
     os_Getwd := fun w =>
       Ok (if existsb (fun c => match c with CallChdir _ => true | _ => false end) w
           then "/tmp/release-1/repo" else "/work");
     filepath_bad_pattern := fun p =>
       strings.contains_byte "[" p && negb (strings.contains_byte "]" p);
     filepath_matches := fun w _ =>
       if existsb is_docker_run w then after m else before m;
     filepath_Abs := fun _ p => Ok ("/work/" +:+ p);
     filepath_Rel := fun root p =>
       Ok (if String.eqb root "" then p else strings.drop (S (strings.len root)) p);
     utils_SafeReadFile := fun _ p =>
       if readable m then Ok ("contents of " +:+ p)
       else Err (ErrExternal "permission denied");
     utils_CreateNewFileUnderDirectory := fun _ _ _ =>
       if writable m then None else Some (ErrExternal "permission denied");
     file_Write := fun _ _ _ _ => None;
     config_LoadBuildConfigFromFile := fun _ _ =>
       Ok {| Command := ["make"; "release"]; ArtifactPath := "dist/*.tar.gz" |};
     strings_TrimSpace := TrimSpace;
     strings_EqualFold := EqualFold;
     url_Parse := Parse;
     (* a stand-in for the hash function *)
     sha256_Sum256 := fun data => strings.take 32 (data +:+ "0123456789abcdef0123456789abcdef") |}.

(** Modelled from the spec: [validateDockerImage] is not in [builder.go].
    The spec writes an image reference as a name followed by its digest,
    [name@alg:value]. *)
Definition validateDockerImage (image : string) : result DockerImage :=
  match strings.Split image "@" with
  | [name; digest] =>
      match strings.Split digest ":" with
      | [alg; value] =>
          Ok {| Name := name; ImageDigest := {| Alg := alg; Value := value |} |}
      | _ => Err (ErrExternal "image digest is not of the form alg:value")
      end
  | _ => Err (ErrExternal "image is not of the form name@digest")
  end.

Definition commit1 : string := "1111111111111111111111111111111111111111".
Definition commit2 : string := "2222222222222222222222222222222222222222".

Definition image : DockerImage :=
  {| Name := "example.com/img";
     ImageDigest := {| Alg := "sha256"; Value := "abcd" |} |}.

Definition config (repo : string) (digest : Digest) (force : bool)
  : DockerBuildConfig :=
  {| SourceRepo := repo;
     SourceDigest := digest;
     BuilderImage := image;
     BuildConfigPath := "build.toml";
     ForceCheckout := force;
     Verbose := false |}.

(** A directory checked out at [commit1], with nothing built yet. *)
Definition at_commit1 : Machine :=
  {| head := Some commit1; refs := [("refs/tags/v1.0", commit1)];
     before := []; after := ["dist/app.tar.gz"];
     readable := true; writable := true |}.

End Sample.

(** Some more machines, clients and builds for the statements below. *)
Module Scenario.

(** The same machine, on which the file at [bad] cannot be read. *)
Definition unreadable (E : Env) (bad : string) : Env :=
  {| exec_Output := exec_Output E;
     exec_Run := exec_Run E;
     os_MkdirTemp := os_MkdirTemp E;
     os_MkdirAll := os_MkdirAll E;
     os_Chdir := os_Chdir E;
     os_Getwd := os_Getwd E;
     filepath_bad_pattern := filepath_bad_pattern E;
     filepath_matches := filepath_matches E;
     filepath_Abs := filepath_Abs E;
     filepath_Rel := filepath_Rel E;
     utils_SafeReadFile := fun w p =>
       if String.eqb p bad then Err (ErrExternal "permission denied")
       else utils_SafeReadFile E w p;
     utils_CreateNewFileUnderDirectory := utils_CreateNewFileUnderDirectory E;
     file_Write := file_Write E;
     config_LoadBuildConfigFromFile := config_LoadBuildConfigFromFile E;
     strings_TrimSpace := strings_TrimSpace E;
     strings_EqualFold := strings_EqualFold E;
     url_Parse := url_Parse E;
     sha256_Sum256 := sha256_Sum256 E |}.

(** A directory that is no checkout; the remote has the commit. *)
Definition no_checkout : Sample.Machine :=
  {| Sample.head := None; Sample.refs := [("v1.0", Sample.commit1)];
     Sample.before := []; Sample.after := ["dist/app.tar.gz"];
     Sample.readable := true; Sample.writable := true |}.

Definition client (ref : option string) (digest : Digest) (force : bool)
  : GitClient :=
  {| sourceRepo := "https://example.com/org/repo"; sourceRef := ref;
     sourceDigest := digest; checkoutInfo := {| RepoRoot := "" |};
     logFiles := []; errFiles := [];
     forceCheckout := force; verbose := false; depth := 0 |}.

Definition sha1 (value : string) : Digest := {| Alg := "sha1"; Value := value |}.

Definition build : DockerBuild :=
  {| config := Sample.config "https://example.com/org/repo"
                 (sha1 Sample.commit1) false;
     buildConfig := {| Command := ["make"; "release"];
                       ArtifactPath := "dist/*.tar.gz" |};
     RepoInfo := {| RepoRoot := "" |} |}.

Definition header : StatementHeader :=
  {| Type_ := "https://in-toto.io/Statement/v1";
     PredicateType := "https://slsa.dev/provenance/v1";
     Subjects := [] |}.

(** The same machine, on which the files of the build are there to be read
    only once the build has run. *)
Definition produced (E : Env) : Env :=
  {| exec_Output := exec_Output E;
     exec_Run := exec_Run E;
     os_MkdirTemp := os_MkdirTemp E;
     os_MkdirAll := os_MkdirAll E;
     os_Chdir := os_Chdir E;
     os_Getwd := os_Getwd E;
     filepath_bad_pattern := filepath_bad_pattern E;
     filepath_matches := filepath_matches E;
     filepath_Abs := filepath_Abs E;
     filepath_Rel := filepath_Rel E;
     utils_SafeReadFile := fun w p =>
       if existsb Sample.is_docker_run w then utils_SafeReadFile E w p
       else Err (ErrExternal "no such file or directory");
     utils_CreateNewFileUnderDirectory := utils_CreateNewFileUnderDirectory E;
     file_Write := file_Write E;
     config_LoadBuildConfigFromFile := config_LoadBuildConfigFromFile E;
     strings_TrimSpace := strings_TrimSpace E;
     strings_EqualFold := strings_EqualFold E;
     url_Parse := url_Parse E;
     sha256_Sum256 := sha256_Sum256 E |}.

(** The pipe of a command that writes [stream] and ends. *)
Definition pipe (stream : string) (chunks : list nat) : io.Reader :=
  {| io.stream := stream; io.chunks := chunks; io.ending := io.EOF |}.

Fixpoint repeat_byte (c : ascii) (n : nat) : string :=
  match n with
  | O => EmptyString
  | S n' => String c (repeat_byte c n')
  end.

(** A line of 64 KiB. *)
Definition long_line : string := repeat_byte "a" bufio.MaxScanTokenSize.

Definition end_of_line : string := String bufio.newline EmptyString.

(** A temporary directory in which files can be created and written. *)
Definition tmp : TempFiles :=
  {| os_CreateTemp := fun _ _ => Ok "/tmp/log-1.txt";
     tmpfile_Write := fun _ _ => None |}.

End Scenario.

(** ** What the statements speak of *)

(** The [git clone] or [git checkout] commands in a history. *)
Definition is_git (subcommand : string) (c : Call) : bool :=
  match c with
  | CallRun _ ("git" :: subcommand' :: _) => String.eqb subcommand' subcommand
  | _ => false
  end.

Definition invocations (subcommand : string) (w : World) : nat :=
  length (List.filter (is_git subcommand) w).

(** The invocations of the container runtime in a history. *)
Definition is_container_run (c : Call) : bool :=
  match c with
  | CallRun _ ("docker" :: _) => true
  | _ => false
  end.

Definition container_invocations (w : World) : nat :=
  length (List.filter is_container_run w).

(** A computation that invokes no container. *)
Definition no_container {A} (m : IO A) : Prop :=
  ∀ w, container_invocations (m w).2 = container_invocations w.

(** Lower-case hexadecimal digits. *)
Definition is_lower_hex (c : ascii) : bool :=
  let n := N_of_ascii c in
  ((48 <=? n) && (n <=? 57) || (97 <=? n) && (n <=? 102))%N.

Fixpoint all_lower_hex (s : string) : bool :=
  match s with
  | EmptyString => true
  | String c s' => is_lower_hex c && all_lower_hex s'
  end.

(** The descriptor of the artifact at [path] with contents [data]. *)
Definition artifact (env : Env) (path data : string) : Subject :=
  {| SubjectName := path.Base path;
     SubjectDigest := {[ "sha256" := hex.EncodeToString (sha256_Sum256 env data) ]} |}.

(** The copy of the bytes [data], read from the file at [path], under the
    output folder.  From the history [w], the path is made absolute if
    there is a root and taken relative to the root, and a new file is
    created under the output folder and written, each with success at the
    time it is asked for; [w'] is the history after that.  Without an
    output folder nothing is asked for. *)
Definition copy_written (env : Env) (outputFolder root path data : string)
    (w w' : World) : Prop :=
  if String.eqb outputFolder "" then w' = w
  else
    ∃ absolute relPath w1,
      (if String.eqb root "" then absolute = path ∧ w1 = w
       else filepath_Abs env w path = Ok absolute ∧ w1 = CallAbs path :: w)
      ∧ filepath_Rel env root absolute = Ok relPath
      ∧ utils_CreateNewFileUnderDirectory env w1 relPath outputFolder = None
      ∧ file_Write env (CallCreateNewFileUnderDirectory relPath outputFolder :: w1)
          relPath outputFolder data = None
      ∧ w' = CallWrite relPath outputFolder data
             :: CallCreateNewFileUnderDirectory relPath outputFolder :: w1.

(** From the history [w], the files at [paths] are read one after the
    other, each read with success at the time it is asked for and copied
    before the next is read; [subjects] are the descriptors of the bytes so
    read, in order, and [w'] is the history after that. *)
Inductive inspected (env : Env) (outputFolder root : string)
  : World → list string → list Subject → World → Prop :=
| inspected_nil w : inspected env outputFolder root w [] [] w
| inspected_cons w path data w1 paths subjects w' :
    utils_SafeReadFile env w path = Ok data →
    copy_written env outputFolder root path data (CallSafeReadFile path :: w) w1 →
    inspected env outputFolder root w1 paths subjects w' →
    inspected env outputFolder root w (path :: paths)
      (artifact env path data :: subjects) w'.

(** What the parser does to the external parameters between the two
    decodings: from the generic value back to a document. *)
Definition remarshal (j : json) : json :=
  Json.marshal_any (Json.unmarshal_any j).

(** Every string of the build is valid UTF-8. *)
Definition utf8_valid (db : DockerBuild) : bool :=
  utf8.ValidString (SourceRepo (config db))
  && utf8.ValidString (Alg (SourceDigest (config db)))
  && utf8.ValidString (Value (SourceDigest (config db)))
  && utf8.ValidString (Name (BuilderImage (config db)))
  && utf8.ValidString (Alg (ImageDigest (BuilderImage (config db))))
  && utf8.ValidString (Value (ImageDigest (BuilderImage (config db))))
  && utf8.ValidString (BuildConfigPath (config db))
  && forallb utf8.ValidString (Command (buildConfig db))
  && utf8.ValidString (ArtifactPath (buildConfig db)).

(** The statement that carries a build definition. *)
Definition statement_of (header : StatementHeader) (d : ProvenanceBuildDefinition)
    (runDetails : any) : ProvenanceStatementSLSA1 :=
  {| Header := header;
     Predicate := {| BuildDefinition := d; RunDetails := runDetails |} |}.

(** *** Fetching *)

(** The command prints the commit that the client is to fetch. *)
Definition prints_commit (env : Env) (c : GitClient) (w : World)
    (argv : list string) : Prop :=
  ∃ out, exec_Output env w argv = Some out
         ∧ strings_TrimSpace env out = Value (sourceDigest c).




(** *** What is asked of the outside *)

(** A computation that adds calls to the history, all of them among [P]:
    it asks nothing else of the outside. *)
Definition only {A} (P : Call → bool) (m : IO A) : Prop :=
  ∀ w, ∃ calls, (m w).2 = calls ++ w ∧ forallb P calls = true.

(** What fetching may ask: the four git commands, and a directory to work
    in. *)
Definition git_or_directory (c : Call) : bool :=
  match c with
  | CallOutput ("git" :: "rev-parse" :: _)
  | CallOutput ("git" :: "show-ref" :: _)
  | CallRun _ ("git" :: "clone" :: _)
  | CallRun _ ("git" :: "checkout" :: _)
  | CallMkdirTemp _ _ | CallMkdirAll _ | CallChdir _ | CallGetwd => true
  | _ => false
  end.

(** ... and setting up the build: the configuration file and the glob. *)
Definition setup_call (c : Call) : bool :=
  match c with
  | CallLoadBuildConfigFromFile _ | CallGlob _ => true
  | _ => git_or_directory c
  end.

(** Looking for files and reading them. *)
Definition glob_or_read (c : Call) : bool :=
  match c with
  | CallGlob _ | CallSafeReadFile _ => true
  | _ => false
  end.

(** What inspecting the artifacts may ask. *)
Definition inspection_call (c : Call) : bool :=
  match c with
  | CallGlob _ | CallSafeReadFile _ | CallAbs _
  | CallCreateNewFileUnderDirectory _ _ | CallWrite _ _ _ => true
  | _ => false
  end.

(** *** Log files *)

(** The names of the log files that [saveToTempFile] returned for the git
    commands of a history, oldest first. *)
Fixpoint reported (env : Env) (w : World) : list string * list string :=
  match w with
  | [] => ([], [])
  | call :: w' =>
      let files := reported env w' in
      match call with
      | CallRun verbose ("git" :: argv) =>
          match exec_Run env w' verbose ("git" :: argv) with
          | WaitFailed _ logs errs | Completed logs errs =>
              (files.1 ++ [logs], files.2 ++ [errs])
          | _ => files
          end
      | _ => files
      end
  end.

(** The files of the client are the files reported: each git command that
    is run with its output captured adds its two files to both. *)
Definition records (env : Env) (c : GitClient) (w : World) : Prop :=
  (logFiles c, errFiles c) = reported env w.

(** *** Building *)

(** The command line of the build: [docker run], the working directory
    mounted at [/workspace], the builder image by its digest, and the words
    of the build command as they are. *)
Definition docker_run (db : DockerBuild) (cwd : string) : list string :=
  ["docker"; "run"; "--volume=" +:+ cwd +:+ ":/workspace";
   "--workdir=/workspace"; "--rm"; ToString (BuilderImage (config db))]
  ++ Command (buildConfig db).

(** A copy of the bytes that [subject] describes, as the file at [path],
    is among the files written to [outputFolder] by [calls]. *)
Definition copied (env : Env) (outputFolder : string) (calls : list Call)
    (path : string) (subject : Subject) : Prop :=
  ∃ relPath data,
    CallWrite relPath outputFolder data ∈ calls
    ∧ subject = artifact env path data.

(** The files written in a history. *)
Definition is_write (c : Call) : bool :=
  match c with
  | CallWrite _ _ _ => true
  | _ => false
  end.

Definition writes (calls : list Call) : nat :=
  length (List.filter is_write calls).

(** *** Capturing *)

(** The lines of a stream: the bytes before each newline, and what follows
    the last newline if anything does. *)
Fixpoint lines (s : string) : list string :=
  match s with
  | EmptyString => []
  | String c s' =>
      if Ascii.eqb c bufio.newline then EmptyString :: lines s'
      else match lines s' with
           | [] => [String c EmptyString]
           | line :: rest => String c line :: rest
           end
  end.

(** The bytes of a file that holds the given lines, each ended by a
    newline. *)
Fixpoint file_of (tokens : list string) : string :=
  match tokens with
  | [] => EmptyString
  | line :: tokens' =>
      line +:+ String bufio.newline EmptyString +:+ file_of tokens'
  end.

(** What remains to be scanned: the bytes read and not yet given out, and
    the bytes still in the stream. *)
Definition remaining (s : bufio.Scanner) : string :=
  bufio.pending s +:+ io.stream (bufio.reader s).

(** A scanner as [Scan] leaves it, over a reader that delivers at least
    one byte at each call until the stream ends. *)
Record scannable (s : bufio.Scanner) : Prop := {
  scannable_buffer :
    (bufio.start s + strings.len (bufio.pending s) ≤ bufio.buf_size s)%nat;
  scannable_size : (bufio.buf_size s ≤ bufio.MaxScanTokenSize)%nat;
  scannable_chunks : Forall (λ k, (0 < k)%nat) (io.chunks (bufio.reader s));
  scannable_err :
    bufio.has_err s = true →
    io.stream (bufio.reader s) = ""
    ∧ (strings.len (bufio.pending s) < bufio.MaxScanTokenSize)%nat;
}.

(** The lines before the first line that is too long for the buffer. *)
Fixpoint short_lines (ls : list string) : list string :=
  match ls with
  | [] => []
  | line :: lines' =>
      if (strings.len line <? bufio.MaxScanTokenSize)%nat
      then line :: short_lines lines'
      else []
  end.

(** The rounds of the loop of [Scan] that a scanner may still need. *)
Definition rounds (s : bufio.Scanner) : nat :=
  (strings.len (io.stream (bufio.reader s))
   + if bufio.has_err s then 1 else 2)%nat.

(** *** Reconstruction *)

(** The configuration of a build as a statement about that build gives it
    back: with the force-checkout that is asked for, and never verbose. *)
Definition reconstructed (config : DockerBuildConfig) (forceCheckout : bool)
  : DockerBuildConfig :=
  {| SourceRepo := SourceRepo config;
     SourceDigest := SourceDigest config;
     BuilderImage := BuilderImage config;
     BuildConfigPath := BuildConfigPath config;
     ForceCheckout := forceCheckout;
     Verbose := false |}.

(** The external parameters of a build as they are read back: every
    string coerced to valid UTF-8. *)
Definition coerced_ResourceDescriptor (uri alg value : string)
  : ResourceDescriptor :=
  {| URI := utf8.coerce uri;
     RDDigest := {[ utf8.coerce alg := utf8.coerce value ]} |}.

Definition coerced_ExternalParameters (db : DockerBuild)
  : ContainerBasedExternalParameters :=
  let source := SourceDigest (config db) in
  let image := BuilderImage (config db) in
  {| EPSource :=
       coerced_ResourceDescriptor (SourceRepo (config db))
         (Alg source) (Value source);
     EPBuilderImage :=
       coerced_ResourceDescriptor (ToString image)
         (Alg (ImageDigest image)) (Value (ImageDigest image));
     ConfigPath := utf8.coerce (BuildConfigPath (config db));
     Config := {| Command := map utf8.coerce (Command (buildConfig db));
                  ArtifactPath := utf8.coerce (ArtifactPath (buildConfig db)) |} |}.

(** * Properties *)

(** ** The model on examples *)

Example Split_examples :
  strings.Split "a@b@c" "@" = ["a"; "b"; "c"]
  ∧ strings.Split "" "@" = [""]
  ∧ strings.Split "a@" "@" = ["a"; ""]
  ∧ strings.Split "https://example.com/repo" "@" = ["https://example.com/repo"].
Proof. repeat split; reflexivity. Qed.

Example Replace1_examples :
  strings.Replace1 "git+https://example.com/git+https" "git+https" "https"
  = "https://example.com/git+https"
  ∧ strings.Replace1 "GIT+HTTPS://example.com/repo" "git+https" "https"
    = "GIT+HTTPS://example.com/repo".
Proof. split; reflexivity. Qed.

Example TrimSuffix_examples :
  strings.TrimSuffix "https://example.com/repo@v1.0" "@v1.0"
  = "https://example.com/repo"
  ∧ strings.TrimSuffix "https://example.com/repo" "@v1.0"
    = "https://example.com/repo".
Proof. split; reflexivity. Qed.

Example Base_examples :
  path.Base "https://example.com/org/repo" = "repo"
  ∧ path.Base "dist/app.tar.gz" = "app.tar.gz"
  ∧ path.Base "a/b//" = "b"
  ∧ path.Base "///" = "/"
  ∧ path.Base "" = ".".
Proof. repeat split; reflexivity. Qed.

Example EncodeToString_example :
  hex.EncodeToString (String (ascii_of_N 0xDE) (String (ascii_of_N 0x0A) "z"))
  = "de0a7a".
Proof. reflexivity. Qed.

Example coerce_examples :
  utf8.coerce "dist/été.tar.gz" = "dist/été.tar.gz"
  ∧ utf8.coerce (String (ascii_of_N 0xFF) "a") = utf8.replacement +:+ "a"
  ∧ utf8.coerce (String (ascii_of_N 0xE2) (String (ascii_of_N 0x82) "a"))
    = utf8.replacement +:+ utf8.replacement +:+ "a".
Proof. repeat split; reflexivity. Qed.

(** The example of the spec: the source [https://example.com/repo@v1.0] at a
    sha1 commit, in a directory that is no checkout; the repository is
    cloned, the commit checked out, [make release] run in the builder
    image, and [dist/app.tar.gz] found. *)
Example end_to_end_example :
  let commit := "deadbeefdeadbeefdeadbeefdeadbeefdeadbeef" in
  let fresh :=
    {| Sample.head := None; Sample.refs := [("v1.0", commit)];
       Sample.before := []; Sample.after := ["dist/app.tar.gz"];
       Sample.readable := true; Sample.writable := true |} in
  let E := Sample.env fresh in
  let config := Sample.config "https://example.com/repo@v1.0"
                  {| Alg := "sha1"; Value := commit |} false in
  ∃ b b' db w subjects w',
    NewBuilderWithGitFetcher E config = Ok b
    ∧ SetUpBuildState E (H := GitClient_Fetcher E) b [] = ((b', Ok db), w)
    ∧ RepoInfo db = {| RepoRoot := "/tmp/release-1/repo" |}
    ∧ BuildArtifacts E db "" w = (Ok subjects, w')
    ∧ map SubjectName subjects = ["app.tar.gz"]
    ∧ rev w'
      = [CallOutput rev_parse_HEAD;
         CallMkdirTemp "" "release-*";
         CallMkdirAll "/tmp/release-1";
         CallChdir "/tmp/release-1";
         CallRun false ["git"; "clone"; "https://example.com/repo"];
         CallChdir "repo";
         CallGetwd;
         CallRun false ["git"; "checkout"; commit];
         CallOutput rev_parse_HEAD;
         CallOutput (show_ref "v1.0");
         CallLoadBuildConfigFromFile "build.toml";
         CallGlob "dist/*.tar.gz";
         CallGetwd;
         CallRun false ["docker"; "run"; "--volume=/tmp/release-1/repo:/workspace";
                        "--workdir=/workspace"; "--rm";
                        "example.com/img@sha256:abcd"; "make"; "release"];
         CallGlob "dist/*.tar.gz";
         CallSafeReadFile "dist/app.tar.gz"].
Proof.
  intros commit fresh E config.
  eexists _, _, _, _, _, _.
  split; [vm_compute; reflexivity|].
  split; [vm_compute; reflexivity|].
  split; [reflexivity|].
  split; [vm_compute; reflexivity|].
  split; reflexivity.
Qed.

(** ** The git client *)

Arguments rev_parse_HEAD : simpl never.
Arguments show_ref : simpl never.

Ltac run_io :=
  unfold GitClient_Fetch, verifyOrFetchRepo, Output, Run, ask, bind, ret; simpl.

Section FetchProperties.

Variable env : Env.

Lemma newGitClient_fields config depth c :
  newGitClient env config depth = Ok c →
  sourceDigest c = SourceDigest config
  ∧ forceCheckout c = ForceCheckout config
  ∧ checkoutInfo c = {| RepoRoot := "" |}.
Proof.
  unfold newGitClient. intros H.
  repeat match type of H with
         | match ?x with _ => _ end = _ => destruct x eqn:?; try discriminate
         | (if ?x then _ else _) = _ => destruct x eqn:?; try discriminate
         | (let (_, _) := ?x in _) = _ => destruct x eqn:?
         end;
    injection H as <-; auto.
Qed.

(** The only error of [verifyRefAndCommit] is a commit mismatch, and it
    comes with [false]. *)
Lemma verifyCommands_error c checkCmds w ok err w' :
  verifyCommands env c checkCmds w = ((ok, Some err), w') →
  ok = false ∧ ∃ lastCommitID,
    err = ErrGitCommitMismatch lastCommitID
    ∧ lastCommitID ≠ Value (sourceDigest c).
Proof.
  revert w. induction checkCmds as [|cmd checkCmds IH]; intros w; simpl.
  - unfold ret. intros ?; simplify_eq.
  - run_io. destruct (exec_Output env w cmd) as [out|]; [|intros ?; simplify_eq].
    destruct (String.eqb _ _) eqn:Heq.
    + apply IH.
    + intros [= <- <- <-]. split; [done|]. eexists. split; [done|].
      by apply String.eqb_neq.
Qed.

Lemma verifyRefAndCommit_error c w ok err w' :
  verifyRefAndCommit env c w = ((ok, Some err), w') →
  ok = false ∧ ∃ lastCommitID,
    err = ErrGitCommitMismatch lastCommitID
    ∧ lastCommitID ≠ Value (sourceDigest c).
Proof. apply verifyCommands_error. Qed.

(** [verifyRefAndCommit], with the state passing written out. *)
Lemma verifyRefAndCommit_unfold c w :
  verifyRefAndCommit env c w =
  let w1 := CallOutput rev_parse_HEAD :: w in
  match exec_Output env w rev_parse_HEAD with
  | None => ((false, None), w1)
  | Some head =>
      let lastCommitID := strings_TrimSpace env head in
      if negb (String.eqb lastCommitID (Value (sourceDigest c)))
      then ((false, Some (ErrGitCommitMismatch lastCommitID)), w1)
      else
        match sourceRef c with
        | None => ((true, None), w1)
        | Some ref =>
            let w2 := CallOutput (show_ref ref) :: w1 in
            match exec_Output env w1 (show_ref ref) with
            | None => ((false, None), w2)
            | Some out =>
                let lastCommitID := strings_TrimSpace env out in
                if negb (String.eqb lastCommitID (Value (sourceDigest c)))
                then ((false, Some (ErrGitCommitMismatch lastCommitID)), w2)
                else ((true, None), w2)
            end
        end
  end.
Proof.
  unfold verifyRefAndCommit. simpl. unfold Output, ask, bind, ret.
  destruct (exec_Output env w rev_parse_HEAD) as [head|]; [|done]. simpl.
  destruct (String.eqb _ _); [|done]. simpl.
  destruct (sourceRef c) as [ref|]; [|done]. simpl.
  unfold Output, ask, bind, ret.
  destruct (exec_Output env _ (show_ref ref)) as [out|]; [|done]. simpl.
  by destruct (String.eqb _ _).
Qed.

(** [Fetch], with the state passing written out. *)
Lemma Fetch_unfold c w :
  GitClient_Fetch env c w =
  if negb (String.eqb (Alg (sourceDigest c)) "sha1")
  then ((c, Err ErrNotSha1), w)
  else
    match verifyRefAndCommit env c w with
    | ((repoIsCheckedOut, err), w1) =>
        match err, forceCheckout c with
        | Some err, false => ((c, Err err), w1)
        | _, _ =>
            if negb repoIsCheckedOut || forceCheckout c
            then
              match fetchSourcesFromGitRepo env c w1 with
              | ((c', Some err), w2) =>
                  ((c', Err (ErrFetchSources (sourceRepo c')
                               (Alg (sourceDigest c')) (Value (sourceDigest c'))
                               err)), w2)
              | ((c', None), w2) => ((c', Ok (checkoutInfo c')), w2)
              end
            else ((c, Ok (checkoutInfo c)), w1)
        end
    end.
Proof.
  run_io. destruct (negb _); [done|].
  destruct (verifyRefAndCommit env c w) as [[ok [err|]] w1];
    destruct (forceCheckout c); simpl; try done;
    destruct (negb ok || _); simpl; try done;
    destruct (fetchSourcesFromGitRepo env c w1) as [[c' [err'|]] w2]; done.
Qed.

(** What [Fetch] returns for a sha1 digest is never the error of its
    first step. *)
Lemma Fetch_sha1_not_rejected c w :
  Alg (sourceDigest c) = "sha1" →
  (GitClient_Fetch env c w).1.2 ≠ Err ErrNotSha1.
Proof.
  intros Halg. rewrite Fetch_unfold, Halg. simpl.
  destruct (verifyRefAndCommit env c w) as [[ok [err|]] w1] eqn:Hverify;
    destruct (forceCheckout c); simpl;
    try (destruct (negb ok || _));
    try (destruct (fetchSourcesFromGitRepo env c w1) as [[c' [err'|]] w2]);
    simpl; try discriminate.
  all: apply verifyRefAndCommit_error in Hverify as (_ & id & -> & _).
  all: discriminate.
Qed.

End FetchProperties.

(** C5.  [Fetch] stops at its first step, with the error that the digest
    must be a sha1 digest and without having asked anything of git or of the
    file system, exactly when the algorithm of the source digest is not
    [sha1]. *)
Theorem Fetch_requires_sha1 (env : Env) (c : GitClient) (w : World) :
  Alg (sourceDigest c) ≠ "sha1"
  ↔ GitClient_Fetch env c w = ((c, Err ErrNotSha1), w).
Proof.
  split.
  - intros Halg. run_io. apply String.eqb_neq in Halg. by rewrite Halg.
  - intros Hfetch Halg.
    apply (Fetch_sha1_not_rejected env c w Halg). by rewrite Hfetch.
Qed.

Lemma Fetch_requires_sha1_witness :
  let E := Sample.env Sample.at_commit1 in
  let c := {| sourceRepo := "https://example.com/org/repo"; sourceRef := None;
              sourceDigest := {| Alg := "sha256"; Value := Sample.commit1 |};
              checkoutInfo := {| RepoRoot := "" |};
              logFiles := []; errFiles := [];
              forceCheckout := false; verbose := false; depth := 0 |} in
  Alg (sourceDigest c) ≠ "sha1"
  ∧ GitClient_Fetch E c [] = ((c, Err ErrNotSha1), []).
Proof.
  intros E c.
  assert (Halg : Alg (sourceDigest c) ≠ "sha1") by (simpl; discriminate).
  split; [exact Halg|].
  exact (proj1 (Fetch_requires_sha1 E c []) Halg).
Defined.

(** C2, as stated, fails: with force-checkout set, a directory that is
    already at the requested commit is cloned and checked out again. *)
Lemma Fetch_force_checkout_clones :
  let E := Sample.env Sample.at_commit1 in
  let digest := {| Alg := "sha1"; Value := Sample.commit1 |} in
  ∃ c, newGitClient E (Sample.config "https://example.com/org/repo" digest true) 0
       = Ok c
    ∧ sourceRef c = None
    ∧ (∃ out, exec_Output E [] rev_parse_HEAD = Some out
              ∧ strings_TrimSpace E out = Sample.commit1)
    ∧ invocations "clone" (GitClient_Fetch E c []).2 = 1%nat
    ∧ invocations "checkout" (GitClient_Fetch E c []).2 = 1%nat
    ∧ (GitClient_Fetch E c []).1.2 = Ok {| RepoRoot := "/tmp/release-1/repo" |}.
Proof.
  eexists. split; [vm_compute; reflexivity|].
  split; [reflexivity|].
  split; [eexists; split; vm_compute; reflexivity|].
  repeat split; vm_compute; reflexivity.
Qed.

(** C2, amended.  A client made by [newGitClient] for a sha1 digest [H],
    without a source ref and without force-checkout, in a directory whose
    HEAD resolves to [H]: [Fetch] succeeds after the one [git rev-parse], so
    with no clone and no checkout, and returns the checkout info that the
    client was created with, whose [RepoRoot] is empty. *)
Theorem Fetch_already_checked_out (env : Env) (config : DockerBuildConfig)
    (depth : Z) (c : GitClient) (w : World) (out : string) :
  newGitClient env config depth = Ok c →
  Alg (SourceDigest config) = "sha1" →
  sourceRef c = None →
  ForceCheckout config = false →
  exec_Output env w rev_parse_HEAD = Some out →
  strings_TrimSpace env out = Value (SourceDigest config) →
  GitClient_Fetch env c w
    = ((c, Ok {| RepoRoot := "" |}), CallOutput rev_parse_HEAD :: w)
  ∧ invocations "clone" (GitClient_Fetch env c w).2 = invocations "clone" w
  ∧ invocations "checkout" (GitClient_Fetch env c w).2 = invocations "checkout" w.
Proof.
  intros Hnew Halg Href Hforce Hout Htrim.
  apply newGitClient_fields in Hnew as (Hdigest & Hforce' & Hinfo).
  assert (Hfetch : GitClient_Fetch env c w
                   = ((c, Ok {| RepoRoot := "" |}), CallOutput rev_parse_HEAD :: w)).
  { rewrite Fetch_unfold, verifyRefAndCommit_unfold, Hdigest, Halg. simpl.
    rewrite Hout, Href. simpl.
    rewrite Htrim, String.eqb_refl, Hforce', Hforce, Hinfo. reflexivity. }
  rewrite Hfetch. auto.
Qed.

Lemma Fetch_already_checked_out_witness :
  let E := Sample.env Sample.at_commit1 in
  let digest := {| Alg := "sha1"; Value := Sample.commit1 |} in
  let config := Sample.config "https://example.com/org/repo" digest false in
  let c := {| sourceRepo := "https://example.com/org/repo"; sourceRef := None;
              sourceDigest := digest; checkoutInfo := {| RepoRoot := "" |};
              logFiles := []; errFiles := [];
              forceCheckout := false; verbose := false; depth := 0 |} in
  newGitClient E config 0 = Ok c
  ∧ GitClient_Fetch E c []
    = ((c, Ok {| RepoRoot := "" |}), [CallOutput rev_parse_HEAD]).
Proof.
  intros E digest config c.
  assert (Hnew : newGitClient E config 0 = Ok c) by reflexivity.
  split; [exact Hnew|].
  exact (proj1 (Fetch_already_checked_out E config 0 c []
                  (Sample.commit1 +:+ Sample.newline)
                  Hnew eq_refl eq_refl eq_refl eq_refl eq_refl)).
Defined.

(** C4, as stated, fails: when the digest is not a sha1 digest, [Fetch]
    fails with the error of its first step whatever commit the directory
    is at. *)
Lemma Fetch_mismatch_after_algorithm_check :
  let E := Sample.env Sample.at_commit1 in
  let digest := {| Alg := "sha256"; Value := Sample.commit2 |} in
  ∃ c, newGitClient E (Sample.config "https://example.com/org/repo" digest false) 0
       = Ok c
    ∧ forceCheckout c = false
    ∧ (∃ out, exec_Output E [] rev_parse_HEAD = Some out
              ∧ strings_TrimSpace E out ≠ Value (sourceDigest c))
    ∧ (GitClient_Fetch E c []).1.2 = Err ErrNotSha1
    ∧ is_commit_mismatch ErrNotSha1 = false.
Proof.
  eexists. split; [vm_compute; reflexivity|].
  split; [reflexivity|].
  split; [eexists; split; [vm_compute; reflexivity|vm_compute; discriminate]|].
  split; reflexivity.
Qed.

(** C4, amended.  For a sha1 digest, with force-checkout unset, in a
    directory whose HEAD resolves: if HEAD resolves to another commit than
    the requested one or, a source ref being specified, that ref resolves to
    another commit, then [Fetch] fails with a commit mismatch, having run
    only the [git rev-parse] and at most the [git show-ref]: nothing is
    fetched. *)
Theorem Fetch_commit_mismatch (env : Env) (c : GitClient) (w : World)
    (head : string) :
  Alg (sourceDigest c) = "sha1" →
  forceCheckout c = false →
  exec_Output env w rev_parse_HEAD = Some head →
  (strings_TrimSpace env head ≠ Value (sourceDigest c)
   ∨ ∃ ref out,
       sourceRef c = Some ref
       ∧ exec_Output env (CallOutput rev_parse_HEAD :: w) (show_ref ref) = Some out
       ∧ strings_TrimSpace env out ≠ Value (sourceDigest c)) →
  ∃ lastCommitID w',
    GitClient_Fetch env c w = ((c, Err (ErrGitCommitMismatch lastCommitID)), w')
    ∧ is_commit_mismatch (ErrGitCommitMismatch lastCommitID) = true
    ∧ lastCommitID ≠ Value (sourceDigest c)
    ∧ (w' = CallOutput rev_parse_HEAD :: w
       ∨ ∃ ref, sourceRef c = Some ref
                ∧ w' = CallOutput (show_ref ref) :: CallOutput rev_parse_HEAD :: w).
Proof.
  intros Halg Hforce Hhead Hdiffer.
  rewrite Fetch_unfold, verifyRefAndCommit_unfold, Halg, Hhead. simpl.
  destruct (String.eqb (strings_TrimSpace env head) _) eqn:Heq; simpl.
  - destruct Hdiffer as [Hdiffer|(ref & out & Href & Hout & Hdiffer)].
    { by apply String.eqb_neq in Hdiffer; rewrite Hdiffer in Heq. }
    rewrite Href, Hout.
    apply String.eqb_neq in Hdiffer as Hneq. rewrite Hneq, Hforce. simpl.
    eexists _, _. repeat split; [done|]. right. by exists ref.
  - rewrite Hforce. apply String.eqb_neq in Heq.
    eexists _, _. repeat split; [done|]. by left.
Qed.

Lemma Fetch_commit_mismatch_witness :
  let E := Sample.env Sample.at_commit1 in
  let c := {| sourceRepo := "https://example.com/org/repo"; sourceRef := None;
              sourceDigest := {| Alg := "sha1"; Value := Sample.commit2 |};
              checkoutInfo := {| RepoRoot := "" |};
              logFiles := []; errFiles := [];
              forceCheckout := false; verbose := false; depth := 0 |} in
  ∃ lastCommitID w',
    GitClient_Fetch E c [] = ((c, Err (ErrGitCommitMismatch lastCommitID)), w').
Proof.
  intros E c.
  destruct (Fetch_commit_mismatch E c [] (Sample.commit1 +:+ Sample.newline))
    as (id & w' & Hfetch & _).
  - reflexivity.
  - reflexivity.
  - reflexivity.
  - left. vm_compute. discriminate.
  - by exists id, w'.
Defined.

(** ** Construction of the git client *)

Section Strings.

Import strings.

Lemma app_cons c s t : String c s +:+ t = String c (s +:+ t).
Proof. reflexivity. Qed.

Lemma HasPrefix_app s t : HasPrefix (s +:+ t) s = true.
Proof.
  induction s as [|c s IH]; [done|].
  rewrite app_cons. simpl. by rewrite Ascii.eqb_refl, IH.
Qed.

Lemma drop_app s t : drop (len s) (s +:+ t) = t.
Proof. induction s as [|c s IH]; [done|]. by rewrite app_cons. Qed.

Lemma take_app s t : take (len s) (s +:+ t) = s.
Proof.
  induction s as [|c s IH]; [by destruct t|].
  rewrite app_cons. simpl. by rewrite IH.
Qed.

Lemma len_app s t : len (s +:+ t) = (len s + len t)%nat.
Proof.
  induction s as [|c s IH]; [done|]. rewrite app_cons. simpl. by rewrite IH.
Qed.

(** The first occurrence of [old] in [old ++ rest] is the leading one. *)
Lemma Replace1_prefix old new rest :
  Replace1 (old +:+ rest) old new = new +:+ rest.
Proof.
  destruct old as [|c old]; [by destruct rest|].
  rewrite app_cons. unfold Replace1; fold Replace1. rewrite <- app_cons.
  by rewrite HasPrefix_app, drop_app.
Qed.

Lemma TrimSuffix_app s suffix : TrimSuffix (s +:+ suffix) suffix = s.
Proof.
  unfold TrimSuffix, HasSuffix. rewrite len_app.
  replace (len s + len suffix - len suffix)%nat with (len s) by lia.
  rewrite drop_app, take_app, String.eqb_refl, andb_true_r.
  by rewrite (proj2 (Nat.leb_le _ _)) by lia.
Qed.

Lemma contains_byte_app c s t :
  contains_byte c (s +:+ t) = contains_byte c s || contains_byte c t.
Proof.
  induction s as [|c' s IH]; [done|].
  rewrite app_cons. simpl. by rewrite IH, orb_assoc.
Qed.

Lemma Split_without sep s : contains_byte sep s = false → Split s sep = [s].
Proof.
  induction s as [|c s IH]; [done|]. simpl.
  intros [Hc Hs]%orb_false_iff. by rewrite Hc, (IH Hs).
Qed.

(** A string with one separator splits into what is before it and what
    is after it. *)
Lemma Split_once sep s t :
  contains_byte sep s = false → contains_byte sep t = false →
  Split (s +:+ String sep t) sep = [s; t].
Proof.
  intros Hs Ht. induction s as [|c s IH].
  - unfold String.app; simpl. by rewrite Ascii.eqb_refl, (Split_without _ _ Ht).
  - rewrite app_cons. simpl in *. apply orb_false_iff in Hs as [Hc Hs].
    by rewrite Hc, (IH Hs).
Qed.

Lemma Split_nonempty sep s : Split s sep ≠ [].
Proof.
  destruct s as [|c s]; [done|]. simpl.
  destruct (Ascii.eqb c sep); [done|]. by destruct (Split s sep).
Qed.

(** A string with two separators or more splits into three pieces or
    more. *)
Lemma Split_twice sep s t :
  contains_byte sep t = true →
  ∃ p q r pieces, Split (s +:+ String sep t) sep = p :: q :: r :: pieces.
Proof.
  intros Ht.
  assert (Hsplit : ∃ q r pieces, Split t sep = q :: r :: pieces).
  { clear s. induction t as [|c t IH]; [done|]. simpl in *.
    destruct (Ascii.eqb c sep).
    - pose proof (Split_nonempty sep t). destruct (Split t sep); [done|eauto].
    - destruct (IH Ht) as (q & r & pieces & ->). eauto. }
  destruct Hsplit as (q & r & pieces & Hsplit).
  induction s as [|c s (p & q' & r' & pieces' & IH)].
  - unfold String.app; simpl. rewrite Ascii.eqb_refl, Hsplit. eauto.
  - rewrite app_cons. simpl. rewrite IH.
    destruct (Ascii.eqb c sep); eauto.
Qed.

End Strings.

(** C3, as stated, fails: a reference after [@] is cut off the URI, and a
    URI with a second [@] (one with user information, say) is refused. *)
Lemma newGitClient_cuts_ref :
  let E := Sample.env Sample.at_commit1 in
  let digest := {| Alg := "sha1"; Value := Sample.commit1 |} in
  (∃ parsed c,
     url_Parse E "git+https://example.com/repo@v1.0" = Ok parsed
     ∧ Scheme parsed = "git+https"
     ∧ newGitClient E (Sample.config "git+https://example.com/repo@v1.0" digest false) 0
       = Ok c
     ∧ sourceRepo c = "https://example.com/repo"
     ∧ sourceRepo c ≠ "https" +:+ "://example.com/repo@v1.0")
  ∧ (∃ parsed,
       url_Parse E "git+https://user@example.com/repo@v1.0" = Ok parsed
       ∧ Scheme parsed = "git+https"
       ∧ newGitClient E
           (Sample.config "git+https://user@example.com/repo@v1.0" digest false) 0
         = Err (ErrInvalidSourceFormat "https://user@example.com/repo@v1.0")).
Proof.
  split.
  - eexists _, _. split; [vm_compute; reflexivity|].
    split; [reflexivity|]. split; [vm_compute; reflexivity|].
    split; [reflexivity|]. vm_compute. discriminate.
  - eexists. split; [vm_compute; reflexivity|].
    split; [reflexivity|]. vm_compute. reflexivity.
Qed.

(** C3, amended.  Let [url.Parse] accept the source repository.

    If the text begins with [git+https] or [https+git] and that is its
    scheme, then: when no [@] follows, the client is constructed for [https]
    followed by the rest of the text, byte for byte, without a source ref;
    when one [@] follows, the client is constructed for [https] followed by
    what is before the [@], with what is after it as the source ref; when
    more follow, construction fails.

    If the scheme is none of [https], [git+https] and [https+git],
    construction fails with the unsupported-scheme error. *)
Theorem newGitClient_scheme (env : Env) (config : DockerBuildConfig) (depth : Z)
    (parsed : URL) :
  url_Parse env (SourceRepo config) = Ok parsed →
  (∀ scheme rest,
     scheme = "git+https" ∨ scheme = "https+git" →
     Scheme parsed = scheme →
     SourceRepo config = scheme +:+ rest →
     (strings.contains_byte "@"%char rest = false →
      ∃ c, newGitClient env config depth = Ok c
           ∧ sourceRepo c = "https" +:+ rest
           ∧ sourceRef c = None)
     ∧ (∀ repo ref,
          rest = repo +:+ String "@"%char ref →
          strings.contains_byte "@"%char repo = false →
          (strings.contains_byte "@"%char ref = false →
           ∃ c, newGitClient env config depth = Ok c
                ∧ sourceRepo c = "https" +:+ repo
                ∧ sourceRef c = Some ref)
          ∧ (strings.contains_byte "@"%char ref = true →
             newGitClient env config depth
             = Err (ErrInvalidSourceFormat ("https" +:+ rest)))))
  ∧ (Scheme parsed ≠ "https" →
     Scheme parsed ≠ "git+https" →
     Scheme parsed ≠ "https+git" →
     newGitClient env config depth = Err (ErrUnsupportedScheme (Scheme parsed))).
Proof.
  intros Hparse. split.
  - intros scheme rest Hscheme Hparsed Hrepo.
    assert (Hafter :
      (if String.eqb (Scheme parsed) "https" then Ok (SourceRepo config)
       else if String.eqb (Scheme parsed) "git+https"
       then Ok (strings.Replace1 (SourceRepo config) "git+https" "https")
       else if String.eqb (Scheme parsed) "https+git"
       then Ok (strings.Replace1 (SourceRepo config) "https+git" "https")
       else Err (ErrUnsupportedScheme (Scheme parsed)))
      = Ok ("https" +:+ rest)).
    { rewrite Hparsed, Hrepo.
      destruct Hscheme as [-> | ->]; cbn [String.eqb Ascii.eqb Bool.eqb];
        by rewrite Replace1_prefix. }
    unfold newGitClient. rewrite Hparse. simpl. rewrite Hafter. clear Hafter.
    split.
    + intros Hrest.
      rewrite (Split_without "@"%char ("https" +:+ rest))
        by (by rewrite contains_byte_app, Hrest).
      eauto.
    + intros repo ref -> Hno. split.
      * intros Href.
        assert (Hsplit : strings.Split ("https" +:+ repo +:+ String "@"%char ref) "@"%char
                         = ["https" +:+ repo; ref]).
        { apply (Split_once "@" ("https" +:+ repo) ref);
            by rewrite ?contains_byte_app, ?Hno. }
        rewrite Hsplit.
        assert (Htrim : strings.TrimSuffix ("https" +:+ repo +:+ String "@"%char ref)
                          ("@" +:+ ref) = "https" +:+ repo).
        { apply (TrimSuffix_app ("https" +:+ repo) ("@" +:+ ref)). }
        rewrite Htrim. eauto.
      * intros Href.
        destruct (Split_twice "@"%char ("https" +:+ repo) ref Href)
          as (p & q & r & pieces & Hsplit).
        change ("https" +:+ repo +:+ String "@"%char ref)
          with (("https" +:+ repo) +:+ String "@"%char ref).
        by rewrite Hsplit.
  - intros H1 H2 H3. unfold newGitClient. rewrite Hparse.
    apply String.eqb_neq in H1, H2, H3. by rewrite H1, H2, H3.
Qed.

Lemma newGitClient_scheme_witness :
  let E := Sample.env Sample.at_commit1 in
  let digest := {| Alg := "sha1"; Value := Sample.commit1 |} in
  (∃ c, newGitClient E (Sample.config "git+https://example.com/repo" digest false) 0
        = Ok c
        ∧ sourceRepo c = "https://example.com/repo" ∧ sourceRef c = None)
  ∧ newGitClient E (Sample.config "ssh://example.com/repo" digest false) 0
    = Err (ErrUnsupportedScheme "ssh").
Proof.
  intros E digest. split.
  - assert (Hparse : url_Parse E "git+https://example.com/repo"
                     = Ok {| Scheme := "git+https" |}) by reflexivity.
    exact (proj1 (proj1 (newGitClient_scheme E
                           (Sample.config "git+https://example.com/repo" digest false)
                           0 _ Hparse)
                    "git+https" "://example.com/repo"
                    (or_introl eq_refl) eq_refl eq_refl) eq_refl).
  - assert (Hparse : url_Parse E "ssh://example.com/repo"
                     = Ok {| Scheme := "ssh" |}) by reflexivity.
    apply (proj2 (newGitClient_scheme E
                    (Sample.config "ssh://example.com/repo" digest false)
                    0 _ Hparse)); simpl; discriminate.
Defined.

(** ** The builder *)

Lemma no_container_ret {A} (a : A) : no_container (ret a).
Proof. by intros w. Qed.

Lemma no_container_bind {A B} (m : IO A) (k : A → IO B) :
  no_container m → (∀ a, no_container (k a)) → no_container (bind m k).
Proof.
  intros Hm Hk w. unfold bind. destruct (m w) as [a w1] eqn:Hmw.
  rewrite Hk. specialize (Hm w). by rewrite Hmw in Hm.
Qed.

Lemma no_container_ask {A} (c : Call) (answer : World → A) :
  is_container_run c = false → no_container (ask c answer).
Proof.
  intros Hc w. unfold ask, container_invocations. simpl. by rewrite Hc.
Qed.

Create HintDb no_container.

Ltac no_container :=
  repeat first
    [ solve [auto with no_container nocore]
    | apply no_container_ret
    | apply no_container_ask; reflexivity
    | apply no_container_bind; [|intros]
    | match goal with
      | |- no_container (match ?x with _ => _ end) => destruct x
      | |- no_container (if ?x then _ else _) => destruct x
      | |- no_container (let (_, _) := ?x in _) => destruct x
      end ].

Section BuilderProperties.

Variable env : Env.

Lemma verifyRefAndCommit_no_container c :
  no_container (verifyRefAndCommit env c).
Proof.
  unfold verifyRefAndCommit. generalize (rev_parse_HEAD ::
    match sourceRef c with Some r => [show_ref r] | None => [] end).
  intros checkCmds. induction checkCmds as [|cmd checkCmds IH]; simpl.
  - no_container.
  - unfold Output. no_container.
Qed.

Lemma runCaptured_git_no_container c sub args :
  no_container (runCaptured env c ("git" :: sub :: args)).
Proof. unfold runCaptured, Run. no_container. Qed.

Lemma cloneGitRepo_no_container c : no_container (cloneGitRepo env c).
Proof.
  unfold cloneGitRepo. destruct (0 <? depth c);
    apply runCaptured_git_no_container.
Qed.

Hint Resolve verifyRefAndCommit_no_container runCaptured_git_no_container
  cloneGitRepo_no_container : no_container.

Lemma fetchSourcesFromGitRepo_no_container c :
  no_container (fetchSourcesFromGitRepo env c).
Proof. unfold fetchSourcesFromGitRepo, checkoutGitCommit. no_container. Qed.

Hint Resolve fetchSourcesFromGitRepo_no_container : no_container.

Lemma Fetch_no_container c : no_container (GitClient_Fetch env c).
Proof. unfold GitClient_Fetch, verifyOrFetchRepo. no_container. Qed.

(** [SetUpBuildState] with a git fetcher, with the state passing written
    out. *)
Lemma SetUpBuildState_unfold (b : Builder GitClient) w :
  SetUpBuildState env (H := GitClient_Fetcher env) b w =
  match GitClient_Fetch env (repoFetcher b) w with
  | ((fetcher, repoInfo), w1) =>
      let b' := {| repoFetcher := fetcher; builder_config := builder_config b |} in
      match repoInfo with
      | Err err => ((b', Err (ErrVerifyOrFetch err)), w1)
      | Ok repoInfo =>
          let path := BuildConfigPath (builder_config b) in
          let w2 := CallLoadBuildConfigFromFile path :: w1 in
          match config_LoadBuildConfigFromFile env w1 path with
          | Err err => ((b', Err (ErrLoadConfig path err)), w2)
          | Ok bc =>
              match CheckExistingFiles env (ArtifactPath bc) w2 with
              | (Some err, w3) => ((b', Err err), w3)
              | (None, w3) =>
                  ((b', Ok {| config := builder_config b;
                              buildConfig := bc;
                              RepoInfo := repoInfo |}), w3)
              end
          end
      end
  end.
Proof.
  unfold SetUpBuildState, Fetch, GitClient_Fetcher, bind, ask, ret.
  destruct (GitClient_Fetch env (repoFetcher b) w) as [[fetcher [repoInfo|err]] w1];
    simpl; [|done].
  destruct (config_LoadBuildConfigFromFile env w1 _) as [bc|err]; [|done].
  unfold CheckExistingFiles, Glob, bind, ask, ret.
  destruct (filepath_bad_pattern env _); [done|].
  by destruct (length _ =? 0)%nat.
Qed.

Lemma CheckExistingFiles_unfold pattern w :
  CheckExistingFiles env pattern w =
  (match (Glob env pattern w).1 with
   | Err err => Some (ErrPatternMalformed pattern err)
   | Ok [] => None
   | Ok matches => Some (ErrExistingFiles pattern (length matches))
   end, CallGlob pattern :: w).
Proof.
  unfold CheckExistingFiles, Glob, bind, ask, ret. simpl.
  destruct (filepath_bad_pattern env pattern); [done|].
  by destruct (filepath_matches env w pattern).
Qed.

Lemma SetUpBuildState_no_container (b : Builder GitClient) :
  no_container (SetUpBuildState env (H := GitClient_Fetcher env) b).
Proof.
  unfold SetUpBuildState, CheckExistingFiles, Glob, Fetch, GitClient_Fetcher.
  pose proof Fetch_no_container. no_container.
Qed.

End BuilderProperties.

(** C6.  Let the repository be fetched and the configuration file be loaded.
    If the artifact pattern then matches one file or more, [SetUpBuildState]
    fails with the error that the pattern matches existing files, and no
    container was invoked; if it matches none, the check for existing files
    succeeds, and so does [SetUpBuildState]. *)
Theorem SetUpBuildState_preflight (env : Env) (b : Builder GitClient)
    (w w1 : World) (fetcher : GitClient) (repoInfo : RepoCheckoutInfo)
    (bc : BuildConfig) (matches : list string) :
  let path := BuildConfigPath (builder_config b) in
  let w2 := CallLoadBuildConfigFromFile path :: w1 in
  let w3 := CallGlob (ArtifactPath bc) :: w2 in
  let b' := {| repoFetcher := fetcher; builder_config := builder_config b |} in
  GitClient_Fetch env (repoFetcher b) w = ((fetcher, Ok repoInfo), w1) →
  config_LoadBuildConfigFromFile env w1 path = Ok bc →
  (Glob env (ArtifactPath bc) w2).1 = Ok matches →
  ((1 ≤ length matches)%nat →
   SetUpBuildState env (H := GitClient_Fetcher env) b w
   = ((b', Err (ErrExistingFiles (ArtifactPath bc) (length matches))), w3)
   ∧ container_invocations w3 = container_invocations w)
  ∧ (length matches = 0%nat →
     CheckExistingFiles env (ArtifactPath bc) w2 = (None, w3)
     ∧ SetUpBuildState env (H := GitClient_Fetcher env) b w
       = ((b', Ok {| config := builder_config b;
                     buildConfig := bc;
                     RepoInfo := repoInfo |}), w3)).
Proof.
  intros path w2 w3 b' Hfetch Hload Hglob.
  pose proof (SetUpBuildState_no_container env b w) as Hnone.
  assert (Hcheck : CheckExistingFiles env (ArtifactPath bc) w2
                   = (match matches with
                      | [] => None
                      | _ => Some (ErrExistingFiles (ArtifactPath bc) (length matches))
                      end, w3))
    by (by rewrite CheckExistingFiles_unfold, Hglob).
  rewrite SetUpBuildState_unfold, Hfetch in *. cbv zeta in *.
  fold path in Hnone |- *. rewrite Hload in *. fold w2 in Hnone |- *.
  rewrite Hcheck in *.
  split; intros Hlen.
  - destruct matches as [|m matches]; [simpl in Hlen; lia|]. done.
  - destruct matches; [done|discriminate].
Qed.

Lemma SetUpBuildState_preflight_witness :
  let stale :=
    {| Sample.head := Some Sample.commit1; Sample.refs := [];
       Sample.before := ["dist/old.tar.gz"]; Sample.after := [];
       Sample.readable := true; Sample.writable := true |} in
  let E := Sample.env stale in
  let digest := {| Alg := "sha1"; Value := Sample.commit1 |} in
  let config := Sample.config "https://example.com/org/repo" digest false in
  ∃ b, NewBuilderWithGitFetcher E config = Ok b
    ∧ (SetUpBuildState E (H := GitClient_Fetcher E) b []).1.2
      = Err (ErrExistingFiles "dist/*.tar.gz" 1).
Proof.
  intros stale E digest config.
  set (c := {| sourceRepo := "https://example.com/org/repo"; sourceRef := None;
               sourceDigest := digest; checkoutInfo := {| RepoRoot := "" |};
               logFiles := []; errFiles := [];
               forceCheckout := false; verbose := false; depth := 0 |}).
  exists {| repoFetcher := c; builder_config := config |}.
  split; [reflexivity|].
  destruct (SetUpBuildState_preflight E {| repoFetcher := c; builder_config := config |}
              [] [CallOutput rev_parse_HEAD] c {| RepoRoot := "" |}
              {| Command := ["make"; "release"]; ArtifactPath := "dist/*.tar.gz" |}
              ["dist/old.tar.gz"] eq_refl eq_refl eq_refl) as [Hstale _].
  destruct (Hstale (le_n 1)) as [-> _]. reflexivity.
Defined.

(** C10.  For a malformed artifact pattern, the check for existing files and
    the inspection of the artifacts both fail with the error that describes
    the malformed pattern; so does [BuildArtifacts] after a build that
    completed, and so does [SetUpBuildState] once the repository is fetched
    and the configuration loaded, no container having been invoked.  When
    the configuration file holds that pattern, [SetUpBuildState] returns
    an error in every case, and invokes no container. *)
Theorem malformed_pattern_is_an_error (env : Env) (pattern : string) :
  filepath_bad_pattern env pattern = true →
  let malformed := ErrPatternMalformed pattern ErrBadPattern in
  (∀ w, CheckExistingFiles env pattern w = (Some malformed, CallGlob pattern :: w))
  ∧ (∀ outputFolder root w,
       inspectAndWriteArtifacts env pattern outputFolder root w
       = (Err malformed, CallGlob pattern :: w))
  ∧ (∀ db outputFolder w w1,
       ArtifactPath (buildConfig db) = pattern →
       runDockerRun env db w = (None, w1) →
       BuildArtifacts env db outputFolder w = (Err malformed, CallGlob pattern :: w1))
  ∧ (∀ (b : Builder GitClient) w w1 fetcher repoInfo bc,
       let path := BuildConfigPath (builder_config b) in
       GitClient_Fetch env (repoFetcher b) w = ((fetcher, Ok repoInfo), w1) →
       config_LoadBuildConfigFromFile env w1 path = Ok bc →
       ArtifactPath bc = pattern →
       SetUpBuildState env (H := GitClient_Fetcher env) b w
       = (({| repoFetcher := fetcher; builder_config := builder_config b |},
           Err malformed),
          CallGlob pattern :: CallLoadBuildConfigFromFile path :: w1)
       ∧ container_invocations
           (CallGlob pattern :: CallLoadBuildConfigFromFile path :: w1)
         = container_invocations w)
  ∧ (∀ (b : Builder GitClient) w,
       (∀ w1 bc,
          config_LoadBuildConfigFromFile env w1 (BuildConfigPath (builder_config b))
          = Ok bc →
          ArtifactPath bc = pattern) →
       is_ok (SetUpBuildState env (H := GitClient_Fetcher env) b w).1.2 = false
       ∧ container_invocations
           (SetUpBuildState env (H := GitClient_Fetcher env) b w).2
         = container_invocations w).
Proof.
  intros Hbad malformed.
  assert (Hcheck : ∀ w, CheckExistingFiles env pattern w
                        = (Some malformed, CallGlob pattern :: w)).
  { intros w. rewrite CheckExistingFiles_unfold.
    unfold Glob, ask. simpl. by rewrite Hbad. }
  assert (Hinspect : ∀ outputFolder root w,
             inspectAndWriteArtifacts env pattern outputFolder root w
             = (Err malformed, CallGlob pattern :: w)).
  { intros outputFolder root w.
    unfold inspectAndWriteArtifacts, Glob, bind, ask, ret. by rewrite Hbad. }
  split; [exact Hcheck|]. split; [exact Hinspect|]. split; [|split].
  - intros db outputFolder w w1 Hpattern Hrun.
    unfold BuildArtifacts, bind. by rewrite Hrun, Hpattern, Hinspect.
  - intros b w w1 fetcher repoInfo bc path Hfetch Hload Hpattern.
    pose proof (SetUpBuildState_no_container env b w) as Hnone.
    rewrite SetUpBuildState_unfold, Hfetch in *. cbv zeta in *.
    fold path in Hnone |- *. rewrite Hload, Hpattern, Hcheck in *.
    done.
  - intros b w Hconfig. split; [|apply SetUpBuildState_no_container].
    rewrite SetUpBuildState_unfold.
    destruct (GitClient_Fetch env (repoFetcher b) w)
      as [[fetcher [repoInfo|err]] w1]; [|done]. cbv zeta.
    destruct (config_LoadBuildConfigFromFile env w1 _) as [bc|err] eqn:Hload;
      [|done].
    by rewrite (Hconfig _ _ Hload), Hcheck.
Qed.

Lemma malformed_pattern_is_an_error_witness :
  let E := Sample.env Sample.at_commit1 in
  CheckExistingFiles E "dist/[a-" []
  = (Some (ErrPatternMalformed "dist/[a-" ErrBadPattern), [CallGlob "dist/[a-"]).
Proof.
  intros E.
  exact (proj1 (malformed_pattern_is_an_error E "dist/[a-" eq_refl) []).
Defined.

(** ** Artifacts *)

Lemma EncodeToString_lower_hex src :
  all_lower_hex (hex.EncodeToString src) = true
  ∧ strings.len (hex.EncodeToString src) = (2 * strings.len src)%nat.
Proof.
  induction src as [|c src [IH1 IH2]]; [done|].
  cbn [hex.EncodeToString all_lower_hex String.length].
  rewrite IH1, IH2. split; [|lia].
  by destruct c as [[] [] [] [] [] [] [] []].
Qed.

Section ArtifactProperties.

Variable env : Env.

Lemma inspectAndWriteArtifact_inspected outputFolder root path w subject w' :
  inspectAndWriteArtifact env outputFolder root path w = (Ok subject, w')
  ↔ ∃ data,
      utils_SafeReadFile env w path = Ok data
      ∧ copy_written env outputFolder root path data (CallSafeReadFile path :: w) w'
      ∧ subject = artifact env path data.
Proof.
  unfold inspectAndWriteArtifact, toIntotoSubject, copy_written, artifact,
    bind, ask, ret.
  destruct (utils_SafeReadFile env w path) as [data|err] eqn:Hread.
  2: { split; [intros ?; simplify_eq|intros (? & ? & _); simplify_eq]. }
  destruct (String.eqb outputFolder "").
  { split; [intros ?; simplify_eq; by eexists|].
    intros (? & ? & ? & ?); by simplify_eq. }
  destruct (String.eqb root "").
  - split.
    + destruct (filepath_Rel env root path) as [relPath|] eqn:Hrel;
        [|intros ?; simplify_eq].
      destruct (utils_CreateNewFileUnderDirectory _ _ _ _) eqn:Hcreate;
        [intros ?; simplify_eq|].
      destruct (file_Write _ _ _ _ _) eqn:Hwrite; intros ?; simplify_eq.
      exists data. split; [done|]. split; [|done].
      by exists path, relPath, (CallSafeReadFile path :: w).
    + intros (data' & ? & (absolute & relPath & w1 & [-> ->] & Hrel & Hcreate
                           & Hwrite & ->) & ->).
      simplify_eq. by rewrite Hrel, Hcreate, Hwrite.
  - split.
    + destruct (filepath_Abs env _ path) as [absolute|] eqn:Habs;
        [|intros ?; simplify_eq].
      destruct (filepath_Rel env root absolute) as [relPath|] eqn:Hrel;
        [|intros ?; simplify_eq].
      destruct (utils_CreateNewFileUnderDirectory _ _ _ _) eqn:Hcreate;
        [intros ?; simplify_eq|].
      destruct (file_Write _ _ _ _ _) eqn:Hwrite; intros ?; simplify_eq.
      exists data. split; [done|]. split; [|done].
      by exists absolute, relPath, (CallAbs path :: CallSafeReadFile path :: w).
    + intros (data' & ? & (absolute & relPath & w1 & [Habs ->] & Hrel & Hcreate
                           & Hwrite & ->) & ->).
      simplify_eq. by rewrite Habs, Hrel, Hcreate, Hwrite.
Qed.

Lemma inspectAndWriteMatches_inspected outputFolder root matches :
  ∀ subjects w result w',
    inspectAndWriteMatches env outputFolder root subjects matches w
    = (Ok result, w')
    ↔ ∃ found, result = subjects ++ found
               ∧ inspected env outputFolder root w matches found w'.
Proof.
  induction matches as [|path matches IH]; intros subjects w result w'.
  - cbn [inspectAndWriteMatches]. unfold ret. split.
    + intros [= <- <-]. exists []. rewrite app_nil_r. split; [done|constructor].
    + intros (found & -> & Hfound). inversion Hfound; subst.
      by rewrite app_nil_r.
  - cbn [inspectAndWriteMatches]. unfold bind.
    destruct (inspectAndWriteArtifact env outputFolder root path w)
      as [[subject|err] w1] eqn:Hone.
    + apply inspectAndWriteArtifact_inspected in Hone
        as (data & Hread & Hcopy & ->).
      rewrite IH. split.
      * intros (found & -> & Hfound). eexists (_ :: found).
        rewrite <- app_assoc. split; [done|]. by econstructor.
      * intros (found & -> & Hfound). inversion Hfound; subst.
        match goal with
        | H : utils_SafeReadFile env w path = Ok ?d |- _ =>
            rewrite Hread in H; injection H as <-
        end.
        assert (Hw1 : inspectAndWriteArtifact env outputFolder root path w
                      = (Ok (artifact env path data), w1)).
        { apply inspectAndWriteArtifact_inspected. by exists data. }
        match goal with
        | H : copy_written _ _ _ _ _ _ ?w2 |- _ =>
            assert (Hw2 : inspectAndWriteArtifact env outputFolder root path w
                          = (Ok (artifact env path data), w2))
              by (apply inspectAndWriteArtifact_inspected; by exists data)
        end.
        rewrite Hw1 in Hw2. injection Hw2 as <-.
        eexists. rewrite <- app_assoc. split; [done|]. done.
    + unfold ret. split; [intros ?; simplify_eq|].
      intros (found & -> & Hfound). inversion Hfound; subst.
      match goal with
      | Hr : utils_SafeReadFile env w path = Ok ?d,
        Hc : copy_written _ _ _ _ _ _ ?w2 |- _ =>
          assert (Hw2 : inspectAndWriteArtifact env outputFolder root path w
                        = (Ok (artifact env path d), w2))
            by (apply inspectAndWriteArtifact_inspected; by exists d)
      end.
      rewrite Hone in Hw2. done.
Qed.

Lemma inspected_length outputFolder root w paths subjects w' :
  inspected env outputFolder root w paths subjects w' →
  length subjects = length paths.
Proof. induction 1; simpl; congruence. Qed.

Lemma inspectAndWriteMatches_length outputFolder root matches subjects w result w' :
  inspectAndWriteMatches env outputFolder root subjects matches w
  = (Ok result, w') →
  ∃ found, result = subjects ++ found ∧ length found = length matches.
Proof.
  intros (found & -> & Hfound)%inspectAndWriteMatches_inspected.
  exists found. split; [done|]. by eapply inspected_length.
Qed.

Lemma BuildArtifacts_unfold db outputFolder w :
  BuildArtifacts env db outputFolder w =
  match runDockerRun env db w with
  | (Some err, w1) => (Err (ErrDockerRun err), w1)
  | (None, w1) =>
      let pattern := ArtifactPath (buildConfig db) in
      let w2 := CallGlob pattern :: w1 in
      match (Glob env pattern w1).1 with
      | Err err => (Err (ErrPatternMalformed pattern err), w2)
      | Ok [] => (Err (ErrNoFilesMatching pattern), w2)
      | Ok matches =>
          inspectAndWriteMatches env outputFolder (RepoRoot (RepoInfo db))
            [] matches w2
      end
  end.
Proof.
  unfold BuildArtifacts, inspectAndWriteArtifacts, Glob, bind, ask, ret.
  destruct (runDockerRun env db w) as [[err|] w1]; [done|]. simpl.
  destruct (filepath_bad_pattern env _); [done|].
  by destruct (filepath_matches env w1 _).
Qed.

End ArtifactProperties.

(** C7, as stated, fails: the build completed and the pattern matches one
    file, but the file cannot be copied to the output folder, or cannot be
    read; [BuildArtifacts] fails. *)
Lemma BuildArtifacts_fails_on_file_errors :
  let digest := {| Alg := "sha1"; Value := Sample.commit1 |} in
  let db := {| config := Sample.config "https://example.com/org/repo" digest false;
               buildConfig := {| Command := ["make"; "release"];
                                 ArtifactPath := "dist/*.tar.gz" |};
               RepoInfo := {| RepoRoot := "" |} |} in
  let machine readable writable :=
    {| Sample.head := Some Sample.commit1; Sample.refs := [];
       Sample.before := []; Sample.after := ["dist/app.tar.gz"];
       Sample.readable := readable; Sample.writable := writable |} in
  (∀ readable writable,
     let E := Sample.env (machine readable writable) in
     ∃ w1, runDockerRun E db [] = (None, w1)
           ∧ (Glob E "dist/*.tar.gz" w1).1 = Ok ["dist/app.tar.gz"])
  ∧ (BuildArtifacts (Sample.env (machine true false)) db "/out" []).1
    = Err (ErrCreateOutput (ErrExternal "permission denied"))
  ∧ (BuildArtifacts (Sample.env (machine false true)) db "" []).1
    = Err (ErrReadFile "dist/app.tar.gz" (ErrExternal "permission denied")).
Proof.
  intros digest db machine. split; [|split; vm_compute; reflexivity].
  intros readable writable E. eexists. split; vm_compute; reflexivity.
Qed.

(** C7, amended.  After a build that completed: if the artifact pattern
    matches no file, [BuildArtifacts] fails with the error that no file
    matches the pattern.  If it matches [n ≥ 1] files, [BuildArtifacts]
    returns descriptors exactly when the inspection of these files
    succeeds: each file, in order, is read after the build, at its turn, and
    copied to the output folder, when there is one, before the next file is
    read, and none of this fails at the time it is asked for.  The
    descriptors are then [n], one for each matched file in order, carrying
    the base name of the file and the SHA256 digest, in lower-case
    hexadecimal, of the bytes that were read from it then. *)
Theorem BuildArtifacts_inspects (env : Env) (db : DockerBuild)
    (outputFolder : string) (w w1 : World) (matches : list string) :
  let pattern := ArtifactPath (buildConfig db) in
  let root := RepoRoot (RepoInfo db) in
  let w2 := CallGlob pattern :: w1 in
  runDockerRun env db w = (None, w1) →
  (Glob env pattern w1).1 = Ok matches →
  (length matches = 0%nat →
   BuildArtifacts env db outputFolder w
   = (Err (ErrNoFilesMatching pattern), w2))
  ∧ ((1 ≤ length matches)%nat →
     ∀ subjects w',
       BuildArtifacts env db outputFolder w = (Ok subjects, w')
       ↔ inspected env outputFolder root w2 matches subjects w')
  ∧ (∀ subjects w',
       inspected env outputFolder root w2 matches subjects w' →
       length subjects = length matches)
  ∧ (∀ path data,
       all_lower_hex (index (SubjectDigest (artifact env path data)) "sha256") = true
       ∧ index (SubjectDigest (artifact env path data)) "sha256"
         = hex.EncodeToString (sha256_Sum256 env data)).
Proof.
  intros pattern root w2 Hrun Hglob.
  split; [|split; [|split]].
  - intros Hlen. rewrite BuildArtifacts_unfold, Hrun. cbv zeta.
    fold pattern. rewrite Hglob. by destruct matches.
  - intros Hlen subjects w'. rewrite BuildArtifacts_unfold, Hrun. cbv zeta.
    fold pattern. rewrite Hglob.
    destruct matches as [|m matches]; [simpl in Hlen; lia|].
    fold root w2. rewrite inspectAndWriteMatches_inspected. split.
    + by intros (found & -> & Hfound).
    + intros Hfound. by exists subjects.
  - intros subjects w'. apply inspected_length.
  - intros path data. unfold artifact, index. simpl.
    rewrite lookup_singleton_eq. simpl. split; [|done].
    apply EncodeToString_lower_hex.
Qed.

Lemma BuildArtifacts_inspects_witness :
  let E := Scenario.produced (Sample.env Sample.at_commit1) in
  let path := "dist/app.tar.gz" in
  utils_SafeReadFile E [] path = Err (ErrExternal "no such file or directory")
  ∧ ∃ w',
      BuildArtifacts E Scenario.build "/out" []
      = (Ok [artifact E path "contents of dist/app.tar.gz"], w').
Proof.
  intros E path. split; [reflexivity|]. eexists.
  apply (proj1 (proj2 (BuildArtifacts_inspects E Scenario.build "/out" []
                         _ [path] eq_refl eq_refl)) (le_n 1)).
  econstructor; [reflexivity| |constructor].
  exists path, path, [CallSafeReadFile path;
                      CallGlob "dist/*.tar.gz";
                      CallRun false (docker_run Scenario.build "/work");
                      CallGetwd].
  repeat split; reflexivity.
Defined.

(** ** Reconstruction of a build configuration *)

(** C9, as stated, fails: when the digest of the builder image does not
    match and the source has no sha1 digest either, the error is the one
    for the image. *)
Lemma ToDockerBuildConfig_image_checked_first :
  let ep :=
    {| EPSource := {| URI := "https://example.com/org/repo"; RDDigest := ∅ |};
       EPBuilderImage := {| URI := "example.com/img@sha256:abcd";
                            RDDigest := {[ "sha256" := "ffff" ]} |};
       ConfigPath := "build.toml";
       Config := {| Command := ["make"]; ArtifactPath := "dist/*" |} |} in
  let p := with_ExternalParameters Zero.ProvenanceStatementSLSA1
             (EPContainerBased ep) in
  RDDigest (EPSource ep) !! "sha1" = None
  ∧ ToDockerBuildConfig Sample.validateDockerImage p false
    = Err ErrInvalidImageDigest
  ∧ ErrInvalidImageDigest ≠ ErrMissingSha1.
Proof. intros ep p. split; [done|]. split; [by vm_compute|done]. Qed.

(** C9, amended.  Let the statement hold container-based external
    parameters whose builder image reference is well formed, with digest
    [di].  If the value of [di] is not the digest declared for that
    algorithm, reconstruction fails with the invalid-image-digest error.  If
    it is, and the source has no sha1 digest, reconstruction fails with the
    missing-source-digest error.  If it is, and the source has a sha1
    digest, reconstruction returns the configuration with the source
    repository, that sha1 digest, the builder image and the configuration
    path of the external parameters. *)
Theorem ToDockerBuildConfig_checks
    (validateDockerImage : string → result DockerImage)
    (p : ProvenanceStatementSLSA1) (forceCheckout : bool)
    (ep : ContainerBasedExternalParameters) (di : DockerImage) :
  let declared := index (RDDigest (EPBuilderImage ep)) (Alg (ImageDigest di)) in
  ExternalParameters (BuildDefinition (Predicate p)) = EPContainerBased ep →
  validateDockerImage (URI (EPBuilderImage ep)) = Ok di →
  (Value (ImageDigest di) ≠ declared →
   ToDockerBuildConfig validateDockerImage p forceCheckout
   = Err ErrInvalidImageDigest)
  ∧ (Value (ImageDigest di) = declared →
     RDDigest (EPSource ep) !! "sha1" = None →
     ToDockerBuildConfig validateDockerImage p forceCheckout = Err ErrMissingSha1)
  ∧ (Value (ImageDigest di) = declared →
     ∀ val, RDDigest (EPSource ep) !! "sha1" = Some val →
       ToDockerBuildConfig validateDockerImage p forceCheckout
       = Ok {| SourceRepo := URI (EPSource ep);
               SourceDigest := {| Alg := "sha1"; Value := val |};
               BuilderImage := di;
               BuildConfigPath := ConfigPath ep;
               ForceCheckout := forceCheckout;
               Verbose := false |}).
Proof.
  intros declared Hep Hvalid. unfold ToDockerBuildConfig.
  rewrite Hep, Hvalid. fold declared. repeat split.
  - intros Hne%String.eqb_neq. by rewrite Hne.
  - intros Heq%String.eqb_eq Hsha1. by rewrite Heq, Hsha1.
  - intros Heq%String.eqb_eq val Hsha1. by rewrite Heq, Hsha1.
Qed.

Lemma ToDockerBuildConfig_checks_witness :
  let ep :=
    {| EPSource := {| URI := "https://example.com/org/repo";
                      RDDigest := {[ "sha1" := Sample.commit1 ]} |};
       EPBuilderImage := {| URI := "example.com/img@sha256:abcd";
                            RDDigest := {[ "sha256" := "abcd" ]} |};
       ConfigPath := "build.toml";
       Config := {| Command := ["make"]; ArtifactPath := "dist/*" |} |} in
  let p := with_ExternalParameters Zero.ProvenanceStatementSLSA1
             (EPContainerBased ep) in
  ToDockerBuildConfig Sample.validateDockerImage p true
  = Ok {| SourceRepo := "https://example.com/org/repo";
          SourceDigest := {| Alg := "sha1"; Value := Sample.commit1 |};
          BuilderImage := Sample.image;
          BuildConfigPath := "build.toml";
          ForceCheckout := true;
          Verbose := false |}.
Proof.
  intros ep p.
  exact (proj2 (proj2 (ToDockerBuildConfig_checks Sample.validateDockerImage p true
                         ep Sample.image eq_refl eq_refl))
           eq_refl Sample.commit1 eq_refl).
Defined.

(** ** Round trip of the external parameters *)

Section Utf8.

Import utf8.

(** A well-formed string is written as it is. *)
Lemma coerce_from_valid s : ∀ pending,
  valid_from pending s = true → coerce_from pending s = s.
Proof.
  induction s as [|c s IH]; intros pending; [done|].
  cbn [valid_from coerce_from]. destruct pending as [|n].
  - destruct (rune_size (String c s)) as [sz|]; [|done].
    intros Hvalid. by rewrite IH.
  - intros Hvalid. by rewrite IH.
Qed.

Lemma coerce_valid s : ValidString s = true → coerce s = s.
Proof. apply coerce_from_valid. Qed.

(** The encoding found at the head of a string lies within the string,
    and is found there whatever follows the string. *)
Lemma rune_size_app s t sz :
  rune_size s = Some sz →
  (1 ≤ sz ≤ strings.len s)%nat ∧ rune_size (s +:+ t) = Some sz.
Proof.
  destruct s as [|p0 [|b1 [|b2 [|b3 s]]]]; unfold String.app; simpl;
    try done;
    destruct (first (N_of_ascii p0)) as [[[[|[|[|[|n]]]] lo] hi]|];
    simpl; try done;
    repeat (destruct (in_range _ _ _); simpl; try done);
    intros [= <-]; split; try done; lia.
Qed.

Lemma valid_from_app s t : ∀ pending,
  (pending ≤ strings.len s)%nat →
  valid_from pending s = true →
  valid_from pending (s +:+ t) = valid_from 0 t.
Proof.
  induction s as [|c s IH]; intros pending Hlen.
  - simpl in Hlen. by replace pending with 0%nat by lia.
  - rewrite app_cons. cbn [valid_from]. destruct pending as [|n].
    + rewrite <- app_cons.
      destruct (rune_size (String c s)) as [sz|] eqn:Hsize; [|done].
      destruct (rune_size_app _ t _ Hsize) as [Hsz ->]. simpl in Hsz.
      apply IH. lia.
    + apply IH. simpl in Hlen. lia.
Qed.

Lemma ValidString_app s t :
  ValidString s = true → ValidString t = true → ValidString (s +:+ t) = true.
Proof.
  unfold ValidString. intros Hs Ht. rewrite valid_from_app; [done|lia|done].
Qed.

End Utf8.

(** ** Round trip of the external parameters, continued *)

Section JsonRoundTrip.

Import Json.

Variable env : Env.

Lemma marshal_string_valid s :
  utf8.ValidString s = true → marshal_string s = JString s.
Proof. intros Hs. unfold marshal_string. by rewrite coerce_valid. Qed.

Lemma remarshal_strings l :
  Forall (λ s, utf8.ValidString s = true) l →
  map marshal_any (map unmarshal_any (map marshal_string l)) = map JString l.
Proof.
  induction 1 as [|s l Hs _ IH]; [done|]. simpl.
  rewrite IH. unfold marshal_string. by rewrite !(coerce_valid s).
Qed.

Lemma unmarshal_strings l :
  unmarshal_elements unmarshal_string "" (map JString l) [] = Ok l.
Proof. induction l as [|s l IH]; [done|]. simpl. by rewrite IH. Qed.

Lemma marshal_DigestSet_singleton k v :
  marshal_DigestSet {[ k := v ]} = JObject [(utf8.coerce k, marshal_string v)].
Proof. unfold marshal_DigestSet. by rewrite map_to_list_singleton. Qed.

Lemma unmarshal_DigestSet_singleton k v :
  unmarshal_DigestSet (JObject [(k, JString v)]) ∅ = Ok {[ k := v ]}.
Proof. simpl. by rewrite insert_empty. Qed.

Lemma unmarshal_members_error {T}
    (fields : list (string * (json → T → result T))) members err :
  fold_left (fun acc kv =>
               match acc with
               | Err err => Err err
               | Ok t =>
                   match find_field env fields kv.1 with
                   | Some set => set kv.2 t
                   | None => Ok t
                   end
               end) members (Err err) = Err err.
Proof. by induction members. Qed.

Lemma unmarshal_struct_nil {T}
    (fields : list (string * (json → T → result T))) old :
  unmarshal_struct env fields (JObject []) old = Ok old.
Proof. done. Qed.

(** One member, for the field [set] that its key names. *)
Lemma unmarshal_struct_cons {T}
    (fields : list (string * (json → T → result T))) key j members old set :
  find_field env fields key = Some set →
  unmarshal_struct env fields (JObject ((key, j) :: members)) old
  = match set j old with
    | Ok t => unmarshal_struct env fields (JObject members) t
    | Err err => Err err
    end.
Proof.
  intros Hfield. simpl. rewrite Hfield.
  destruct (set j old); [done|]. apply unmarshal_members_error.
Qed.

Ltac member :=
  erewrite unmarshal_struct_cons by reflexivity; cbn [fst snd]; unfold field at 1.

(** Member names are ASCII. *)
Ltac literal_keys :=
  repeat match goal with
         | |- context [utf8.coerce ?s] =>
             lazymatch s with
             | context [?x] => is_var x; fail
             | _ => let r := eval vm_compute in (utf8.coerce s) in
                    change (utf8.coerce s) with r
             end
         end.

Lemma insert_entry_values {A B} (f : A → B) k v l :
  insert_entry k (f v) (map (λ kv, (kv.1, f kv.2)) l)
  = map (λ kv, (kv.1, f kv.2)) (insert_entry k v l).
Proof.
  induction l as [|[k' v'] l IH]; [done|]. simpl.
  destruct (String.compare k k'); simpl; [done..|]. by rewrite IH.
Qed.

Lemma entries_of_list_values {A B} (f : A → B) l :
  entries_of_list (map (λ kv, (kv.1, f kv.2)) l)
  = map (λ kv, (kv.1, f kv.2)) (entries_of_list l).
Proof.
  unfold entries_of_list.
  change (@nil (string * B)) with (map (λ kv : string * A, (kv.1, f kv.2)) []).
  generalize (@nil (string * A)) as acc.
  induction l as [|[k v] l IH]; intros acc; [done|]. simpl.
  by rewrite insert_entry_values, IH.
Qed.

Lemma remarshal_string s : remarshal (JString s) = JString (utf8.coerce s).
Proof. done. Qed.

Lemma remarshal_array elements :
  remarshal (JArray elements) = JArray (map remarshal elements).
Proof. unfold remarshal. simpl. by rewrite map_map. Qed.

(** The members come back sorted by key. *)
Lemma remarshal_object members :
  remarshal (JObject members)
  = JObject (map (λ kv, (utf8.coerce kv.1, remarshal kv.2))
               (entries_of_list members)).
Proof.
  unfold remarshal. simpl. f_equal.
  rewrite (map_ext _ (λ kv, (kv.1, unmarshal_any kv.2))) by (by intros [??]).
  rewrite entries_of_list_values, map_map.
  apply map_ext. by intros [??].
Qed.

Lemma ResourceDescriptor_round_trip uri alg value :
  utf8.ValidString uri = true →
  utf8.ValidString alg = true →
  utf8.ValidString value = true →
  let rd := {| URI := uri; RDDigest := {[ alg := value ]} |} in
  unmarshal_ResourceDescriptor env (remarshal (marshal_ResourceDescriptor rd))
    Zero.ResourceDescriptor
  = Ok rd.
Proof.
  intros Huri Halg Hvalue rd.
  unfold marshal_ResourceDescriptor, omitempty_string, omitempty_DigestSet.
  cbn [URI RDDigest rd].
  rewrite map_size_singleton, marshal_DigestSet_singleton.
  unfold marshal_string, unmarshal_ResourceDescriptor.
  destruct (String.eqb uri "") eqn:Hempty;
    rewrite remarshal_object; cbn [app Nat.eqb];
    [change (entries_of_list ?l) with l
    |change (entries_of_list [("uri", ?a); ("digest", ?b)])
       with [("digest", b); ("uri", a)]];
    cbn [map fst snd]; rewrite remarshal_object; cbn [map fst snd entries_of_list fold_left insert_entry];
    rewrite ?remarshal_string, ?(coerce_valid uri), ?(coerce_valid alg),
      ?(coerce_valid value) by done;
    literal_keys.
  - apply String.eqb_eq in Hempty. subst uri.
    member. cbn [RDDigest URI Zero.ResourceDescriptor].
    rewrite unmarshal_DigestSet_singleton. done.
  - member. cbn [RDDigest URI Zero.ResourceDescriptor].
    rewrite unmarshal_DigestSet_singleton.
    member. done.
Qed.
Lemma remarshal_strings_slice l :
  Forall (λ s, utf8.ValidString s = true) l →
  remarshal (marshal_slice marshal_string l)
  = match l with [] => JNull | _ => JArray (map JString l) end.
Proof.
  intros Hl. destruct l as [|s l]; [done|].
  unfold marshal_slice. rewrite remarshal_array. f_equal.
  induction Hl as [|s' l' Hs _ IH]; [done|]. cbn [map].
  rewrite IH. unfold marshal_string. rewrite remarshal_string.
  by rewrite !(coerce_valid s').
Qed.

Lemma unmarshal_strings_slice l :
  unmarshal_slice unmarshal_string ""
    match l with [] => JNull | _ => JArray (map JString l) end []
  = Ok l.
Proof. destruct l; [done|]. apply unmarshal_strings. Qed.

Lemma BuildConfig_round_trip bc :
  Forall (λ s, utf8.ValidString s = true) (Command bc) →
  utf8.ValidString (ArtifactPath bc) = true →
  unmarshal_BuildConfig env (remarshal (marshal_BuildConfig bc)) Zero.BuildConfig
  = Ok bc.
Proof.
  destruct bc as [command artifactPath]. cbn [Command ArtifactPath].
  intros Hcommand Hpath. unfold marshal_BuildConfig, unmarshal_BuildConfig.
  cbn [Command ArtifactPath]. rewrite remarshal_object.
  change (entries_of_list [("Command", ?a); ("ArtifactPath", ?b)])
    with [("ArtifactPath", b); ("Command", a)].
  cbn [map fst snd]. literal_keys.
  rewrite remarshal_strings_slice by done.
  unfold marshal_string. rewrite remarshal_string, !(coerce_valid artifactPath) by done.
  member. cbn [unmarshal_string].
  member. cbn [Command ArtifactPath Zero.BuildConfig].
  by rewrite unmarshal_strings_slice.
Qed.

(** The external parameters of a build definition: two resource
    descriptors with one digest each. *)
Lemma ExternalParameters_round_trip ep source_alg source_value image_alg image_value :
  RDDigest (EPSource ep) = {[ source_alg := source_value ]} →
  RDDigest (EPBuilderImage ep) = {[ image_alg := image_value ]} →
  utf8.ValidString (URI (EPSource ep)) = true →
  utf8.ValidString source_alg = true →
  utf8.ValidString source_value = true →
  utf8.ValidString (URI (EPBuilderImage ep)) = true →
  utf8.ValidString image_alg = true →
  utf8.ValidString image_value = true →
  utf8.ValidString (ConfigPath ep) = true →
  Forall (λ s, utf8.ValidString s = true) (Command (Config ep)) →
  utf8.ValidString (ArtifactPath (Config ep)) = true →
  unmarshal_ContainerBasedExternalParameters env
    (remarshal (marshal_ContainerBasedExternalParameters ep))
    Zero.ContainerBasedExternalParameters
  = Ok ep.
Proof.
  destruct ep as [[source_uri source_digest] [image_uri image_digest] path bc].
  cbn [EPSource EPBuilderImage ConfigPath Config URI RDDigest].
  intros -> -> Hsource Hsource_alg Hsource_value Himage Himage_alg Himage_value
    Hpath Hcommand Hartifact.
  unfold marshal_ContainerBasedExternalParameters,
    unmarshal_ContainerBasedExternalParameters.
  cbn [EPSource EPBuilderImage ConfigPath Config].
  rewrite remarshal_object.
  change (entries_of_list [("source", ?a); ("builderImage", ?b);
                           ("configPath", ?c); ("config", ?d)])
    with [("builderImage", b); ("config", d); ("configPath", c); ("source", a)].
  cbn [map fst snd]. literal_keys.
  unfold marshal_string at 1. rewrite remarshal_string, !(coerce_valid path) by done.
  member. cbn [EPSource EPBuilderImage ConfigPath Config
                 Zero.ContainerBasedExternalParameters].
  rewrite (ResourceDescriptor_round_trip image_uri image_alg image_value) by done.
  member. cbn [EPSource EPBuilderImage ConfigPath Config].
  rewrite BuildConfig_round_trip by done.
  member. cbn [EPSource EPBuilderImage ConfigPath Config unmarshal_string].
  member. cbn [EPSource EPBuilderImage ConfigPath Config].
  by rewrite (ResourceDescriptor_round_trip source_uri source_alg source_value).
Qed.
(** *** The rest of the statement is read without error *)

Lemma unmarshal_DigestSet_marshal d old :
  ∃ d', unmarshal_DigestSet (marshal_DigestSet d) old = Ok d'.
Proof.
  unfold marshal_DigestSet. generalize (entries_of_list (map_to_list d)).
  intros entries. revert old.
  induction entries as [|[k v] entries IH]; intros old; [by exists old|].
  apply (IH (<[utf8.coerce k := utf8.coerce v]> old)).
Qed.

Lemma unmarshal_ResourceDescriptor_marshal rd old :
  ∃ rd', unmarshal_ResourceDescriptor env (marshal_ResourceDescriptor rd) old
         = Ok rd'.
Proof.
  unfold marshal_ResourceDescriptor, unmarshal_ResourceDescriptor,
    omitempty_string, omitempty_DigestSet, marshal_string.
  destruct (String.eqb _ _), (size _ =? 0)%nat; cbn [app];
    repeat (member; cbn [unmarshal_string URI RDDigest]);
    try destruct (unmarshal_DigestSet_marshal (RDDigest rd) (RDDigest old))
      as [d' ->];
    eauto.
Qed.

Lemma unmarshal_Subject_marshal sub old :
  ∃ sub', unmarshal_Subject env (marshal_Subject sub) old = Ok sub'.
Proof.
  unfold marshal_Subject, unmarshal_Subject, omitempty_string,
    omitempty_DigestSet, marshal_string.
  destruct (String.eqb _ _), (size _ =? 0)%nat; cbn [app];
    repeat (member; cbn [unmarshal_string SubjectName SubjectDigest]);
    try destruct (unmarshal_DigestSet_marshal (SubjectDigest sub) (SubjectDigest old))
      as [d' ->];
    eauto.
Qed.

Lemma unmarshal_slice_marshal {T} (marshal : T → json)
    (unmarshal : json → T → result T) (zero : T) :
  (∀ x old, ∃ x', unmarshal (marshal x) old = Ok x') →
  ∀ l old, ∃ l', unmarshal_slice unmarshal zero (marshal_slice marshal l) old
                 = Ok l'.
Proof.
  intros Hone l old. destruct l as [|x l]; [by exists []|].
  unfold marshal_slice, unmarshal_slice. generalize (x :: l). clear x l.
  intros l. revert old. induction l as [|x l IH]; intros old; [by exists []|].
  cbn [map unmarshal_elements].
  destruct (Hone x (hd zero old)) as [x' ->].
  destruct (IH (tl old)) as [l' ->]. eauto.
Qed.

Lemma unmarshal_BuildDefinition_marshal bd :
  ∃ bd', Statement.unmarshal_BuildDefinition env
           (Statement.marshal_BuildDefinition bd)
           (BuildDefinition (Predicate Zero.ProvenanceStatementSLSA1))
         = Ok bd'
         ∧ ExternalParameters bd'
           = EPGeneric (unmarshal_any
                          (marshal_ExternalParametersValue (ExternalParameters bd))).
Proof.
  unfold Statement.marshal_BuildDefinition, Statement.unmarshal_BuildDefinition,
    marshal_string.
  assert (Hdeps : ∀ old, ∃ deps',
             unmarshal_slice (unmarshal_ResourceDescriptor env)
               Zero.ResourceDescriptor
               (marshal_slice marshal_ResourceDescriptor (ResolvedDependencies bd))
               old = Ok deps').
  { apply unmarshal_slice_marshal, unmarshal_ResourceDescriptor_marshal. }
  destruct (InternalParameters bd), (ResolvedDependencies bd) as [|dep deps] eqn:Hbd;
    cbn [app];
    repeat (member; cbn [unmarshal_string BuildType ExternalParameters
                           InternalParameters ResolvedDependencies
                           Predicate BuildDefinition
                           Zero.ProvenanceStatementSLSA1]);
    try (destruct (Hdeps []) as [deps' ->]);
    eexists; (split; [reflexivity|reflexivity]).
Qed.

(** Reading a written statement gives a statement whose external
    parameters are the generic value of the ones written. *)
Lemma unmarshal_Statement_marshal statement :
  ∃ statement',
    Statement.unmarshal env (Statement.marshal statement)
      Zero.ProvenanceStatementSLSA1 = Ok statement'
    ∧ ExternalParameters (BuildDefinition (Predicate statement'))
      = EPGeneric (unmarshal_any
                     (marshal_ExternalParametersValue
                        (ExternalParameters
                           (BuildDefinition (Predicate statement))))).
Proof.
  unfold Statement.marshal, Statement.unmarshal, marshal_string.
  member. cbn [unmarshal_string].
  member. cbn [unmarshal_string].
  member.
  destruct (unmarshal_slice_marshal marshal_Subject (unmarshal_Subject env)
              Zero.Subject (unmarshal_Subject_marshal)
              (Subjects (Header statement))
              (Subjects (Header (Statement.set_Header
                 (Statement.set_Header Zero.ProvenanceStatementSLSA1
                    {| Type_ := utf8.coerce (Type_ (Header statement));
                       PredicateType := ""; Subjects := [] |})
                 {| Type_ := utf8.coerce (Type_ (Header statement));
                    PredicateType :=
                      utf8.coerce (PredicateType (Header statement));
                    Subjects := [] |}))))
    as [subjects' Hsubjects].
  cbn [Header Statement.set_Header Type_ PredicateType Subjects
         Zero.ProvenanceStatementSLSA1] in Hsubjects |- *.
  rewrite Hsubjects.
  member. unfold Statement.unmarshal_Predicate.
  member.
  destruct (unmarshal_BuildDefinition_marshal
              (BuildDefinition (Predicate statement))) as (bd' & Hbd & Hep).
  cbn [Predicate BuildDefinition RunDetails Statement.set_Header
         Zero.ProvenanceStatementSLSA1] in Hbd |- *.
  rewrite Hbd.
  member.
  eexists. split; [reflexivity|]. exact Hep.
Qed.

End JsonRoundTrip.

(** C1, as stated, fails: a configuration path that is not valid UTF-8 is
    read back as the replacement character. *)
Lemma ParseProvenance_replaces_invalid_bytes :
  let E := Sample.env Sample.at_commit1 in
  let db :=
    {| config := {| SourceRepo := "https://example.com/org/repo";
                    SourceDigest := {| Alg := "sha1"; Value := Sample.commit1 |};
                    BuilderImage := Sample.image;
                    BuildConfigPath := String (ascii_of_N 255) "";
                    ForceCheckout := false;
                    Verbose := false |};
       buildConfig := {| Command := ["make"]; ArtifactPath := "dist/*" |};
       RepoInfo := {| RepoRoot := "" |} |} in
  let d := CreateBuildDefinition db in
  let header := {| Type_ := "https://in-toto.io/Statement/v1";
                   PredicateType := "https://slsa.dev/provenance/v1";
                   Subjects := [] |} in
  ∃ statement' ep',
    ParseProvenance E (Statement.marshal (statement_of header d ANil)) = Ok statement'
    ∧ ExternalParameters (BuildDefinition (Predicate statement'))
      = EPContainerBased ep'
    ∧ ConfigPath ep' = utf8.replacement
    ∧ EPContainerBased ep' ≠ ExternalParameters d.
Proof.
  intros E db d header.
  eexists _, _. split; [vm_compute; reflexivity|].
  split; [reflexivity|]. split; [reflexivity|].
  intros Hep. apply (f_equal (λ v, match v with
                                  | EPContainerBased ep => ConfigPath ep
                                  | EPGeneric _ => ""
                                  end)) in Hep.
  discriminate Hep.
Qed.

(** C1, amended.  For every build definition [d] produced by
    [CreateBuildDefinition] from a build whose strings are all valid UTF-8,
    parsing the written form of a statement that carries [d] yields a
    statement whose external parameters are those of [d]: the same source
    descriptor, builder image descriptor, configuration path and build
    configuration. *)
Theorem ParseProvenance_round_trip (env : Env) (db : DockerBuild)
    (header : StatementHeader) (runDetails : any) :
  utf8_valid db = true →
  let d := CreateBuildDefinition db in
  ∃ statement',
    ParseProvenance env (Statement.marshal (statement_of header d runDetails))
    = Ok statement'
    ∧ ExternalParameters (BuildDefinition (Predicate statement'))
      = ExternalParameters d.
Proof.
  unfold utf8_valid. rewrite !andb_true_iff, forallb_forall.
  intros ((((((((Hrepo & Halg) & Hvalue) & Hname) & Himage_alg) & Himage_value)
             & Hpath) & Hcommand) & Hartifact).
  unfold ParseProvenance.
  destruct (unmarshal_Statement_marshal env
              (statement_of header (CreateBuildDefinition db) runDetails))
    as (statement0 & -> & Hgeneric).
  rewrite Hgeneric. cbn [statement_of Predicate BuildDefinition
                           CreateBuildDefinition ExternalParameters
                           Json.marshal_ExternalParametersValue].
  fold (remarshal
          (Json.marshal_ContainerBasedExternalParameters
             {| EPSource := sourceArtifact (config db);
                EPBuilderImage := builderImage (config db);
                ConfigPath := BuildConfigPath (config db);
                Config := buildConfig db |})).
  erewrite (ExternalParameters_round_trip env); try reflexivity; try done.
  - eexists. split; reflexivity.
  - unfold builderImage, ToString. cbn [EPBuilderImage URI].
    repeat apply ValidString_app; done.
  - apply Forall_forall. intros s Hs. apply Hcommand.
    by apply list_elem_of_In.
Qed.

Lemma ParseProvenance_round_trip_witness :
  let E := Sample.env Sample.at_commit1 in
  let digest := {| Alg := "sha1"; Value := Sample.commit1 |} in
  let db := {| config := Sample.config "https://example.com/org/repo" digest false;
               buildConfig := {| Command := ["make"; "release"];
                                 ArtifactPath := "dist/*.tar.gz" |};
               RepoInfo := {| RepoRoot := "" |} |} in
  let header := {| Type_ := "https://in-toto.io/Statement/v1";
                   PredicateType := "https://slsa.dev/provenance/v1";
                   Subjects := [] |} in
  ∃ statement',
    ParseProvenance E
      (Statement.marshal (statement_of header (CreateBuildDefinition db) ANil))
    = Ok statement'
    ∧ ExternalParameters (BuildDefinition (Predicate statement'))
      = ExternalParameters (CreateBuildDefinition db).
Proof.
  intros E digest db header.
  exact (ParseProvenance_round_trip E db header ANil eq_refl).
Defined.

(** * Further properties *)

(** ** Construction of the git client, continued *)

Section Pieces.

Import strings.

(** The pieces of a string are free of the separator; one piece is the
    string itself, and two pieces are what precedes and what follows the
    one separator. *)
Lemma Split_pieces sep s :
  match Split s sep with
  | [a] => a = s ∧ contains_byte sep s = false
  | [a; b] => s = a +:+ String sep b
              ∧ contains_byte sep a = false ∧ contains_byte sep b = false
  | _ => True
  end.
Proof.
  induction s as [|c s IH]; [by simpl|]. cbn [strings.Split strings.contains_byte].
  pose proof (Split_nonempty sep s) as Hsome.
  destruct (Ascii.eqb c sep) eqn:Hc.
  - apply Ascii.eqb_eq in Hc as ->.
    destruct (Split s sep) as [|a [|b l]]; [done| |done].
    destruct IH as [-> Hs]. by rewrite Hs.
  - destruct (Split s sep) as [|a [|b [|b' l]]]; [done| | |done].
    + destruct IH as [-> Hs]. by rewrite Hs.
    + destruct IH as (-> & Ha & Hb). rewrite app_cons. cbn [contains_byte].
      by rewrite Hc, Ha, Hb.
Qed.


End Pieces.

(** X1.  Whatever the scheme, a client that [newGitClient] returns has a
    repository without [@], and a source ref, if it has one, without [@];
    the repository, followed by [@] and the ref if there is one, is the
    source as it was given, with the first [git+https] or [https+git] in
    it, whichever the scheme is, replaced by [https]. *)
Theorem newGitClient_repository (env : Env) (config : DockerBuildConfig)
    (depth : Z) (c : GitClient) :
  newGitClient env config depth = Ok c →
  ∃ parsed,
    let source :=
      if String.eqb (Scheme parsed) "https" then SourceRepo config
      else strings.Replace1 (SourceRepo config) (Scheme parsed) "https" in
    url_Parse env (SourceRepo config) = Ok parsed
    ∧ strings.contains_byte "@" (sourceRepo c) = false
    ∧ match sourceRef c with
      | None => source = sourceRepo c
      | Some ref =>
          source = sourceRepo c +:+ "@" +:+ ref
          ∧ strings.contains_byte "@" ref = false
      end.
Proof.
  unfold newGitClient.
  destruct (url_Parse env (SourceRepo config)) as [parsed|]; [|done].
  intros Hnew. exists parsed. cbv zeta. split; [done|].
  destruct (String.eqb (Scheme parsed) "https") eqn:H0;
    [|destruct (String.eqb (Scheme parsed) "git+https") eqn:H1;
      [apply String.eqb_eq in H1; rewrite H1 in *
      |destruct (String.eqb (Scheme parsed) "https+git") eqn:H2;
       [apply String.eqb_eq in H2; rewrite H2 in *|done]]].
  all: match type of Hnew with
       | context [strings.Split ?source _] =>
           pose proof (Split_pieces "@" source) as Hpieces;
           destruct (strings.Split source "@") as [|a [|ref [|? ?]]]; try done
       end.
  all: try (destruct Hpieces as [-> Hfree]; by simplify_eq).
  all: destruct Hpieces as (Hsource & Ha & Href); simplify_eq;
    cbn [sourceRepo sourceRef]; rewrite Hsource;
    change ("@" +:+ ref) with (String "@" ref);
    by rewrite TrimSuffix_app.
Qed.

Lemma newGitClient_repository_witness :
  let E := Sample.env Sample.at_commit1 in
  let config := Sample.config "git+https://example.com/org/repo@v1.0"
                  (Scenario.sha1 Sample.commit1) false in
  ∃ c, newGitClient E config 0 = Ok c
       ∧ sourceRepo c = "https://example.com/org/repo"
       ∧ sourceRef c = Some "v1.0"
       ∧ strings.contains_byte "@" (sourceRepo c) = false.
Proof.
  intros E config. eexists. split; [vm_compute; reflexivity|].
  split; [reflexivity|]. split; [reflexivity|].
  destruct (newGitClient_repository E config 0 _ eq_refl) as (_ & _ & Hfree & _).
  exact Hfree.
Defined.

(** X2.  A builder made by [NewBuilderWithGitFetcher] keeps the
    configuration as it is, and its fetcher is the git client for that
    configuration with depth 0, so that it clones the whole history:
    [git clone] is run without [--depth].  The only failure is that of
    [newGitClient]. *)
Theorem NewBuilderWithGitFetcher_clones_all (env : Env)
    (config : DockerBuildConfig) :
  match NewBuilderWithGitFetcher env config with
  | Ok b =>
      newGitClient env config 0 = Ok (repoFetcher b)
      ∧ builder_config b = config
      ∧ ∀ w, (cloneGitRepo env (repoFetcher b) w).2
             = CallRun (Verbose config)
                 ["git"; "clone"; sourceRepo (repoFetcher b)] :: w
  | Err err =>
      ∃ err', newGitClient env config 0 = Err err' ∧ err = ErrCreateBuilder err'
  end.
Proof.
  unfold NewBuilderWithGitFetcher.
  destruct (newGitClient env config 0) as [gc|err] eqn:Hnew; [|by eexists].
  split; [done|]. split; [done|]. intros w. cbn [repoFetcher].
  assert (Hfields : depth gc = 0 ∧ verbose gc = Verbose config).
  { unfold newGitClient in Hnew.
    repeat match type of Hnew with
           | match ?x with _ => _ end = _ => destruct x eqn:?; try discriminate
           | (if ?x then _ else _) = _ => destruct x eqn:?; try discriminate
           | (let (_, _) := ?x in _) = _ => destruct x eqn:?
           end;
      by injection Hnew as <-. }
  destruct Hfields as [Hdepth Hverbose].
  unfold cloneGitRepo, runCaptured, Run, ask, bind, ret.
  by rewrite Hdepth, Hverbose.
Qed.


(** ** Fetching *)

Section Verification.

Variable env : Env.


Lemma verifyRefAndCommit_calls c w :
  ∃ calls, (verifyRefAndCommit env c w).2 = calls ++ w
           ∧ ∀ sub, invocations sub (calls ++ w) = invocations sub w.
Proof.
  rewrite verifyRefAndCommit_unfold. cbv zeta.
  destruct (exec_Output env w rev_parse_HEAD) as [head|];
    [|by exists [CallOutput rev_parse_HEAD]].
  destruct (negb _); [by exists [CallOutput rev_parse_HEAD]|].
  destruct (sourceRef c) as [ref|]; [|by exists [CallOutput rev_parse_HEAD]].
  exists [CallOutput (show_ref ref); CallOutput rev_parse_HEAD].
  destruct (exec_Output env _ (show_ref ref)) as [out|]; [|done].
  by destruct (negb _).
Qed.

Lemma verifyRefAndCommit_invocations sub c w :
  invocations sub (verifyRefAndCommit env c w).2 = invocations sub w.
Proof.
  rewrite verifyRefAndCommit_unfold. cbv zeta.
  destruct (exec_Output env w rev_parse_HEAD) as [head|]; [|done].
  destruct (negb _); [done|].
  destruct (sourceRef c) as [ref|]; [|done].
  destruct (exec_Output env _ (show_ref ref)) as [out|]; [|done].
  by destruct (negb _).
Qed.



(** What a fresh checkout leaves behind, however far it gets. *)
Lemma fetchSourcesFromGitRepo_cases c w :
  let r := fetchSourcesFromGitRepo env c w in
  (r.1.2 ≠ None → checkoutInfo r.1.1 = checkoutInfo c)
  ∧ (r.1.1 = c ∧ invocations "clone" r.2 = invocations "clone" w
     ∨ invocations "clone" r.2 = S (invocations "clone" w))
  ∧ ∃ calls, r.2 = calls ++ CallMkdirTemp "" "release-*" :: w.
Proof.
  unfold fetchSourcesFromGitRepo, cloneGitRepo, checkoutGitCommit, runCaptured,
    Run, ask, bind, ret.
  destruct (os_MkdirTemp env w "" "release-*") as [targetDir|];
    [|split; [done|]; split; [by left|by exists []]].
  destruct (os_MkdirAll env _ targetDir);
    [split; [done|]; split; [by left|by eexists [_]]|].
  destruct (os_Chdir env _ targetDir);
    [split; [done|]; split; [by left|by eexists [_; _]]|].
  set (clone := if 0 <? depth c then _ else _).
  assert (Hclone : ∃ tail, clone = "git" :: "clone" :: tail)
    by (subst clone; destruct (0 <? depth c); eauto).
  destruct Hclone as [tail Hclone]. rewrite Hclone. clear clone Hclone.
  destruct (exec_Run env _ (verbose c) _) as [| | | | |logs1 errs1];
    try (split; [done|]; split; [by right|by eexists [_; _; _]]).
  cbn [sourceRepo with_files verbose sourceDigest].
  destruct (os_Chdir env _ _);
    [split; [done|]; split; [by right|by eexists [_; _; _; _]]|].
  destruct (os_Getwd env _) as [cwd|];
    [|split; [done|]; split; [by right|by eexists [_; _; _; _; _]]].
  destruct (exec_Run env _ (verbose c) _) as [| | | | |logs2 errs2];
    try (split; [done|]; split; [by right|by eexists [_; _; _; _; _; _]]).
  match goal with
  | |- context [verifyRefAndCommit env ?c2 ?w7] =>
      destruct (verifyRefAndCommit_calls c2 w7) as (calls & Hcalls & Hsame);
      destruct (verifyRefAndCommit env c2 w7) as [[ok err] w8]
  end.
  simpl in Hcalls. subst w8.
  destruct err, ok; (split; [done|]; split;
    [right; cbn [fst snd]; by rewrite Hsame
    |eexists (calls ++ [_; _; _; _; _; _]); cbn [fst snd]; by rewrite <- app_assoc]).
Qed.

Lemma elem_of_middle {A} (x : A) (l1 l2 : list A) : x ∈ l1 ++ x :: l2.
Proof. apply elem_of_app. right. apply list_elem_of_here. Qed.

End Verification.



(** X4.  When the working directory is no checkout, or the source ref that
    is asked for does not resolve there, the sources are fetched, without
    force-checkout as well: the verification has then found no mismatch and
    reports, without an error, that the repository is not checked out.  A
    new temporary directory is asked for, and what [Fetch] returns is what
    the fresh checkout gives. *)
Theorem Fetch_fetches_anew (env : Env) (c : GitClient) (w : World) :
  Alg (sourceDigest c) = "sha1" →
  (exec_Output env w rev_parse_HEAD = None
   ∨ prints_commit env c w rev_parse_HEAD
     ∧ ∃ ref, sourceRef c = Some ref
              ∧ exec_Output env (CallOutput rev_parse_HEAD :: w) (show_ref ref)
                = None) →
  let w1 := (verifyRefAndCommit env c w).2 in
  (verifyRefAndCommit env c w).1 = (false, None)
  ∧ GitClient_Fetch env c w
    = match fetchSourcesFromGitRepo env c w1 with
      | ((c', Some err), w2) =>
          ((c', Err (ErrFetchSources (sourceRepo c') (Alg (sourceDigest c'))
                       (Value (sourceDigest c')) err)), w2)
      | ((c', None), w2) => ((c', Ok (checkoutInfo c')), w2)
      end
  ∧ CallMkdirTemp "" "release-*" ∈ (GitClient_Fetch env c w).2.
Proof.
  intros Halg Hnone w1.
  assert (Hverify : (verifyRefAndCommit env c w).1 = (false, None)).
  { rewrite verifyRefAndCommit_unfold. cbv zeta.
    destruct Hnone as [->|[(head & -> & Hhead) (ref & -> & ->)]]; [done|].
    by rewrite Hhead, String.eqb_refl. }
  split; [exact Hverify|].
  assert (Hfetch : GitClient_Fetch env c w
                   = match fetchSourcesFromGitRepo env c w1 with
                     | ((c', Some err), w2) =>
                         ((c', Err (ErrFetchSources (sourceRepo c')
                                      (Alg (sourceDigest c'))
                                      (Value (sourceDigest c')) err)), w2)
                     | ((c', None), w2) => ((c', Ok (checkoutInfo c')), w2)
                     end).
  { subst w1. rewrite Fetch_unfold, Halg. cbn [String.eqb negb].
    destruct (verifyRefAndCommit env c w) as [[ok err] w1].
    cbn [fst snd] in *. simplify_eq. by destruct (forceCheckout c). }
  split; [exact Hfetch|]. rewrite Hfetch.
  destruct (fetchSourcesFromGitRepo_cases env c w1) as (_ & _ & calls & Hcalls).
  destruct (fetchSourcesFromGitRepo env c w1) as [[c' [err|]] w2];
    cbn [fst snd] in *; subst w2; apply elem_of_middle.
Qed.

Lemma Fetch_fetches_anew_witness :
  let E := Sample.env Scenario.no_checkout in
  let c := Scenario.client None (Scenario.sha1 Sample.commit1) false in
  CallMkdirTemp "" "release-*" ∈ (GitClient_Fetch E c []).2.
Proof.
  intros E c.
  exact (proj2 (proj2 (Fetch_fetches_anew E c [] eq_refl (or_introl eq_refl)))).
Defined.

(** X5.  With force-checkout set, the first verification decides nothing:
    whatever it finds, the sources are fetched anew, from the history that
    the verification leaves.  A new temporary directory is asked for in
    every case, and a commit mismatch found in the working directory is not
    the error returned. *)
Theorem Fetch_force_checkout (env : Env) (c : GitClient) (w : World) :
  Alg (sourceDigest c) = "sha1" →
  forceCheckout c = true →
  let w1 := (verifyRefAndCommit env c w).2 in
  GitClient_Fetch env c w
  = match fetchSourcesFromGitRepo env c w1 with
    | ((c', Some err), w2) =>
        ((c', Err (ErrFetchSources (sourceRepo c') (Alg (sourceDigest c'))
                     (Value (sourceDigest c')) err)), w2)
    | ((c', None), w2) => ((c', Ok (checkoutInfo c')), w2)
    end
  ∧ CallMkdirTemp "" "release-*" ∈ (GitClient_Fetch env c w).2
  ∧ ∀ err, (GitClient_Fetch env c w).1.2 = Err err → is_commit_mismatch err = false.
Proof.
  intros Halg Hforce w1.
  assert (Hfetch : GitClient_Fetch env c w
                   = match fetchSourcesFromGitRepo env c w1 with
                     | ((c', Some err), w2) =>
                         ((c', Err (ErrFetchSources (sourceRepo c')
                                      (Alg (sourceDigest c'))
                                      (Value (sourceDigest c')) err)), w2)
                     | ((c', None), w2) => ((c', Ok (checkoutInfo c')), w2)
                     end).
  { subst w1. rewrite Fetch_unfold, Halg, Hforce. simpl.
    destruct (verifyRefAndCommit env c w) as [[ok [err|]] w1]; simpl;
      by rewrite orb_true_r. }
  split; [exact Hfetch|]. rewrite Hfetch.
  destruct (fetchSourcesFromGitRepo_cases env c w1) as (_ & _ & calls & Hcalls).
  destruct (fetchSourcesFromGitRepo env c w1) as [[c' [err|]] w2];
    cbn [fst snd] in *; subst w2.
  all: split; [apply elem_of_middle|]; intros ??; by simplify_eq.
Qed.

Lemma Fetch_force_checkout_witness :
  let E := Sample.env Sample.at_commit1 in
  let c := Scenario.client None (Scenario.sha1 Sample.commit1) true in
  CallMkdirTemp "" "release-*" ∈ (GitClient_Fetch E c []).2.
Proof.
  intros E c.
  exact (proj1 (proj2 (Fetch_force_checkout E c [] eq_refl eq_refl))).
Defined.

(** X6.  A commit mismatch is reported by [Fetch] only from the
    verification of the working directory, with force-checkout unset:
    nothing was fetched then, and the client is as it was.  A mismatch
    found after a fresh checkout is reported as a failure of the fetch. *)
Theorem Fetch_reports_mismatch (env : Env) (c : GitClient) (w : World)
    (c' : GitClient) (err : Error) (w' : World) :
  GitClient_Fetch env c w = ((c', Err err), w') →
  is_commit_mismatch err = true →
  forceCheckout c = false
  ∧ c' = c
  ∧ verifyRefAndCommit env c w = ((false, Some err), w')
  ∧ invocations "clone" w' = invocations "clone" w
  ∧ invocations "checkout" w' = invocations "checkout" w.
Proof.
  rewrite Fetch_unfold. destruct (negb _); [by intros [= <- <- <-]|].
  pose proof (verifyRefAndCommit_invocations env "clone" c w) as Hclone.
  pose proof (verifyRefAndCommit_invocations env "checkout" c w) as Hcheckout.
  destruct (verifyRefAndCommit env c w) as [[ok verr] w1] eqn:Hverify.
  cbn [snd] in *.
  assert (Hfetch : ∀ r,
             match fetchSourcesFromGitRepo env c w1 with
             | ((c', Some err), w2) =>
                 ((c', Err (ErrFetchSources (sourceRepo c')
                              (Alg (sourceDigest c'))
                              (Value (sourceDigest c')) err)), w2)
             | ((c', None), w2) => ((c', Ok (checkoutInfo c')), w2)
             end = ((c', Err err), w') →
             is_commit_mismatch err = true → r).
  { intros r.
    destruct (fetchSourcesFromGitRepo env c w1) as [[c2 [err2|]] w2];
      by intros [= <- <- <-]. }
  destruct verr as [verr|], (forceCheckout c), ok; simpl;
    try (by apply Hfetch); try (by intros [= <- <- <-]).
  all: intros [= <- <- <-] _.
  all: apply verifyRefAndCommit_error in Hverify as Hfalse.
  all: by destruct Hfalse as [? _].
Qed.

Lemma Fetch_reports_mismatch_witness :
  let E := Sample.env Sample.at_commit1 in
  let c := Scenario.client None (Scenario.sha1 Sample.commit2) false in
  ∃ err w',
    GitClient_Fetch E c [] = ((c, Err err), w')
    ∧ is_commit_mismatch err = true
    ∧ invocations "clone" w' = 0%nat.
Proof.
  intros E c. eexists _, _.
  assert (Hfetch : GitClient_Fetch E c [] = ((c, Err _), _))
    by (vm_compute; reflexivity).
  split; [exact Hfetch|]. split; [reflexivity|].
  exact (proj1 (proj2 (proj2 (proj2 (Fetch_reports_mismatch E c [] _ _ _ Hfetch eq_refl))))).
Defined.


(** ** Log files and cleaning up *)

Section LogFiles.

Variable env : Env.

Lemma verifyRefAndCommit_reported c w :
  reported env (verifyRefAndCommit env c w).2 = reported env w.
Proof.
  rewrite verifyRefAndCommit_unfold. cbv zeta.
  destruct (exec_Output env w rev_parse_HEAD) as [head|]; [|done].
  destruct (negb _); [done|].
  destruct (sourceRef c) as [ref|]; [|done].
  destruct (exec_Output env _ (show_ref ref)) as [out|]; [|done].
  by destruct (negb _).
Qed.

Lemma runCaptured_records c w sub args :
  records env c w →
  let r := runCaptured env c ("git" :: sub :: args) w in
  records env r.1.1 r.2.
Proof.
  unfold records, runCaptured, Run, ask, bind, ret. intros Hc. cbn [fst snd].
  cbn [reported]. rewrite <- Hc.
  by destruct (exec_Run env w (verbose c) _).
Qed.

Lemma cloneGitRepo_records c w :
  records env c w →
  records env (cloneGitRepo env c w).1.1 (cloneGitRepo env c w).2.
Proof.
  unfold cloneGitRepo. destruct (0 <? depth c); apply runCaptured_records.
Qed.

Lemma checkoutGitCommit_records c w :
  records env c w →
  records env (checkoutGitCommit env c w).1.1 (checkoutGitCommit env c w).2.
Proof.
  intros Hc. unfold checkoutGitCommit, bind, ret.
  pose proof (runCaptured_records c w "checkout" [Value (sourceDigest c)] Hc)
    as Hrun. cbv zeta in Hrun.
  destruct (runCaptured env c _ w) as [[c1 [err|]] w1]; [done|].
  cbn [fst snd] in Hrun.
  pose proof (verifyRefAndCommit_reported c1 w1) as Hverify.
  destruct (verifyRefAndCommit env c1 w1) as [[ok err] w2].
  cbn [snd] in Hverify.
  destruct err, ok; unfold records in *; cbn [fst snd ret] in *;
    by rewrite Hverify.
Qed.

Lemma fetchSourcesFromGitRepo_records c w :
  records env c w →
  records env (fetchSourcesFromGitRepo env c w).1.1
    (fetchSourcesFromGitRepo env c w).2.
Proof.
  intros Hc. unfold fetchSourcesFromGitRepo, bind, ask, ret.
  destruct (os_MkdirTemp env w "" "release-*") as [targetDir|]; [|exact Hc].
  destruct (os_MkdirAll env _ targetDir); [exact Hc|].
  destruct (os_Chdir env _ targetDir); [exact Hc|].
  match goal with
  | |- context [cloneGitRepo env c ?w3] =>
      pose proof (cloneGitRepo_records c w3 Hc) as Hclone;
      destruct (cloneGitRepo env c w3) as [[c1 [err|]] w4]; [exact Hclone|]
  end.
  cbn [fst snd] in Hclone.
  destruct (os_Chdir env _ _); [exact Hclone|].
  destruct (os_Getwd env _) as [cwd|]; [|exact Hclone].
  match goal with
  | |- context [checkoutGitCommit env c1 ?w6] =>
      pose proof (checkoutGitCommit_records c1 w6 Hclone) as Hcheckout;
      destruct (checkoutGitCommit env c1 w6) as [[c2 [err|]] w7];
        exact Hcheckout
  end.
Qed.


End LogFiles.

(** X7.  [Fetch] keeps the books of the log files: if the files of the
    client are those that were reported for the git commands run so far, they
    still are when [Fetch] returns, whatever it returns; so the clean-up
    removes, after the root of the checkout if one was recorded, each file
    reported, the logs before the errors. *)
Theorem Fetch_records_files (env : Env) (c : GitClient) (w : World) :
  (logFiles c, errFiles c) = reported env w →
  let r := GitClient_Fetch env c w in
  (logFiles r.1.1, errFiles r.1.1) = reported env r.2
  ∧ cleanupAllFiles r.1.1
    = Cleanup (checkoutInfo r.1.1)
      ++ map Remove ((reported env r.2).1 ++ (reported env r.2).2).
Proof.
  intros Hc r.
  assert (Hr : records env r.1.1 r.2).
  { subst r. rewrite Fetch_unfold. destruct (negb _); [exact Hc|].
    pose proof (verifyRefAndCommit_reported env c w) as Hverify.
    destruct (verifyRefAndCommit env c w) as [[ok err] w1]. cbn [snd] in Hverify.
    assert (Hc1 : records env c w1) by (unfold records; by rewrite Hverify).
    pose proof (fetchSourcesFromGitRepo_records env c w1 Hc1) as Hfetch.
    destruct err as [err|], (forceCheckout c), ok; simpl; try exact Hc1;
      by destruct (fetchSourcesFromGitRepo env c w1) as [[c2 [err2|]] w2]. }
  split; [exact Hr|]. unfold cleanupAllFiles. unfold records in Hr.
  by rewrite <- Hr.
Qed.

Lemma Fetch_records_files_witness :
  let E := Sample.env Scenario.no_checkout in
  let c := Scenario.client None (Scenario.sha1 Sample.commit1) false in
  let r := GitClient_Fetch E c [] in
  (logFiles r.1.1, errFiles r.1.1) = reported E r.2.
Proof.
  intros E c. exact (proj1 (Fetch_records_files E c [] eq_refl)).
Defined.

(** X8.  The clean-up after [Fetch], for a client as [newGitClient] makes
    it: as long as no [git clone] was run, the clean-up removes nothing at
    all, and in particular not the working directory in which the commit
    was found; and after a [Fetch] that failed it removes no directory. *)
Theorem cleanupAllFiles_after_Fetch (env : Env) (config : DockerBuildConfig)
    (depth : Z) (c : GitClient) (w : World) :
  newGitClient env config depth = Ok c →
  let r := GitClient_Fetch env c w in
  (invocations "clone" r.2 = invocations "clone" w → cleanupAllFiles r.1.1 = [])
  ∧ (is_ok r.1.2 = false → Cleanup (checkoutInfo r.1.1) = []).
Proof.
  intros Hnew r.
  assert (Hfresh : checkoutInfo c = {| RepoRoot := "" |}
                   ∧ logFiles c = [] ∧ errFiles c = []).
  { unfold newGitClient in Hnew.
    repeat match type of Hnew with
           | match ?x with _ => _ end = _ => destruct x eqn:?; try discriminate
           | (if ?x then _ else _) = _ => destruct x eqn:?; try discriminate
           | (let (_, _) := ?x in _) = _ => destruct x eqn:?
           end;
      by injection Hnew as <-. }
  destruct Hfresh as (Hinfo & Hlogs & Herrs).
  assert (Hclean : cleanupAllFiles c = [])
    by (unfold cleanupAllFiles; by rewrite Hinfo, Hlogs, Herrs).
  subst r. rewrite Fetch_unfold.
  destruct (negb _);
    [split; intros _; [exact Hclean|cbn [fst snd]; by rewrite Hinfo]|].
  destruct (verifyRefAndCommit_calls env c w) as (calls & Hcalls & Hsame).
  destruct (verifyRefAndCommit env c w) as [[ok err] w1]. cbn [snd] in Hcalls.
  subst w1.
  destruct (fetchSourcesFromGitRepo_cases env c (calls ++ w))
    as (Hfailed & Hcloned & _).
  rewrite Hsame in Hcloned.
  destruct err as [err|], (forceCheckout c), ok; simpl;
    try (split; intros _; [exact Hclean|cbn [fst snd]; by rewrite Hinfo]).
  all: destruct (fetchSourcesFromGitRepo env c (calls ++ w)) as [[c2 [err2|]] w2];
    cbn [fst snd] in *.
  all: split; [destruct Hcloned as [[-> _]|Hone]; [intros _; exact Hclean|lia]|].
  all: try done.
  all: intros _; by rewrite Hfailed, Hinfo.
Qed.

Lemma cleanupAllFiles_after_Fetch_witness :
  let E := Sample.env Sample.at_commit1 in
  let config := Sample.config "https://example.com/org/repo"
                  (Scenario.sha1 Sample.commit1) false in
  ∃ c, newGitClient E config 0 = Ok c
       ∧ cleanupAllFiles (GitClient_Fetch E c []).1.1 = [].
Proof.
  intros E config. eexists. split; [vm_compute; reflexivity|].
  exact (proj1 (cleanupAllFiles_after_Fetch E config 0 _ [] eq_refl) eq_refl).
Defined.


(** ** What is asked of the outside *)

(* ---------- lemmas ---------- *)

Lemma only_ret {A} P (a : A) : only P (ret a).
Proof. intros w. by exists []. Qed.

Lemma only_ask {A} P (c : Call) (answer : World → A) :
  P c = true → only P (ask c answer).
Proof. intros Hc w. exists [c]. simpl. by rewrite Hc. Qed.

Lemma only_bind {A B} P (m : IO A) (k : A → IO B) :
  only P m → (∀ a, only P (k a)) → only P (bind m k).
Proof.
  intros Hm Hk w. unfold bind. destruct (m w) as [a w1] eqn:Hmw.
  destruct (Hm w) as (calls1 & Hw1 & Hcalls1). rewrite Hmw in Hw1. simpl in Hw1.
  destruct (Hk a w1) as (calls2 & -> & Hcalls2). subst w1.
  exists (calls2 ++ calls1). rewrite <- app_assoc. split; [done|].
  by rewrite forallb_app, Hcalls1, Hcalls2.
Qed.

Lemma only_weaken {A} (P Q : Call → bool) (m : IO A) :
  (∀ c, P c = true → Q c = true) → only P m → only Q m.
Proof.
  intros HPQ Hm w. destruct (Hm w) as (calls & -> & Hcalls).
  exists calls. split; [done|].
  apply forallb_forall. intros c Hc. apply HPQ.
  by eapply forallb_forall in Hcalls.
Qed.

Lemma only_no_container {A} (P : Call → bool) (m : IO A) :
  (∀ c, P c = true → is_container_run c = false) →
  only P m → no_container m.
Proof.
  intros HP Hm w. destruct (Hm w) as (calls & -> & Hcalls).
  unfold container_invocations. rewrite List.filter_app, length_app.
  replace (List.filter is_container_run calls) with (@nil Call); [done|].
  symmetry. induction calls as [|c calls IH]; [done|]. simpl in *.
  apply andb_true_iff in Hcalls as [Hc Hcalls]. by rewrite (HP c Hc), IH.
Qed.

Create HintDb only_calls.

Ltac only_calls :=
  repeat first
    [ solve [auto with only_calls nocore]
    | apply only_ret
    | apply only_ask; reflexivity
    | apply only_bind; [|intros]
    | match goal with
      | |- only _ (match ?x with _ => _ end) => destruct x
      | |- only _ (if ?x then _ else _) => destruct x
      | |- only _ (let (_, _) := ?x in _) => destruct x
      end ].


Section Calls.

Variable env : Env.

Lemma verifyRefAndCommit_only c : only git_or_directory (verifyRefAndCommit env c).
Proof.
  unfold verifyRefAndCommit.
  destruct (sourceRef c) as [ref|]; simpl; unfold Output, show_ref, rev_parse_HEAD;
    only_calls.
Qed.

Hint Resolve verifyRefAndCommit_only : only_calls.

Lemma cloneGitRepo_only c : only git_or_directory (cloneGitRepo env c).
Proof.
  unfold cloneGitRepo, runCaptured, Run. destruct (0 <? depth c); only_calls.
Qed.

Lemma checkoutGitCommit_only c : only git_or_directory (checkoutGitCommit env c).
Proof. unfold checkoutGitCommit, runCaptured, Run. only_calls. Qed.

Hint Resolve cloneGitRepo_only checkoutGitCommit_only : only_calls.

Lemma fetchSourcesFromGitRepo_only c :
  only git_or_directory (fetchSourcesFromGitRepo env c).
Proof. unfold fetchSourcesFromGitRepo. only_calls. Qed.

Hint Resolve fetchSourcesFromGitRepo_only : only_calls.

Lemma Fetch_only c : only git_or_directory (GitClient_Fetch env c).
Proof. unfold GitClient_Fetch, verifyOrFetchRepo. only_calls. Qed.

Lemma Fetch_only_setup c : only setup_call (GitClient_Fetch env c).
Proof.
  apply (only_weaken git_or_directory); [|apply Fetch_only].
  by intros [].
Qed.

Lemma inspectAndWriteArtifact_only outputFolder root path :
  only inspection_call (inspectAndWriteArtifact env outputFolder root path).
Proof. unfold inspectAndWriteArtifact, toIntotoSubject. only_calls. Qed.

Lemma inspectAndWriteArtifact_only_reads root path :
  only glob_or_read (inspectAndWriteArtifact env "" root path).
Proof. unfold inspectAndWriteArtifact, toIntotoSubject. simpl. only_calls. Qed.

Hint Resolve inspectAndWriteArtifact_only inspectAndWriteArtifact_only_reads
  : only_calls.

Lemma inspectAndWriteMatches_only outputFolder root matches :
  ∀ subjects,
    only inspection_call
      (inspectAndWriteMatches env outputFolder root subjects matches).
Proof. induction matches; intros subjects; simpl; only_calls. Qed.

Lemma inspectAndWriteMatches_only_reads root matches :
  ∀ subjects,
    only glob_or_read (inspectAndWriteMatches env "" root subjects matches).
Proof. induction matches; intros subjects; simpl; only_calls. Qed.

Hint Resolve inspectAndWriteMatches_only inspectAndWriteMatches_only_reads
  : only_calls.

Lemma inspectAndWriteArtifacts_only pattern outputFolder root :
  only inspection_call (inspectAndWriteArtifacts env pattern outputFolder root).
Proof. unfold inspectAndWriteArtifacts, Glob. only_calls. Qed.

Lemma inspectAndWriteArtifacts_only_reads pattern root :
  only glob_or_read (inspectAndWriteArtifacts env pattern "" root).
Proof. unfold inspectAndWriteArtifacts, Glob. only_calls. Qed.


End Calls.

(** X9.  Setting up the build with a git fetcher asks for nothing but
    [git rev-parse], [git show-ref], [git clone] and [git checkout], a
    directory to work in, the configuration file and a glob: whatever the
    outcome, no container is run, and no artifact is read or written. *)
Theorem SetUpBuildState_only (env : Env) (b : Builder GitClient) :
  only setup_call (SetUpBuildState env (H := GitClient_Fetcher env) b).
Proof.
  unfold SetUpBuildState, CheckExistingFiles, Glob, Fetch, GitClient_Fetcher.
  pose proof (Fetch_only_setup env). only_calls.
Qed.

(** X10.  Inspecting the artifacts asks for a glob and for files to be
    read, made absolute, created under the output folder and written;
    without an output folder, for the glob and the reads only: nothing is
    written. *)
Theorem inspectAndWriteArtifacts_calls (env : Env) (pattern root : string) :
  only glob_or_read (inspectAndWriteArtifacts env pattern "" root)
  ∧ ∀ outputFolder,
      only inspection_call
        (inspectAndWriteArtifacts env pattern outputFolder root).
Proof.
  split; [apply inspectAndWriteArtifacts_only_reads|].
  intros outputFolder. apply inspectAndWriteArtifacts_only.
Qed.


(** ** Setting up and building *)

Section BuildCommand.

Variable env : Env.

Lemma runDockerRun_unfold db w :
  runDockerRun env db w =
  match os_Getwd env w with
  | Err err => (Some (ErrGetwd err), CallGetwd :: w)
  | Ok cwd =>
      let verbose := Verbose (config db) in
      (match exec_Run env (CallGetwd :: w) verbose (docker_run db cwd) with
       | StdoutPipeFailed err => Some (ErrStdoutPipe err)
       | StderrPipeFailed err => Some (ErrStderrPipe err)
       | StartFailed err => Some (ErrStart err)
       | SaveFailed err => Some (ErrSaveLogs err)
       | WaitFailed err logs errs => Some (ErrWait err logs errs)
       | Completed _ _ => None
       end,
       CallRun verbose (docker_run db cwd) :: CallGetwd :: w)
  end.
Proof.
  unfold runDockerRun, Run, ask, bind, ret. simpl.
  by destruct (os_Getwd env w).
Qed.

Lemma SetUpBuildState_success_inv {F} `{Fetcher F} (b : Builder F) w b' db w' :
  SetUpBuildState env b w = ((b', Ok db), w') →
  ∃ fetcher w1,
    let path := BuildConfigPath (builder_config b) in
    let pattern := ArtifactPath (buildConfig db) in
    Fetch (repoFetcher b) w = ((fetcher, Ok (RepoInfo db)), w1)
    ∧ b' = {| repoFetcher := fetcher; builder_config := builder_config b |}
    ∧ config db = builder_config b
    ∧ config_LoadBuildConfigFromFile env w1 path = Ok (buildConfig db)
    ∧ filepath_bad_pattern env pattern = false
    ∧ filepath_matches env (CallLoadBuildConfigFromFile path :: w1) pattern = []
    ∧ w' = CallGlob pattern :: CallLoadBuildConfigFromFile path :: w1.
Proof.
  unfold SetUpBuildState, CheckExistingFiles, Glob, bind, ask, ret.
  destruct (Fetch (repoFetcher b) w) as [[fetcher [repoInfo|err]] w1];
    [|intros ?; simplify_eq].
  cbn [builder_config].
  destruct (config_LoadBuildConfigFromFile env w1 _) as [bc|err] eqn:Hload;
    [|intros ?; simplify_eq].
  destruct (filepath_bad_pattern env (ArtifactPath bc)) eqn:Hbad;
    [intros ?; simplify_eq|].
  destruct (filepath_matches env _ (ArtifactPath bc)) as [|m matches] eqn:Hmatches;
    simpl; intros ?; simplify_eq.
  by exists fetcher, w1.
Qed.


End BuildCommand.

(** X11.  [SetUpBuildState] succeeds exactly when its three steps do, in
    order: the fetcher, whichever it is, returns a checkout; the
    configuration file is loaded; and the artifact pattern, well formed,
    matches no file.  The build state then holds the configuration of the
    builder as it is, the checkout that the fetcher returned and the
    configuration loaded. *)
Theorem SetUpBuildState_success {F} `{Fetcher F} (env : Env) (b : Builder F)
    (w : World) (b' : Builder F) (db : DockerBuild) (w' : World) :
  SetUpBuildState env b w = ((b', Ok db), w')
  ↔ ∃ fetcher w1,
      let path := BuildConfigPath (builder_config b) in
      let pattern := ArtifactPath (buildConfig db) in
      Fetch (repoFetcher b) w = ((fetcher, Ok (RepoInfo db)), w1)
      ∧ b' = {| repoFetcher := fetcher; builder_config := builder_config b |}
      ∧ config db = builder_config b
      ∧ config_LoadBuildConfigFromFile env w1 path = Ok (buildConfig db)
      ∧ filepath_bad_pattern env pattern = false
      ∧ filepath_matches env (CallLoadBuildConfigFromFile path :: w1) pattern = []
      ∧ w' = CallGlob pattern :: CallLoadBuildConfigFromFile path :: w1.
Proof.
  split; [apply SetUpBuildState_success_inv|].
  intros (fetcher & w1 & Hfetch & -> & Hconfig & Hload & Hbad & Hmatches & ->).
  unfold SetUpBuildState, CheckExistingFiles, Glob, bind, ask, ret.
  rewrite Hfetch. cbn [builder_config]. rewrite Hload, Hbad, Hmatches. simpl.
  destruct db. simpl in *. by subst.
Qed.

(** X12.  The build command.  [runDockerRun] never fails for want of
    container-based parameters.  When the working directory cannot be
    found, nothing is run.  Otherwise one command is run, which is
    [docker run] with the working directory mounted at [/workspace], the
    builder image by its digest and the words of the build command as they
    are; and [runDockerRun] succeeds exactly when that command completes. *)
Theorem runDockerRun_command (env : Env) (db : DockerBuild) (w : World) :
  (runDockerRun env db w).1 ≠ Some ErrExpectedContainerBased
  ∧ match os_Getwd env w with
    | Err err => runDockerRun env db w = (Some (ErrGetwd err), CallGetwd :: w)
    | Ok cwd =>
        let run := exec_Run env (CallGetwd :: w) (Verbose (config db))
                     (docker_run db cwd) in
        (runDockerRun env db w).2
        = CallRun (Verbose (config db)) (docker_run db cwd) :: CallGetwd :: w
        ∧ ((runDockerRun env db w).1 = None
           ↔ ∃ logs errs, run = Completed logs errs)
    end.
Proof.
  rewrite runDockerRun_unfold.
  destruct (os_Getwd env w) as [cwd|err]; [|done]. cbv zeta. cbn [fst snd].
  destruct (exec_Run env _ _ _) as [| | | | |logs errs];
    (split; [done|]); (split; [done|]);
    (split; [try done|intros (? & ? & ?); done]).
  intros _. by exists logs, errs.
Qed.

(** X13.  Whenever [BuildArtifacts] returns subjects, the build command was
    run once, in a container, and completed; the pattern is well formed and
    there are as many subjects as files that match it after the build, at
    least one. *)
Theorem BuildArtifacts_success (env : Env) (db : DockerBuild)
    (outputFolder : string) (w : World) (subjects : list Subject) (w' : World) :
  BuildArtifacts env db outputFolder w = (Ok subjects, w') →
  ∃ cwd logs errs,
    let pattern := ArtifactPath (buildConfig db) in
    let run := CallRun (Verbose (config db)) (docker_run db cwd) in
    os_Getwd env w = Ok cwd
    ∧ exec_Run env (CallGetwd :: w) (Verbose (config db)) (docker_run db cwd)
      = Completed logs errs
    ∧ filepath_bad_pattern env pattern = false
    ∧ length subjects
      = length (filepath_matches env (run :: CallGetwd :: w) pattern)
    ∧ subjects ≠ []
    ∧ container_invocations w' = S (container_invocations w).
Proof.
  rewrite BuildArtifacts_unfold, runDockerRun_unfold.
  destruct (os_Getwd env w) as [cwd|err]; [|intros ?; simplify_eq]. cbv zeta.
  destruct (exec_Run env _ _ _) as [| | | | |logs errs] eqn:Hrun;
    try (by intros ?; simplify_eq).
  unfold Glob, ask. cbn [fst].
  destruct (filepath_bad_pattern env _) eqn:Hbad; [intros ?; simplify_eq|].
  destruct (filepath_matches env _ _) as [|m matches] eqn:Hmatches;
    [intros ?; simplify_eq|].
  intros Hinspect. exists cwd, logs, errs. cbv zeta.
  split; [done|]. split; [done|]. split; [done|].
  pose proof (only_no_container inspection_call _ (λ c, ltac:(by destruct c))
                (inspectAndWriteMatches_only env outputFolder
                   (RepoRoot (RepoInfo db)) (m :: matches) [])
                (CallGlob (ArtifactPath (buildConfig db))
                   :: CallRun (Verbose (config db)) (docker_run db cwd)
                   :: CallGetwd :: w)) as Hnone.
  rewrite Hinspect in Hnone. cbn [snd] in Hnone.
  apply inspectAndWriteMatches_length in Hinspect as (found & -> & Hlen).
  rewrite Hmatches.
  split; [done|]. split; [by destruct found|].
  rewrite Hnone. unfold container_invocations, docker_run. reflexivity.
Qed.

Lemma BuildArtifacts_success_witness :
  let E := Sample.env Sample.at_commit1 in
  ∃ subjects w',
    BuildArtifacts E Scenario.build "" [] = (Ok subjects, w')
    ∧ subjects ≠ []
    ∧ container_invocations w' = 1%nat.
Proof.
  intros E. eexists _, _.
  assert (Hbuild : BuildArtifacts E Scenario.build "" [] = (Ok _, _))
    by (vm_compute; reflexivity).
  split; [exact Hbuild|].
  destruct (BuildArtifacts_success E Scenario.build "" [] _ _ Hbuild)
    as (cwd & logs & errs & _ & _ & _ & _ & Hsome & Hone).
  split; [exact Hsome|exact Hone].
Defined.

(** X14.  The artifacts of a build were not there before it, and are
    described as they are after it.  If [SetUpBuildState] succeeds and
    [BuildArtifacts] then returns subjects, the artifact pattern matched no
    file at the last step of the set-up; after that, only the working
    directory was asked for and the build command run; and the subjects
    are the descriptors of the files that match the pattern after the
    build, of which there is at least one, each read after the build, at
    its turn in the inspection. *)
Theorem built_artifacts_are_new {F} `{Fetcher F} (env : Env) (b : Builder F)
    (w : World) (b' : Builder F) (db : DockerBuild) (w1 : World)
    (outputFolder : string) (subjects : list Subject) (w2 : World) :
  SetUpBuildState env b w = ((b', Ok db), w1) →
  BuildArtifacts env db outputFolder w1 = (Ok subjects, w2) →
  ∃ w0 cwd,
    let pattern := ArtifactPath (buildConfig db) in
    let built := CallRun (Verbose (config db)) (docker_run db cwd)
                   :: CallGetwd :: w1 in
    w1 = CallGlob pattern :: w0
    ∧ filepath_matches env w0 pattern = []
    ∧ inspected env outputFolder (RepoRoot (RepoInfo db))
        (CallGlob pattern :: built) (filepath_matches env built pattern)
        subjects w2
    ∧ subjects ≠ [].
Proof.
  intros (fetcher & w0 & _ & _ & _ & _ & _ & Hbefore & ->)%SetUpBuildState_success_inv.
  rewrite BuildArtifacts_unfold, runDockerRun_unfold.
  destruct (os_Getwd env _) as [cwd|err]; [|intros ?; simplify_eq]. cbv zeta.
  destruct (exec_Run env _ _ _) as [| | | | |logs errs];
    try (by intros ?; simplify_eq).
  unfold Glob, ask. cbn [fst].
  destruct (filepath_bad_pattern env _); [intros ?; simplify_eq|].
  match goal with
  | |- context [filepath_matches env (CallRun ?v ?argv :: ?w1) ?p] =>
      destruct (filepath_matches env (CallRun v argv :: w1) p)
        as [|m matches] eqn:Hmatches; [intros ?; simplify_eq|]
  end.
  intros (found & -> & Hfound)%inspectAndWriteMatches_inspected.
  eexists _, cwd. cbv zeta. split; [done|]. split; [exact Hbefore|].
  rewrite Hmatches. split; [done|].
  apply inspected_length in Hfound. by destruct found.
Qed.

Lemma built_artifacts_are_new_witness :
  let E := Scenario.produced (Sample.env Sample.at_commit1) in
  let b := {| repoFetcher := Scenario.client None
                               (Scenario.sha1 Sample.commit1) false;
              builder_config := Sample.config "https://example.com/org/repo"
                                  (Scenario.sha1 Sample.commit1) false |} in
  ∃ b' db w1 subjects w2 w0 cwd,
    let pattern := ArtifactPath (buildConfig db) in
    let built := CallRun (Verbose (config db)) (docker_run db cwd)
                   :: CallGetwd :: w1 in
    SetUpBuildState E (H := GitClient_Fetcher E) b [] = ((b', Ok db), w1)
    ∧ BuildArtifacts E db "/out" w1 = (Ok subjects, w2)
    ∧ w1 = CallGlob pattern :: w0
    ∧ filepath_matches E w0 pattern = []
    ∧ inspected E "/out" (RepoRoot (RepoInfo db)) (CallGlob pattern :: built)
        (filepath_matches E built pattern) subjects w2.
Proof.
  intros E b. eexists _, _, _, _, _.
  assert (Hsetup : SetUpBuildState E (H := GitClient_Fetcher E) b []
                   = ((_, Ok _), _)) by (vm_compute; reflexivity).
  match type of Hsetup with
  | _ = ((_, Ok ?db), ?w1) =>
      assert (Hbuild : BuildArtifacts E db "/out" w1 = (Ok _, _))
        by (vm_compute; reflexivity)
  end.
  destruct (built_artifacts_are_new (H := GitClient_Fetcher E) E b [] _ _ _
              "/out" _ _ Hsetup Hbuild) as (w0 & cwd & Hw1 & Hbefore & Hafter & _).
  exists w0, cwd. cbv zeta. split; [exact Hsetup|]. split; [exact Hbuild|].
  split; [exact Hw1|]. split; [exact Hbefore|exact Hafter].
Defined.

(** X15.  The check before the build and the inspection after it count the
    same files: on one and the same state of the file system, if the check
    passes, the inspection finds no file; and if the inspection returns [n]
    subjects, the check reports [n] existing files. *)
Theorem CheckExistingFiles_agrees (env : Env)
    (pattern outputFolder root : string) (w : World) :
  ((CheckExistingFiles env pattern w).1 = None →
   inspectAndWriteArtifacts env pattern outputFolder root w
   = (Err (ErrNoFilesMatching pattern), CallGlob pattern :: w))
  ∧ ∀ subjects w',
      inspectAndWriteArtifacts env pattern outputFolder root w
      = (Ok subjects, w') →
      (CheckExistingFiles env pattern w).1
      = Some (ErrExistingFiles pattern (length subjects)).
Proof.
  rewrite CheckExistingFiles_unfold.
  unfold inspectAndWriteArtifacts, Glob, bind, ask, ret. cbn [fst].
  destruct (filepath_bad_pattern env pattern); [split; [done|]; intros; simplify_eq|].
  destruct (filepath_matches env w pattern) as [|m matches]; cbn [length Nat.eqb].
  - split; [done|]. intros; simplify_eq.
  - split; [done|].
    intros subjects w' (found & -> & Hfound)%inspectAndWriteMatches_length.
    cbn [app]. cbn [length] in Hfound.
    by rewrite Hfound.
Qed.


(** ** Copies of the artifacts *)

Section Copies.

Variable env : Env.

Lemma inspectAndWriteArtifact_copy outputFolder root path w subject w' :
  outputFolder ≠ "" →
  inspectAndWriteArtifact env outputFolder root path w = (Ok subject, w') →
  ∃ calls, w' = calls ++ w ∧ copied env outputFolder calls path subject.
Proof.
  intros Hfolder%String.eqb_neq.
  unfold inspectAndWriteArtifact, toIntotoSubject, bind, ask, ret, copied.
  rewrite Hfolder.
  destruct (utils_SafeReadFile env w path) as [data|err]; [|intros ?; simplify_eq].
  destruct (String.eqb root "").
  - destruct (filepath_Rel env root path) as [relPath|]; [|intros ?; simplify_eq].
    destruct (utils_CreateNewFileUnderDirectory _ _ _ _); [intros ?; simplify_eq|].
    destruct (file_Write _ _ _ _ _); intros ?; simplify_eq.
    eexists [_; _; _]. split; [done|]. exists relPath, data. split; [|done].
    set_solver.
  - destruct (filepath_Abs env _ path) as [path'|]; [|intros ?; simplify_eq].
    destruct (filepath_Rel env root path') as [relPath|]; [|intros ?; simplify_eq].
    destruct (utils_CreateNewFileUnderDirectory _ _ _ _); [intros ?; simplify_eq|].
    destruct (file_Write _ _ _ _ _); intros ?; simplify_eq.
    eexists [_; _; _; _]. split; [done|]. exists relPath, data. split; [|done].
    set_solver.
Qed.

Lemma inspectAndWriteMatches_copies outputFolder root matches :
  outputFolder ≠ "" →
  ∀ subjects w result w',
    inspectAndWriteMatches env outputFolder root subjects matches w
    = (Ok result, w') →
    ∃ found calls,
      result = subjects ++ found ∧ w' = calls ++ w
      ∧ Forall2 (copied env outputFolder calls) matches found.
Proof.
  intros Hfolder.
  induction matches as [|path matches IH]; intros subjects w result w'; simpl.
  - unfold ret. intros [= <- <-]. exists [], []. by rewrite app_nil_r.
  - unfold bind.
    destruct (inspectAndWriteArtifact env outputFolder root path w)
      as [[subject|err] w1] eqn:Hone; [|unfold ret; intros ?; simplify_eq].
    apply inspectAndWriteArtifact_copy in Hone as (calls1 & -> & Hone); [|done].
    intros (found & calls2 & -> & -> & Hfound)%IH.
    exists (subject :: found), (calls2 ++ calls1).
    rewrite <- !app_assoc. split; [done|]. split; [done|].
    constructor.
    + destruct Hone as (relPath & data & Hin & ->).
      exists relPath, data. split; [set_solver|done].
    + eapply Forall2_impl; [exact Hfound|].
      intros p s (relPath & data & Hin & ->).
      exists relPath, data. split; [set_solver|done].
Qed.

(** An inspection asks for one write for each file, if there is an output
    folder, and for none if there is none. *)
Lemma inspected_writes outputFolder root w paths subjects w' :
  inspected env outputFolder root w paths subjects w' →
  ∃ calls,
    w' = calls ++ w
    ∧ writes calls
      = if String.eqb outputFolder "" then 0%nat else length paths.
Proof.
  induction 1 as [w|w path data w1 paths subjects w' Hread Hcopy _ IH].
  - exists []. split; [done|]. by destruct (String.eqb outputFolder "").
  - destruct IH as (calls & -> & Hwrites).
    unfold copy_written in Hcopy.
    destruct (String.eqb outputFolder "").
    + subst w1. exists (calls ++ [CallSafeReadFile path]).
      rewrite <- app_assoc. split; [done|].
      unfold writes in *. rewrite List.filter_app, length_app, Hwrites.
      reflexivity.
    + destruct Hcopy as (absolute & relPath & w2 & Habs & _ & _ & _ & ->).
      destruct (String.eqb root "").
      * destruct Habs as [_ ->].
        exists (calls ++ [CallWrite relPath outputFolder data;
                          CallCreateNewFileUnderDirectory relPath outputFolder;
                          CallSafeReadFile path]).
        rewrite <- app_assoc. split; [done|].
        unfold writes in *. rewrite List.filter_app, length_app, Hwrites.
        simpl. lia.
      * destruct Habs as [_ ->].
        exists (calls ++ [CallWrite relPath outputFolder data;
                          CallCreateNewFileUnderDirectory relPath outputFolder;
                          CallAbs path; CallSafeReadFile path]).
        rewrite <- app_assoc. split; [done|].
        unfold writes in *. rewrite List.filter_app, length_app, Hwrites.
        simpl. lia.
Qed.

(** The loop goes on from where an inspection of the first files ends. *)
Lemma inspectAndWriteMatches_app outputFolder root w pre found w1 :
  inspected env outputFolder root w pre found w1 →
  ∀ subjects rest,
    inspectAndWriteMatches env outputFolder root subjects (pre ++ rest) w
    = inspectAndWriteMatches env outputFolder root (subjects ++ found) rest w1.
Proof.
  induction 1 as [w|w path data w1 paths found w' Hread Hcopy _ IH];
    intros subjects rest.
  - by rewrite app_nil_r.
  - cbn [app inspectAndWriteMatches]. unfold bind at 1.
    assert (Hone : inspectAndWriteArtifact env outputFolder root path w
                   = (Ok (artifact env path data), w1))
      by (apply inspectAndWriteArtifact_inspected; by exists data).
    rewrite Hone, IH. by rewrite <- app_assoc.
Qed.


End Copies.

(** X16.  With an output folder, every subject returned has its copy: for
    each file that matched, in order, the bytes whose digest the subject
    carries were written under the output folder. *)
Theorem inspectAndWriteArtifacts_copies (env : Env)
    (pattern outputFolder root : string) (w : World)
    (subjects : list Subject) (w' : World) :
  outputFolder ≠ "" →
  inspectAndWriteArtifacts env pattern outputFolder root w = (Ok subjects, w') →
  ∃ calls,
    w' = calls ++ w
    ∧ Forall2 (copied env outputFolder calls)
        (filepath_matches env w pattern) subjects.
Proof.
  intros Hfolder. unfold inspectAndWriteArtifacts, Glob, bind, ask, ret.
  destruct (filepath_bad_pattern env pattern); [intros ?; simplify_eq|].
  destruct (length _ =? 0)%nat; [intros ?; simplify_eq|].
  intros (found & calls & -> & -> & Hfound)%inspectAndWriteMatches_copies;
    [|done].
  exists (calls ++ [CallGlob pattern]). rewrite <- app_assoc. split; [done|].
  eapply Forall2_impl; [exact Hfound|].
  intros p s (relPath & data & Hin & ->).
  exists relPath, data. split; [set_solver|done].
Qed.

Lemma inspectAndWriteArtifacts_copies_witness :
  let built :=
    {| Sample.head := Some Sample.commit1; Sample.refs := [];
       Sample.before := ["dist/app.tar.gz"]; Sample.after := [];
       Sample.readable := true; Sample.writable := true |} in
  let E := Sample.env built in
  ∃ subjects w' calls,
    inspectAndWriteArtifacts E "dist/*.tar.gz" "out" "" [] = (Ok subjects, w')
    ∧ w' = calls ++ []
    ∧ Forall2 (copied E "out" calls) ["dist/app.tar.gz"] subjects.
Proof.
  intros built E. eexists _, _.
  assert (Hinspect : inspectAndWriteArtifacts E "dist/*.tar.gz" "out" "" []
                     = (Ok _, _)) by (vm_compute; reflexivity).
  destruct (inspectAndWriteArtifacts_copies E "dist/*.tar.gz" "out" "" [] _ _
              ltac:(discriminate) Hinspect) as (calls & Hcalls & Hcopied).
  exists calls. split; [exact Hinspect|]. split; [exact Hcalls|exact Hcopied].
Defined.

(** X17.  The inspection stops at the first file that cannot be read.  Let
    the pattern match the files [pre], then [bad], then [post]; let the
    inspection of the files of [pre] succeed and lead to the history [w1],
    and let the read of [bad], asked for then, fail.  Then the error is
    the one for [bad], no subject is returned, and the read of [bad] is
    the last thing asked for: the files of [post] are not looked at.  With
    an output folder, the copies of the files of [pre] have been written by
    then, and stay. *)
Theorem inspectAndWriteArtifacts_first_failure (env : Env)
    (pattern outputFolder root : string) (w : World)
    (pre : list string) (bad : string) (post : list string) (err : Error)
    (subjects : list Subject) (w1 : World) :
  filepath_bad_pattern env pattern = false →
  filepath_matches env w pattern = pre ++ bad :: post →
  inspected env outputFolder root (CallGlob pattern :: w) pre subjects w1 →
  utils_SafeReadFile env w1 bad = Err err →
  ∃ calls,
    inspectAndWriteArtifacts env pattern outputFolder root w
    = (Err (ErrReadFile bad err),
       CallSafeReadFile bad :: calls ++ CallGlob pattern :: w)
    ∧ w1 = calls ++ CallGlob pattern :: w
    ∧ writes calls = if String.eqb outputFolder "" then 0%nat else length pre.
Proof.
  intros Hpattern Hmatches Hpre Hbad.
  destruct (inspected_writes env _ _ _ _ _ _ Hpre) as (calls & Hw1 & Hwrites).
  exists calls. split; [|done]. rewrite <- Hw1.
  unfold inspectAndWriteArtifacts, Glob, bind, ask, ret.
  rewrite Hpattern, Hmatches.
  replace (length (pre ++ bad :: post) =? 0)%nat with false
    by (symmetry; apply Nat.eqb_neq; rewrite length_app; simpl; lia).
  rewrite (inspectAndWriteMatches_app env _ _ _ _ _ _ Hpre).
  cbn [inspectAndWriteMatches]. unfold inspectAndWriteArtifact, bind, ask, ret.
  by rewrite Hbad.
Qed.

Lemma inspectAndWriteArtifacts_first_failure_witness :
  let machine :=
    {| Sample.head := Some Sample.commit1; Sample.refs := [];
       Sample.before := [];
       Sample.after := ["dist/a.tar.gz"; "dist/b.tar.gz"; "dist/c.tar.gz"];
       Sample.readable := true; Sample.writable := true |} in
  let E := Scenario.unreadable (Scenario.produced (Sample.env machine))
             "dist/b.tar.gz" in
  let built := [CallRun false (docker_run Scenario.build "/work");
                CallGetwd] in
  let copy_a := [CallWrite "dist/a.tar.gz" "/out" "contents of dist/a.tar.gz";
                 CallCreateNewFileUnderDirectory "dist/a.tar.gz" "/out";
                 CallSafeReadFile "dist/a.tar.gz"] in
  ∃ calls,
    inspectAndWriteArtifacts E "dist/*.tar.gz" "/out" "" built
    = (Err (ErrReadFile "dist/b.tar.gz" (ErrExternal "permission denied")),
       CallSafeReadFile "dist/b.tar.gz"
         :: calls ++ CallGlob "dist/*.tar.gz" :: built)
    ∧ copy_a ++ CallGlob "dist/*.tar.gz" :: built
      = calls ++ CallGlob "dist/*.tar.gz" :: built
    ∧ writes calls = 1%nat.
Proof.
  intros machine E built copy_a.
  apply (inspectAndWriteArtifacts_first_failure E "dist/*.tar.gz" "/out" "" built
           ["dist/a.tar.gz"] "dist/b.tar.gz" ["dist/c.tar.gz"]
           (ErrExternal "permission denied")
           [artifact E "dist/a.tar.gz" "contents of dist/a.tar.gz"]
           (copy_a ++ CallGlob "dist/*.tar.gz" :: built) eq_refl eq_refl).
  - econstructor; [reflexivity| |constructor].
    exists "dist/a.tar.gz", "dist/a.tar.gz",
      (CallSafeReadFile "dist/a.tar.gz" :: CallGlob "dist/*.tar.gz" :: built).
    repeat split; reflexivity.
  - reflexivity.
Defined.


(** ** Provenance, continued *)

(** X18.  A statement that [ParseProvenance] returns holds container-based
    external parameters, so that [ToDockerBuildConfig] never fails on it
    for the cast. *)
Theorem ParseProvenance_container_based (env : Env) (bytes : json)
    (statement : ProvenanceStatementSLSA1) :
  ParseProvenance env bytes = Ok statement →
  (∃ ep, ExternalParameters (BuildDefinition (Predicate statement))
         = EPContainerBased ep)
  ∧ ∀ validateDockerImage forceCheckout,
      ToDockerBuildConfig validateDockerImage statement forceCheckout
      ≠ Err ErrCastExternalParameters.
Proof.
  unfold ParseProvenance.
  destruct (Statement.unmarshal env bytes _) as [statement0|]; [|done].
  destruct (Json.unmarshal_ContainerBasedExternalParameters env _ _) as [ep|];
    [|done].
  intros [= <-]. split; [by exists ep|].
  intros validateDockerImage forceCheckout. unfold ToDockerBuildConfig.
  cbn [with_ExternalParameters Predicate BuildDefinition ExternalParameters].
  destruct (validateDockerImage _); [|done].
  destruct (negb _); [done|].
  by destruct (_ !! "sha1").
Qed.

Lemma ParseProvenance_container_based_witness :
  let E := Sample.env Sample.at_commit1 in
  ∃ statement ep,
    ParseProvenance E
      (Statement.marshal (statement_of Scenario.header (CreateBuildDefinition Scenario.build) ANil))
    = Ok statement
    ∧ ExternalParameters (BuildDefinition (Predicate statement))
      = EPContainerBased ep.
Proof.
  intros E. eexists _.
  assert (Hparse : ParseProvenance E
                     (Statement.marshal
                        (statement_of Scenario.header (CreateBuildDefinition Scenario.build) ANil))
                   = Ok _) by (vm_compute; reflexivity).
  destruct (ParseProvenance_container_based E _ _ Hparse) as [[ep Hep] _].
  exists ep. split; [exact Hparse|exact Hep].
Defined.

(** X19.  A document that is no object.  [ParseProvenance] refuses a
    boolean, a number, a string and an array.  It accepts [null], and an
    object without members as well: no member is required, and what comes
    out is the empty statement with empty container-based external
    parameters, from which no configuration can be reconstructed,
    whatever the checker of image references. *)
Theorem ParseProvenance_no_object (env : Env) (bytes : json) :
  match bytes with
  | JObject (_ :: _) => True
  | JNull | JObject [] =>
      ParseProvenance env bytes
      = Ok (with_ExternalParameters Zero.ProvenanceStatementSLSA1
              (EPContainerBased Zero.ContainerBasedExternalParameters))
      ∧ ∀ validateDockerImage forceCheckout statement,
          ParseProvenance env bytes = Ok statement →
          is_ok (ToDockerBuildConfig validateDockerImage statement forceCheckout)
          = false
  | _ =>
      ParseProvenance env bytes
      = Err (ErrUnmarshalProvenance Json.UnmarshalTypeError)
  end.
Proof.
  assert (Hzero : ∀ validateDockerImage forceCheckout,
             is_ok (ToDockerBuildConfig validateDockerImage
                      (with_ExternalParameters Zero.ProvenanceStatementSLSA1
                         (EPContainerBased Zero.ContainerBasedExternalParameters))
                      forceCheckout) = false).
  { intros validateDockerImage forceCheckout. unfold ToDockerBuildConfig. cbn.
    destruct (validateDockerImage "") as [di|]; [|done].
    by destruct (negb _). }
  destruct bytes as [| | | | |[|member members]]; try done.
  - split; [done|]. intros ??? [= <-]. apply Hzero.
  - split; [done|]. intros ??? [= <-]. apply Hzero.
Qed.

(** X20.  Whatever the checker of image references: a configuration that
    [ToDockerBuildConfig] returns has a sha1 source digest, the value that
    the statement gives for [sha1]; it is not verbose; its force-checkout
    is the one asked for; its builder image is what the checker made of the
    reference.  So the git client made for it is never refused by [Fetch]
    for its digest algorithm. *)
Theorem ToDockerBuildConfig_success
    (validateDockerImage : string → result DockerImage)
    (p : ProvenanceStatementSLSA1) (forceCheckout : bool)
    (config : DockerBuildConfig) :
  ToDockerBuildConfig validateDockerImage p forceCheckout = Ok config →
  (∃ ep,
     ExternalParameters (BuildDefinition (Predicate p)) = EPContainerBased ep
     ∧ validateDockerImage (URI (EPBuilderImage ep)) = Ok (BuilderImage config)
     ∧ RDDigest (EPSource ep) !! "sha1" = Some (Value (SourceDigest config))
     ∧ SourceRepo config = URI (EPSource ep)
     ∧ BuildConfigPath config = ConfigPath ep)
  ∧ Alg (SourceDigest config) = "sha1"
  ∧ ForceCheckout config = forceCheckout
  ∧ Verbose config = false
  ∧ ∀ env depth c w,
      newGitClient env config depth = Ok c →
      (GitClient_Fetch env c w).1.2 ≠ Err ErrNotSha1.
Proof.
  unfold ToDockerBuildConfig.
  destruct (ExternalParameters _) as [|ep]; [done|].
  destruct (validateDockerImage _) as [di|] eqn:Hvalid; [|done].
  destruct (negb _); [done|].
  destruct (RDDigest (EPSource ep) !! "sha1") as [val|] eqn:Hsha1; [|done].
  intros Hconfig. injection Hconfig as <-. cbn.
  split; [by exists ep|]. repeat split.
  intros env depth c w (Hdigest & _ & _)%newGitClient_fields.
  apply Fetch_sha1_not_rejected. by rewrite Hdigest.
Qed.

Lemma ToDockerBuildConfig_success_witness :
  let ep :=
    {| EPSource := {| URI := "https://example.com/org/repo";
                      RDDigest := {[ "sha1" := Sample.commit1 ]} |};
       EPBuilderImage := {| URI := "example.com/img@sha256:abcd";
                            RDDigest := {[ "sha256" := "abcd" ]} |};
       ConfigPath := "Scenario.build.toml";
       Config := {| Command := ["make"]; ArtifactPath := "dist/*" |} |} in
  let p := with_ExternalParameters Zero.ProvenanceStatementSLSA1
             (EPContainerBased ep) in
  ∃ config,
    ToDockerBuildConfig Sample.validateDockerImage p true = Ok config
    ∧ Alg (SourceDigest config) = "sha1"
    ∧ ForceCheckout config = true
    ∧ Verbose config = false.
Proof.
  intros ep p. eexists.
  assert (Hconfig : ToDockerBuildConfig Sample.validateDockerImage p true = Ok _)
    by (vm_compute; reflexivity).
  destruct (ToDockerBuildConfig_success Sample.validateDockerImage p true _ Hconfig)
    as (_ & Halg & Hforce & Hverbose & _).
  split; [exact Hconfig|]. split; [exact Halg|]. split; [exact Hforce|exact Hverbose].
Defined.

(** X21.  The digest declared for the builder image is looked up without
    asking whether it is there.  When the statement declares no digest for
    the algorithm of the image reference, the check of the image digest
    compares with the empty string: it fails exactly when the digest value
    of the reference is not empty. *)
Theorem ToDockerBuildConfig_undeclared_image_digest
    (validateDockerImage : string → result DockerImage)
    (p : ProvenanceStatementSLSA1) (forceCheckout : bool)
    (ep : ContainerBasedExternalParameters) (di : DockerImage) :
  ExternalParameters (BuildDefinition (Predicate p)) = EPContainerBased ep →
  validateDockerImage (URI (EPBuilderImage ep)) = Ok di →
  RDDigest (EPBuilderImage ep) !! Alg (ImageDigest di) = None →
  ToDockerBuildConfig validateDockerImage p forceCheckout
  = Err ErrInvalidImageDigest
  ↔ Value (ImageDigest di) ≠ "".
Proof.
  intros Hep Hvalid Hnone. unfold ToDockerBuildConfig, index.
  rewrite Hep, Hvalid, Hnone. cbn [default].
  destruct (String.eqb (Value (ImageDigest di)) "") eqn:Hvalue; cbn [negb].
  - apply String.eqb_eq in Hvalue. split; [|done].
    by destruct (RDDigest (EPSource ep) !! "sha1").
  - by apply String.eqb_neq in Hvalue.
Qed.

Lemma ToDockerBuildConfig_undeclared_image_digest_witness :
  let ep :=
    {| EPSource := {| URI := "https://example.com/org/repo";
                      RDDigest := {[ "sha1" := Sample.commit1 ]} |};
       EPBuilderImage := {| URI := "example.com/img@sha256:abcd";
                            RDDigest := {[ "sha512" := "abcd" ]} |};
       ConfigPath := "Scenario.build.toml";
       Config := {| Command := ["make"]; ArtifactPath := "dist/*" |} |} in
  let p := with_ExternalParameters Zero.ProvenanceStatementSLSA1
             (EPContainerBased ep) in
  ToDockerBuildConfig Sample.validateDockerImage p false
  = Err ErrInvalidImageDigest.
Proof.
  intros ep p.
  apply (ToDockerBuildConfig_undeclared_image_digest Sample.validateDockerImage
           p false ep Sample.image eq_refl eq_refl eq_refl).
  discriminate.
Defined.

(** Reconstruction reads nothing of a statement but its external
    parameters. *)
Lemma ToDockerBuildConfig_ExternalParameters
    (validateDockerImage : string → result DockerImage)
    (p p' : ProvenanceStatementSLSA1) (forceCheckout : bool) :
  ExternalParameters (BuildDefinition (Predicate p))
  = ExternalParameters (BuildDefinition (Predicate p')) →
  ToDockerBuildConfig validateDockerImage p forceCheckout
  = ToDockerBuildConfig validateDockerImage p' forceCheckout.
Proof. unfold ToDockerBuildConfig. by intros ->. Qed.

Lemma reconstruct_CreateBuildDefinition
    (validateDockerImage : string → result DockerImage) (db : DockerBuild)
    (header : StatementHeader) (runDetails : any) (forceCheckout : bool) :
  validateDockerImage (ToString (BuilderImage (config db)))
  = Ok (BuilderImage (config db)) →
  ToDockerBuildConfig validateDockerImage
    (statement_of header (CreateBuildDefinition db) runDetails) forceCheckout
  = if String.eqb (Alg (SourceDigest (config db))) "sha1"
    then Ok (reconstructed (config db) forceCheckout)
    else Err ErrMissingSha1.
Proof.
  intros Hvalid. unfold ToDockerBuildConfig, reconstructed.
  cbn [statement_of Predicate BuildDefinition CreateBuildDefinition
         ExternalParameters EPBuilderImage EPSource builderImage sourceArtifact
         URI RDDigest ConfigPath].
  rewrite Hvalid. unfold index, ToMap.
  rewrite lookup_singleton_eq. cbn [default]. rewrite String.eqb_refl.
  cbn [negb].
  destruct (String.eqb (Alg (SourceDigest (config db))) "sha1") eqn:Halg.
  - apply String.eqb_eq in Halg. rewrite Halg, lookup_singleton_eq.
    destruct (SourceDigest (config db)) as [alg value]. simpl in *. by subst.
  - apply String.eqb_neq in Halg. by rewrite lookup_singleton_ne.
Qed.

(** X22.  From a build to its provenance and back to the configuration.
    For a build whose strings are valid UTF-8, and a checker of image
    references that reads the reference of the builder image back as that
    image: the written form of a statement that carries the build
    definition is parsed, and the configuration reconstructed from what was
    parsed is the configuration of the build, with the force-checkout asked
    for and not verbose, if the source digest is a sha1 digest; otherwise
    reconstruction fails for want of a sha1 digest. *)
Theorem provenance_gives_configuration_back (env : Env)
    (validateDockerImage : string → result DockerImage) (db : DockerBuild)
    (header : StatementHeader) (runDetails : any) (forceCheckout : bool) :
  utf8_valid db = true →
  validateDockerImage (ToString (BuilderImage (config db)))
  = Ok (BuilderImage (config db)) →
  ∃ statement,
    ParseProvenance env
      (Statement.marshal
         (statement_of header (CreateBuildDefinition db) runDetails))
    = Ok statement
    ∧ ToDockerBuildConfig validateDockerImage statement forceCheckout
      = if String.eqb (Alg (SourceDigest (config db))) "sha1"
        then Ok (reconstructed (config db) forceCheckout)
        else Err ErrMissingSha1.
Proof.
  unfold utf8_valid. rewrite !andb_true_iff, forallb_forall.
  intros ((((((((Hrepo & Halg) & Hvalue) & Hname) & Himage_alg) & Himage_value)
             & Hpath) & Hcommand) & Hartifact) Hvalid.
  unfold ParseProvenance.
  destruct (unmarshal_Statement_marshal env
              (statement_of header (CreateBuildDefinition db) runDetails))
    as (statement0 & -> & Hgeneric).
  rewrite Hgeneric. cbn [statement_of Predicate BuildDefinition
                           CreateBuildDefinition ExternalParameters
                           Json.marshal_ExternalParametersValue].
  fold (remarshal
          (Json.marshal_ContainerBasedExternalParameters
             {| EPSource := sourceArtifact (config db);
                EPBuilderImage := builderImage (config db);
                ConfigPath := BuildConfigPath (config db);
                Config := buildConfig db |})).
  erewrite (ExternalParameters_round_trip env); try reflexivity; try done.
  - eexists. split; [reflexivity|].
    rewrite <- (reconstruct_CreateBuildDefinition _ db header runDetails)
      by done.
    by apply ToDockerBuildConfig_ExternalParameters.
  - unfold builderImage, ToString. cbn [EPBuilderImage URI].
    repeat apply ValidString_app; done.
  - apply Forall_forall. intros s Hs. apply Hcommand.
    by apply list_elem_of_In.
Qed.

Lemma provenance_gives_configuration_back_witness :
  let E := Sample.env Sample.at_commit1 in
  ∃ statement,
    ParseProvenance E
      (Statement.marshal (statement_of Scenario.header (CreateBuildDefinition Scenario.build) ANil))
    = Ok statement
    ∧ ToDockerBuildConfig Sample.validateDockerImage statement true
      = Ok (reconstructed (config Scenario.build) true).
Proof.
  intros E.
  exact (provenance_gives_configuration_back E Sample.validateDockerImage Scenario.build
           Scenario.header ANil true eq_refl eq_refl).
Defined.


(** *** What is written is valid UTF-8 *)

Section Utf8Coercion.

Import utf8 strings.

Lemma coerce_from_pending n : ∀ s,
  (n ≤ len s)%nat →
  coerce_from n s = take n s +:+ coerce_from 0 (drop n s).
Proof.
  induction n as [|n IH]; intros s Hn; [by destruct s|].
  destruct s as [|c s]; [simpl in Hn; lia|].
  cbn [coerce_from take drop]. rewrite IH by (simpl in Hn; lia).
  by rewrite app_cons.
Qed.

Lemma valid_from_pending n : ∀ s,
  (n ≤ len s)%nat → valid_from n s = valid_from 0 (drop n s).
Proof.
  induction n as [|n IH]; intros s Hn; [by destruct s|].
  destruct s as [|c s]; [simpl in Hn; lia|].
  cbn [valid_from drop]. apply IH. simpl in Hn. lia.
Qed.

(** The encoding found at the head of a string is found at the head of
    its first bytes. *)
Lemma rune_size_take s sz :
  rune_size s = Some sz → rune_size (take sz s) = Some sz.
Proof.
  destruct s as [|p0 s1]; [done|].
  unfold rune_size.
  destruct (first (N_of_ascii p0)) as [[[n lo] hi]|] eqn:Hfirst; [|done].
  assert (Hhead : ∀ t, rune_size (String p0 t)
                       = match n with
                         | 1%nat => Some 1%nat
                         | _ =>
                           match t with
                           | EmptyString => None
                           | String b1 s2 =>
                             if negb (in_range lo hi b1) then None
                             else if (n <=? 2)%nat then Some 2%nat
                             else match s2 with
                                  | EmptyString => None
                                  | String b2 s3 =>
                                    if negb (in_range 0x80 0xBF b2) then None
                                    else if (n <=? 3)%nat then Some 3%nat
                                    else match s3 with
                                         | EmptyString => None
                                         | String b3 _ =>
                                           if negb (in_range 0x80 0xBF b3)
                                           then None else Some 4%nat
                                         end
                                  end
                           end
                         end).
  { intros t. unfold rune_size. by rewrite Hfirst. }
  fold (rune_size (take sz (String p0 s1))).
  assert (Hgoal : rune_size (String p0 s1) = Some sz →
                  rune_size (take sz (String p0 s1)) = Some sz).
  { rewrite Hhead. clear Hfirst.
    destruct n as [|[|n]].
    - destruct s1 as [|b1 s2]; [done|].
      destruct (in_range lo hi b1) eqn:H1; [|done]. cbn [negb Nat.leb].
      intros [= <-]. cbn [take]. rewrite Hhead; cbn [negb]. by rewrite ?H1.
    - intros [= <-]. cbn [take]. by rewrite Hhead.
    - destruct s1 as [|b1 s2]; [done|].
      destruct (in_range lo hi b1) eqn:H1; [|done]. cbn [negb].
      destruct (S (S n) <=? 2)%nat eqn:Hle2.
      { intros [= <-]. cbn [take]. rewrite Hhead; cbn [negb]. by rewrite ?H1, ?H2, ?H3. }
      destruct s2 as [|b2 s3]; [done|].
      destruct (in_range 128 191 b2) eqn:H2; [|done]. cbn [negb].
      destruct (S (S n) <=? 3)%nat eqn:Hle3.
      { intros [= <-]. cbn [take]. rewrite Hhead; cbn [negb]. by rewrite ?H1, ?H2, ?H3. }
      destruct s3 as [|b3 s4]; [done|].
      destruct (in_range 128 191 b3) eqn:H3; [|done]. cbn [negb].
      intros [= <-]. cbn [take]. rewrite Hhead; cbn [negb]. by rewrite ?H1, ?H2, ?H3. }
  intros H. apply Hgoal. by rewrite Hhead.
Qed.

Lemma len_take n : ∀ s, (n ≤ len s)%nat → len (take n s) = n.
Proof.
  induction n as [|n IH]; intros [|c s] Hn; simpl in *; try done; try lia.
  rewrite IH; lia.
Qed.

Lemma take_drop n : ∀ s, take n s +:+ drop n s = s.
Proof.
  induction n as [|n IH]; intros [|c s]; try done.
  cbn [take drop]. by rewrite app_cons, IH.
Qed.

Lemma ValidString_rune s sz :
  rune_size s = Some sz → ValidString (take sz s) = true.
Proof.
  intros Hsize. pose proof (rune_size_take _ _ Hsize) as Htake.
  destruct (rune_size_app _ "" _ Hsize) as [Hsz _].
  unfold ValidString. destruct (take sz s) as [|c t] eqn:Ht.
  { done. }
  cbn [valid_from]. rewrite Htake.
  assert (Hlen : len (String c t) = sz) by (rewrite <- Ht; apply len_take; lia).
  simpl in Hlen. rewrite valid_from_pending by lia.
  replace (sz - 1)%nat with (len t) by lia.
  replace (drop (len t) t) with "" ; [done|].
  symmetry. clear. induction t; [done|]. by simpl.
Qed.

Lemma coerce_rune s sz :
  rune_size s = Some sz →
  coerce s = take sz s +:+ coerce (drop sz s).
Proof.
  intros Hsize. destruct (rune_size_app _ "" _ Hsize) as [Hsz _].
  unfold coerce. destruct s as [|c s]; [done|].
  cbn [coerce_from]. rewrite Hsize.
  simpl in Hsz. rewrite coerce_from_pending by lia.
  destruct sz as [|sz]; [lia|].
  cbn [take drop]. replace (S sz - 1)%nat with sz by lia.
  by rewrite app_cons.
Qed.

(** What is written is valid UTF-8. *)
Lemma coerce_ValidString s : ValidString (coerce s) = true.
Proof.
  remember (len s) as n eqn:Hn.
  revert s Hn. induction (lt_wf n) as [n _ IH]. intros s ->.
  destruct s as [|c s]; [done|].
  destruct (rune_size (String c s)) as [sz|] eqn:Hsize.
  - rewrite (coerce_rune _ _ Hsize).
    destruct (rune_size_app _ "" _ Hsize) as [Hsz _].
    apply ValidString_app; [by apply ValidString_rune|].
    eapply IH; [|reflexivity].
    rewrite <- (take_drop sz (String c s)) at 2.
    rewrite len_app, len_take by lia. lia.
  - unfold coerce. cbn [coerce_from]. rewrite Hsize.
    apply ValidString_app; [done|].
    eapply (IH (len s)); [simpl; lia|reflexivity].
Qed.

Lemma coerce_idempotent s : coerce (coerce s) = coerce s.
Proof. apply coerce_valid, coerce_ValidString. Qed.

Lemma coerce_empty s : String.eqb (coerce s) "" = String.eqb s "".
Proof.
  destruct s as [|c s]; [done|]. unfold coerce. cbn [coerce_from].
  by destruct (rune_size _).
Qed.


End Utf8Coercion.

Section Written.

Import Json.

Lemma marshal_string_coerce s : marshal_string (utf8.coerce s) = marshal_string s.
Proof. unfold marshal_string. by rewrite coerce_idempotent. Qed.

Lemma omitempty_string_coerce name s :
  omitempty_string name (utf8.coerce s) = omitempty_string name s.
Proof.
  unfold omitempty_string. by rewrite coerce_empty, marshal_string_coerce.
Qed.

Lemma marshal_coerced_ResourceDescriptor uri alg value :
  marshal_ResourceDescriptor (coerced_ResourceDescriptor uri alg value)
  = marshal_ResourceDescriptor {| URI := uri; RDDigest := {[ alg := value ]} |}.
Proof.
  unfold marshal_ResourceDescriptor, coerced_ResourceDescriptor,
    omitempty_DigestSet. cbn [URI RDDigest].
  rewrite omitempty_string_coerce, !map_size_singleton,
    !marshal_DigestSet_singleton.
  by rewrite coerce_idempotent, marshal_string_coerce.
Qed.

Lemma marshal_coerced_strings l :
  marshal_slice marshal_string (map utf8.coerce l)
  = marshal_slice marshal_string l.
Proof.
  destruct l as [|s l]; [done|]. unfold marshal_slice. cbn [map]. f_equal.
  rewrite marshal_string_coerce. f_equal.
  rewrite map_map. apply map_ext. intros s'. apply marshal_string_coerce.
Qed.

Lemma marshal_coerced_ExternalParameters db :
  marshal_ContainerBasedExternalParameters (coerced_ExternalParameters db)
  = marshal_ExternalParametersValue
      (ExternalParameters (CreateBuildDefinition db)).
Proof.
  unfold coerced_ExternalParameters, marshal_ContainerBasedExternalParameters,
    marshal_BuildConfig.
  cbn [CreateBuildDefinition ExternalParameters marshal_ExternalParametersValue
         marshal_ContainerBasedExternalParameters
         EPSource EPBuilderImage ConfigPath Config Command ArtifactPath].
  by rewrite !marshal_coerced_ResourceDescriptor, !marshal_string_coerce,
    marshal_coerced_strings.
Qed.


End Written.

(** X23.  Reading what was written never fails.  For every build, the
    written form of a statement that carries its build definition is parsed,
    and the external parameters of the statement parsed are those of the
    build with every string coerced to valid UTF-8, as the writer leaves
    them: for strings that are valid UTF-8, the external parameters
    themselves. *)
Theorem ParseProvenance_of_written (env : Env) (db : DockerBuild)
    (header : StatementHeader) (runDetails : any) :
  ∃ statement,
    ParseProvenance env
      (Statement.marshal
         (statement_of header (CreateBuildDefinition db) runDetails))
    = Ok statement
    ∧ ExternalParameters (BuildDefinition (Predicate statement))
      = EPContainerBased (coerced_ExternalParameters db)
    ∧ (utf8_valid db = true →
       EPContainerBased (coerced_ExternalParameters db)
       = ExternalParameters (CreateBuildDefinition db)).
Proof.
  unfold ParseProvenance.
  destruct (unmarshal_Statement_marshal env
              (statement_of header (CreateBuildDefinition db) runDetails))
    as (statement0 & -> & Hgeneric).
  rewrite Hgeneric. cbn [statement_of Predicate BuildDefinition].
  rewrite <- marshal_coerced_ExternalParameters.
  cbn [Json.marshal_ExternalParametersValue].
  fold (remarshal
          (Json.marshal_ContainerBasedExternalParameters
             (coerced_ExternalParameters db))).
  erewrite (ExternalParameters_round_trip env); try reflexivity;
    try apply coerce_ValidString.
  - eexists. split; [reflexivity|]. split; [reflexivity|].
    unfold utf8_valid. rewrite !andb_true_iff, forallb_forall.
    intros ((((((((Hrepo & Halg) & Hvalue) & Hname) & Himage_alg)
                 & Himage_value) & Hpath) & Hcommand) & Hartifact).
    assert (Hcoerced : map utf8.coerce (Command (buildConfig db))
                       = Command (buildConfig db)).
    { induction (Command (buildConfig db)) as [|s command IH]; [done|].
      cbn [map]. rewrite coerce_valid by (apply Hcommand; by left).
      f_equal. apply IH. intros s' Hs'. apply Hcommand. by right. }
    unfold coerced_ExternalParameters, coerced_ResourceDescriptor.
    cbn [CreateBuildDefinition ExternalParameters].
    unfold sourceArtifact, builderImage, ToMap.
    rewrite Hcoerced, !coerce_valid; try done.
    + by destruct (buildConfig db).
    + unfold ToString. repeat apply ValidString_app; done.
  - cbn [coerced_ExternalParameters Config Command].
    apply Forall_forall. intros s (s' & -> & _)%list_elem_of_fmap.
    apply coerce_ValidString.
Qed.

(** ** Capturing the output of a command *)

Lemma MaxScanTokenSize_pos : (0 < bufio.MaxScanTokenSize)%nat.
Proof. unfold bufio.MaxScanTokenSize. lia. Qed.

(** The size is not to be computed in the proofs below. *)
#[global] Opaque bufio.MaxScanTokenSize.

Section Capture.

Import strings io bufio.

Lemma append_assoc (a b c : string) : (a +:+ b) +:+ c = a +:+ (b +:+ c).
Proof. induction a as [|x a IH]; [done|]. by rewrite !app_cons, IH. Qed.

Lemma append_empty_r (a : string) : a +:+ "" = a.
Proof. induction a as [|x a IH]; [done|]. by rewrite app_cons, IH. Qed.

Lemma len_take_le n : ∀ s, (len (take n s) ≤ n)%nat.
Proof.
  induction n as [|n IH]; intros [|c s]; simpl; try lia.
  all: specialize (IH s); lia.
Qed.

Lemma len_drop n : ∀ s, len (drop n s) = (len s - n)%nat.
Proof. induction n as [|n IH]; intros [|c s]; simpl; done || lia. Qed.

Lemma len_take_pos n s : (0 < n)%nat → s ≠ "" → (0 < len (take n s))%nat.
Proof. destruct n, s; simpl; try done; lia. Qed.

(** *** Lines *)

Lemma IndexByte_Some b c : ∀ i,
  IndexByte b c = Some i →
  b = take i b +:+ String c (drop (S i) b)
  ∧ IndexByte (take i b) c = None
  ∧ (i < len b)%nat.
Proof.
  induction b as [|x b IH]; intros i; [done|]. cbn [IndexByte].
  destruct (Ascii.eqb x c) eqn:Hx.
  - apply Ascii.eqb_eq in Hx as ->. intros [= <-]. simpl. split; [done|].
    split; [done|lia].
  - destruct (IndexByte b c) as [j|] eqn:Hj; [|done]. intros [= <-].
    destruct (IH j eq_refl) as (Hb & Hnone & Hlt).
    change (take (S j) (String x b)) with (String x (take j b)).
    change (drop (S (S j)) (String x b)) with (drop (S j) b).
    split; [by rewrite app_cons, <- Hb|].
    split; [cbn [IndexByte]; by rewrite Hx, Hnone|simpl; lia].
Qed.

Lemma lines_newline a rest :
  IndexByte a newline = None →
  lines (a +:+ String newline rest) = a :: lines rest.
Proof.
  induction a as [|x a IH]; [done|]. cbn [IndexByte].
  destruct (Ascii.eqb x newline) eqn:Hx; [done|].
  destruct (IndexByte a newline); [done|]. intros _.
  rewrite app_cons. cbn [lines]. by rewrite Hx, IH.
Qed.

Lemma lines_no_newline a :
  IndexByte a newline = None → a ≠ "" → lines a = [a].
Proof.
  induction a as [|x a IH]; [done|]. cbn [IndexByte].
  destruct (Ascii.eqb x newline) eqn:Hx; [done|].
  destruct (IndexByte a newline); [done|]. intros _ _.
  cbn [lines]. rewrite Hx. destruct a as [|y a]; [done|].
  by rewrite IH.
Qed.

(** Bytes without a newline at the head of a stream are part of its first
    line. *)
Lemma lines_head a rest :
  IndexByte a newline = None → a ≠ "" →
  ∃ line rest', lines (a +:+ rest) = line :: rest' ∧ (len a ≤ len line)%nat.
Proof.
  induction a as [|x a IH]; [done|]. cbn [IndexByte].
  destruct (Ascii.eqb x newline) eqn:Hx; [done|].
  destruct (IndexByte a newline) eqn:Ha; [done|]. intros _ _.
  rewrite app_cons. cbn [lines]. rewrite Hx.
  destruct a as [|y a].
  - change ("" +:+ rest) with rest.
    destruct (lines rest) as [|line rest']; eexists _, _; (split; [done|]);
      simpl; lia.
  - destruct IH as (line & rest' & -> & Hlen); [done..|].
    eexists _, _. split; [done|]. simpl in *. lia.
Qed.

(** *** Reading *)

Lemma Read_end r space :
  stream r = "" → Read r space = ("", Some (ending r), r).
Proof. unfold Read. by intros ->. Qed.

Lemma Read_some r space :
  stream r ≠ "" →
  Forall (λ k, (0 < k)%nat) (chunks r) → (0 < space)%nat →
  ∃ bytes r',
    Read r space = (bytes, None, r')
    ∧ bytes +:+ stream r' = stream r
    ∧ (len (stream r') < len (stream r))%nat
    ∧ (0 < len bytes ≤ space)%nat
    ∧ Forall (λ k, (0 < k)%nat) (chunks r').
Proof.
  intros Hstream Hchunks Hspace. unfold Read.
  destruct (stream r) as [|c st] eqn:Hst; [done|].
  set (n := Nat.min space (hd space (chunks r))).
  assert (Hn : (0 < n ≤ space)%nat).
  { subst n. destruct Hchunks; simpl; lia. }
  eexists _, _. split; [done|]. cbn [stream chunks].
  split; [apply take_drop|]. rewrite len_drop.
  split; [simpl; lia|].
  split; [|by destruct Hchunks].
  pose proof (len_take_le n (String c st)).
  pose proof (len_take_pos n (String c st) ltac:(lia) ltac:(done)). lia.
Qed.

Lemma fill_Read left r space :
  Forall (λ k, (0 < k)%nat) (chunks r) → (0 < space)%nat →
  fill left r space = Read r space.
Proof.
  intros Hchunks Hspace.
  destruct (stream r) as [|c st] eqn:Hst.
  - destruct left; cbn [fill]; rewrite Read_end by done; by destruct space.
  - destruct (Read_some r space) as (bytes & r' & HRead & _ & _ & Hlen & _);
      [by rewrite Hst|done..|].
    destruct left; cbn [fill]; rewrite HRead.
    + replace (space <? len bytes)%nat with false
        by (symmetry; apply Nat.ltb_ge; lia).
      by replace (0 <? len bytes)%nat with true
        by (symmetry; apply Nat.ltb_lt; lia).
    + replace (space <? len bytes)%nat with false
        by (symmetry; apply Nat.ltb_ge; lia).
      by replace (0 <? len bytes)%nat with true
        by (symmetry; apply Nat.ltb_lt; lia).
Qed.

(** *** One call of [Scan] *)

Lemma read_more_reads s :
  scannable s → has_err s = false →
  IndexByte (pending s) newline = None →
  (read_more s = None
   ∧ ∃ line rest, lines (remaining s) = line :: rest
                  ∧ (MaxScanTokenSize ≤ len line)%nat)
  ∨ ∃ s', read_more s = Some s' ∧ scannable s' ∧ remaining s' = remaining s
          ∧ (rounds s' < rounds s)%nat.
Proof.
  intros [Hbuffer Hsize Hchunks Herr] Hnone Hindex.
  unfold read_more.
  set (start' := if (0 <? start s)%nat && _ then 0%nat else start s).
  assert (Hstart' : (start' ≤ start s)%nat
                    ∧ ((start' + len (pending s))%nat = buf_size s → start' = 0%nat)).
  { subst start'.
    destruct (0 <? start s)%nat eqn:Hpos; cbn [andb]; [|apply Nat.ltb_ge in Hpos; lia].
    destruct (start s + len (pending s) =? buf_size s)%nat eqn:Hfull; cbn [orb];
      [lia|]. apply Nat.eqb_neq in Hfull.
    destruct (buf_size s / 2 <? start s)%nat; lia. }
  destruct Hstart' as [Hle Hzero]. clearbody start'.
  set (resized := if (start' + len (pending s) =? buf_size s)%nat then _ else _).
  assert (Hresized :
    (resized = None ∧ len (pending s) = buf_size s
     ∧ (MaxScanTokenSize ≤ buf_size s)%nat)
    ∨ ∃ size' start'',
        resized = Some (size', start'')
        ∧ (start'' + len (pending s) < size')%nat
        ∧ (size' ≤ MaxScanTokenSize)%nat).
  { subst resized.
    destruct (start' + len (pending s) =? buf_size s)%nat eqn:Hfull.
    - apply Nat.eqb_eq in Hfull. specialize (Hzero Hfull). subst start'.
      destruct (MaxScanTokenSize <=? buf_size s)%nat eqn:Hmax.
      + apply Nat.leb_le in Hmax. left. split; [done|]. split; [lia|done].
      + apply Nat.leb_gt in Hmax. right. eexists _, _. split; [done|].
        unfold startBufSize in *.
        destruct (buf_size s * 2 =? 0)%nat eqn:Hz;
          [apply Nat.eqb_eq in Hz|apply Nat.eqb_neq in Hz]; lia.
    - apply Nat.eqb_neq in Hfull. right. eexists _, _. split; [done|]. lia. }
  clearbody resized.
  destruct Hresized as [(-> & Hfull & Hmax)|(size' & start'' & -> & Hspace & Hsize')].
  { left. split; [done|].
    destruct (lines_head (pending s) (stream (reader s)))
      as (line & rest & Hlines & Hlen); [done| |].
    { intros Hp. rewrite Hp in Hfull. simpl in Hfull.
      pose proof MaxScanTokenSize_pos. lia. }
    exists line, rest. split; [done|]. lia. }
  right. rewrite fill_Read by (done || lia).
  destruct (stream (reader s)) as [|c st] eqn:Hst.
  - rewrite Read_end by done. unfold setErr. cbn [err].
    unfold has_err in Hnone. destruct (err s) eqn:He; [done|].
    eexists. split; [done|]. split; [split|split].
    + cbn [start pending buf_size]. rewrite append_empty_r. lia.
    + done.
    + done.
    + intros _. cbn [reader pending]. rewrite append_empty_r. split; [done|lia].
    + unfold remaining. cbn [pending reader]. by rewrite append_empty_r.
    + unfold rounds, has_err. cbn [reader err]. rewrite He, Hst. simpl. lia.
  - destruct (Read_some (reader s) (size' - (start'' + len (pending s))))
      as (bytes & r' & -> & Hbytes & Hless & Hlen & Hchunks');
      [by rewrite Hst|done|lia|].
    rewrite Hst in Hbytes, Hless.
    eexists. split; [done|]. split; [split|split].
    + cbn [start pending buf_size]. rewrite len_app. lia.
    + done.
    + done.
    + unfold has_err in *. cbn [err]. by rewrite Hnone.
    + unfold remaining. cbn [pending reader].
      by rewrite append_assoc, Hbytes, Hst.
    + unfold rounds, has_err in *. cbn [reader err]. rewrite Hst.
      destruct (err s); [done|]. lia.
Qed.

Lemma scan_S fuel s :
  scan (S fuel) s =
  let '(s, token) := split_pending s in
  match token with
  | Some token => (Some token, s)
  | None =>
      if has_err s then
        (None, {| reader := reader s; buf_size := buf_size s; start := 0;
                  pending := EmptyString; err := err s |})
      else
        match read_more s with
        | None => (None, setErr s ErrTooLong)
        | Some s => scan fuel s
        end
  end.
Proof. reflexivity. Qed.

(** What [split_pending] finds. *)
Lemma split_pending_line s i :
  IndexByte (pending s) newline = Some i →
  split_pending s
  = ({| reader := reader s; buf_size := buf_size s;
        start := (start s + S i)%nat;
        pending := drop (S i) (pending s); err := err s |},
     Some (dropCR (take i (pending s)))).
Proof.
  intros Hi. unfold split_pending, ScanLines. rewrite Hi.
  destruct (pending s) as [|c p] eqn:Hp; [done|].
  cbn [len Nat.ltb Nat.leb orb Nat.eqb]. by rewrite andb_false_r.
Qed.

Lemma split_pending_last s :
  IndexByte (pending s) newline = None → pending s ≠ "" → has_err s = true →
  split_pending s
  = ({| reader := reader s; buf_size := buf_size s;
        start := (start s + len (pending s))%nat;
        pending := drop (len (pending s)) (pending s); err := err s |},
     Some (dropCR (pending s))).
Proof.
  intros Hi Hp He. unfold split_pending, ScanLines. rewrite Hi, He.
  destruct (pending s) as [|c p]; [done|].
  by cbn [len Nat.ltb Nat.leb orb andb Nat.eqb].
Qed.

Lemma split_pending_none s :
  IndexByte (pending s) newline = None →
  (pending s = "" ∨ has_err s = false) →
  ∃ s', split_pending s = (s', None)
        ∧ reader s' = reader s ∧ buf_size s' = buf_size s
        ∧ start s' = start s ∧ pending s' = pending s ∧ err s' = err s.
Proof.
  intros Hi Hcase. unfold split_pending, ScanLines. rewrite Hi.
  destruct (has_err s) eqn:He.
  - destruct Hcase as [Hp|]; [|done]. rewrite Hp. cbn.
    eexists. split; [done|]. cbn. repeat split; done || lia.
  - rewrite orb_false_r. cbn [andb].
    destruct (0 <? len (pending s))%nat; eexists; (split; [done|]); cbn;
      repeat split; try (done || lia).
Qed.

Lemma drop_all s : drop (len s) s = "".
Proof. by induction s. Qed.

Lemma scannable_advance s n :
  scannable s → (n ≤ len (pending s))%nat →
  scannable {| reader := reader s; buf_size := buf_size s;
               start := (start s + n)%nat;
               pending := drop n (pending s); err := err s |}.
Proof.
  intros [Hbuffer Hsize Hchunks Herr] Hn. split; cbn [start pending buf_size reader].
  - rewrite len_drop. lia.
  - done.
  - done.
  - intros He. destruct (Herr He) as [Hst Hlen]. split; [done|].
    rewrite len_drop. lia.
Qed.

(** [Scan] gives the next line without its carriage return, if there is a
    line and it is short enough, and no token if there is no line or the
    next line is too long. *)
Lemma scan_token fuel : ∀ s,
  scannable s → (rounds s ≤ fuel)%nat →
  match lines (remaining s) with
  | [] => (scan fuel s).1 = None
  | line :: rest =>
      if (len line <? MaxScanTokenSize)%nat then
        ∃ s', scan fuel s = (Some (dropCR line), s')
              ∧ scannable s' ∧ lines (remaining s') = rest
              ∧ (len (remaining s') < len (remaining s))%nat
      else (scan fuel s).1 = None
  end.
Proof.
  induction fuel as [|fuel IH]; intros s Hs Hfuel.
  { unfold rounds in Hfuel. destruct (has_err s); lia. }
  rewrite scan_S.
  destruct (IndexByte (pending s) newline) as [i|] eqn:Hi.
  - (* a full line is there *)
    rewrite (split_pending_line s i Hi).
    destruct (IndexByte_Some _ _ _ Hi) as (Hp & Hnone & Hlt).
    assert (Hrem : remaining s
                   = take i (pending s)
                     +:+ String newline (drop (S i) (pending s)
                                         +:+ stream (reader s))).
    { unfold remaining. rewrite Hp at 1. by rewrite append_assoc, app_cons. }
    rewrite Hrem, lines_newline by done.
    replace (len (take i (pending s)) <? MaxScanTokenSize)%nat with true.
    2: { symmetry. apply Nat.ltb_lt. rewrite len_take by lia.
         destruct Hs as [Hbuffer Hsize _ _]. lia. }
    eexists. split; [done|].
    split; [apply scannable_advance; [done|lia]|].
    split; [done|].
    unfold remaining at 1. cbn [pending reader].
    rewrite !len_app. cbn [len]. rewrite len_app. lia.
  - destruct (has_err s) eqn:He.
    + (* the stream has ended *)
      destruct (scannable_err s Hs He) as [Hst Hless].
      assert (Hrem : remaining s = pending s).
      { unfold remaining. by rewrite Hst, append_empty_r. }
      destruct (pending s) as [|c p] eqn:Hp.
      * destruct (split_pending_none s) as (s' & -> & _ & _ & _ & _ & He');
          [by rewrite Hp|by left|].
        rewrite Hrem. cbn [lines]. unfold has_err in *. rewrite He'.
        by destruct (err s).
      * rewrite split_pending_last by (rewrite ?Hp; done).
        rewrite Hrem, lines_no_newline by done. rewrite Hp.
        replace (len (String c p) <? MaxScanTokenSize)%nat with true
          by (symmetry; by apply Nat.ltb_lt).
        eexists. split; [done|].
        split; [rewrite <- Hp; apply scannable_advance; [done|lia]|].
        unfold remaining. cbn [pending reader]. rewrite drop_all, Hst.
        split; [done|]. simpl. lia.
    + (* more is to be read *)
      destruct (split_pending_none s) as (s1 & -> & Hr & Hsize & Hstart & Hp & He1);
        [done|by right|].
      assert (Hs1 : scannable s1).
      { destruct Hs as [Hbuffer Hsz Hchunks Herr].
        split; unfold has_err in *; rewrite ?Hr, ?Hsize, ?Hstart, ?Hp, ?He1; done. }
      assert (Hrem1 : remaining s1 = remaining s).
      { unfold remaining. by rewrite Hr, Hp. }
      assert (Hrounds1 : rounds s1 = rounds s).
      { unfold rounds, has_err. by rewrite Hr, He1. }
      assert (He1' : has_err s1 = false).
      { unfold has_err in *. by rewrite He1. }
      rewrite He1'.
      destruct (read_more_reads s1)
        as [(-> & line & rest & Hlines & Hlong)
           |(s2 & -> & Hs2 & Hrem2 & Hrounds2)]; [done|done|by rewrite Hp| |].
      * rewrite <- Hrem1, Hlines.
        by replace (len line <? MaxScanTokenSize)%nat with false
          by (symmetry; by apply Nat.ltb_ge).
      * rewrite <- Hrem1, <- Hrem2. apply IH; [done|lia].
Qed.

Lemma Scan_token s :
  scannable s →
  match lines (remaining s) with
  | [] => (Scan s).1 = None
  | line :: rest =>
      if (len line <? MaxScanTokenSize)%nat then
        ∃ s', Scan s = (Some (dropCR line), s')
              ∧ scannable s' ∧ lines (remaining s') = rest
              ∧ (len (remaining s') < len (remaining s))%nat
      else (Scan s).1 = None
  end.
Proof.
  intros Hs. apply scan_token; [done|].
  unfold rounds. destruct (has_err s); lia.
Qed.

(** *** The loop over the lines *)

Lemma file_of_app a b : file_of (a ++ b) = file_of a +:+ file_of b.
Proof.
  induction a as [|line a IH]; [done|]. cbn [app file_of].
  by rewrite IH, !append_assoc.
Qed.

Lemma scanAll_lines fuel verbose : ∀ s allBytes,
  scannable s → (len (remaining s) < fuel)%nat →
  let tokens := map dropCR (short_lines (lines (remaining s))) in
  scanAll fuel verbose s allBytes
  = (allBytes +:+ file_of tokens,
     if verbose then map PrintLine tokens else []).
Proof.
  induction fuel as [|fuel IH]; intros s allBytes Hs Hfuel; [lia|].
  cbn [scanAll]. pose proof (Scan_token s Hs) as Hscan.
  destruct (lines (remaining s)) as [|line rest] eqn:Hlines.
  - destruct (Scan s) as [[token|] s']; [done|]. cbn.
    rewrite append_empty_r. by destruct verbose.
  - cbn [short_lines].
    destruct (len line <? MaxScanTokenSize)%nat.
    + destruct Hscan as (s' & -> & Hs' & Hrest & Hless).
      rewrite IH; [|done|lia].
      rewrite Hrest. cbn [map file_of]. rewrite !append_assoc.
      by destruct verbose.
    + destruct (Scan s) as [[token|] s']; [done|]. cbn.
      rewrite append_empty_r. by destruct verbose.
Qed.

Lemma short_lines_all lines :
  Forall (λ line, (len line < MaxScanTokenSize)%nat) lines →
  short_lines lines = lines.
Proof.
  induction 1 as [|line lines Hline _ IH]; [done|]. cbn [short_lines].
  apply Nat.ltb_lt in Hline. by rewrite Hline, IH.
Qed.

End Capture.

Lemma IndexByte_repeat_byte c c' n :
  c ≠ c' → bufio.IndexByte (Scenario.repeat_byte c n) c' = None.
Proof.
  intros Hc. induction n as [|n IH]; [done|]. cbn [Scenario.repeat_byte bufio.IndexByte].
  apply Ascii.eqb_neq in Hc. by rewrite Hc, IH.
Qed.

Lemma len_repeat_byte c n : strings.len (Scenario.repeat_byte c n) = n.
Proof.
  induction n as [|n IH]; [done|].
  cbn [Scenario.repeat_byte String.length]. by rewrite IH.
Qed.

(** *** The rounds are enough *)

Section Rounds.

Import strings io bufio.

Lemma Read_stream r space bytes e r' :
  Read r space = (bytes, e, r') →
  (len bytes + len (stream r') = len (stream r))%nat.
Proof.
  unfold Read. destruct (stream r) as [|c st] eqn:Hst.
  - intros [= <- <- <-]. by rewrite Hst.
  - intros [= <- <- <-]. cbn [stream].
    by rewrite <- len_app, take_drop.
Qed.

(** What is read is taken from the stream, and a read without an error
    takes at least one byte. *)
Lemma fill_stream left : ∀ r space bytes e r',
  fill left r space = (bytes, e, r') →
  (len bytes + len (stream r') ≤ len (stream r))%nat
  ∧ (e = None → (0 < len bytes)%nat).
Proof.
  induction left as [|left IH]; intros r space bytes e r'; cbn [fill];
    destruct (Read r space) as [[b e0] r1] eqn:HRead;
    apply Read_stream in HRead;
    (destruct (space <? len b)%nat;
       [intros [= <- <- <-]; split; [simpl; lia|done]|]);
    (destruct e0 as [e0|]; [intros [= <- <- <-]; split; [lia|done]|]);
    (destruct (0 <? len b)%nat eqn:Hpos;
       [intros [= <- <- <-]; split; [lia|intros _; by apply Nat.ltb_lt]|]).
  - intros [= <- <- <-]. split; [lia|done].
  - intros [Hlen Hnone]%IH. split; [lia|done].
Qed.

Lemma split_pending_keeps s s1 token :
  split_pending s = (s1, token) →
  reader s1 = reader s ∧ err s1 = err s
  ∧ (len (pending s1) ≤ len (pending s))%nat
  ∧ (token ≠ None → (len (pending s1) < len (pending s))%nat).
Proof.
  unfold split_pending, ScanLines.
  destruct ((0 <? len (pending s))%nat || has_err s) eqn:Hcase.
  2: { intros [= <- <-]. repeat split; done || lia. }
  destruct (has_err s && (len (pending s) =? 0)%nat) eqn:Hend.
  { intros [= <- <-]. cbn. repeat split; done || lia. }
  destruct (IndexByte (pending s) newline) as [i|] eqn:Hi.
  - destruct (IndexByte_Some _ _ _ Hi) as (_ & _ & Hlt).
    intros [= <- <-]. cbn [reader err pending].
    change (match pending s with
            | EmptyString => EmptyString
            | String _ s' => drop i s'
            end) with (drop (S i) (pending s)).
    rewrite len_drop. repeat split; lia.
  - destruct (has_err s) eqn:He.
    + cbn [andb] in Hend. apply Nat.eqb_neq in Hend.
      intros [= <- <-]. cbn [reader err pending]. rewrite len_drop.
      repeat split; lia.
    + intros [= <- <-]. cbn. repeat split; done || lia.
Qed.

Lemma read_more_rounds s s2 :
  has_err s = false → read_more s = Some s2 →
  (rounds s2 < rounds s)%nat
  ∧ (len (remaining s2) ≤ len (remaining s))%nat.
Proof.
  intros Hnone. unfold read_more.
  set (start' := if (0 <? start s)%nat && _ then 0%nat else start s).
  clearbody start'.
  set (resized := if (start' + len (pending s) =? buf_size s)%nat then _ else _).
  clearbody resized.
  destruct resized as [[size' start'']|]; [|done].
  destruct (fill _ _ _) as [[bytes e] r'] eqn:Hfill.
  apply fill_stream in Hfill as [Hlen Hpos].
  unfold has_err in Hnone. destruct (err s) eqn:He; [done|].
  intros [= <-]. unfold rounds, remaining, has_err, setErr.
  destruct e as [e|]; cbn [err reader pending]; rewrite ?He;
    cbn [err reader pending]; rewrite !len_app.
  - lia.
  - specialize (Hpos eq_refl). lia.
Qed.

(** More rounds than [rounds] make no difference: [Scan] is not cut
    short. *)
Lemma scan_rounds fuel : ∀ s fuel',
  (rounds s ≤ fuel)%nat → (rounds s ≤ fuel')%nat →
  scan fuel s = scan fuel' s.
Proof.
  induction fuel as [|fuel IH]; intros s fuel' Hfuel Hfuel'.
  { unfold rounds in Hfuel. destruct (has_err s); lia. }
  destruct fuel' as [|fuel'].
  { unfold rounds in Hfuel'. destruct (has_err s); lia. }
  rewrite !scan_S.
  destruct (split_pending s) as [s1 token] eqn:Hsplit.
  apply split_pending_keeps in Hsplit as (Hr & He & _ & _).
  destruct token as [token|]; [done|].
  destruct (has_err s1) eqn:He1; [done|].
  destruct (read_more s1) as [s2|] eqn:Hmore; [|done].
  apply read_more_rounds in Hmore as [Hless _]; [|done].
  assert (rounds s1 = rounds s) by (unfold rounds, has_err; by rewrite Hr, He).
  apply IH; lia.
Qed.

(** A token takes at least one byte of what remains. *)
Lemma scan_progress fuel : ∀ s token s',
  scan fuel s = (Some token, s') →
  (len (remaining s') < len (remaining s))%nat.
Proof.
  induction fuel as [|fuel IH]; intros s token s'; [done|].
  rewrite scan_S.
  destruct (split_pending s) as [s1 token1] eqn:Hsplit.
  apply split_pending_keeps in Hsplit as (Hr & He & Hle & Hlt).
  assert (Hrem : (len (remaining s1) ≤ len (remaining s))%nat).
  { unfold remaining. rewrite !len_app, Hr. lia. }
  destruct token1 as [token1|].
  - intros [= <- <-]. unfold remaining. rewrite !len_app, Hr.
    specialize (Hlt ltac:(done)). lia.
  - destruct (has_err s1) eqn:He1; [done|].
    destruct (read_more s1) as [s2|] eqn:Hmore; [|done].
    apply read_more_rounds in Hmore as [_ Hle2]; [|done].
    intros Hscan%IH. lia.
Qed.

(** More rounds than there are bytes, and one, make no difference: the
    loop over the tokens is not cut short. *)
Lemma scanAll_rounds fuel verbose : ∀ s allBytes fuel',
  (len (remaining s) < fuel)%nat → (len (remaining s) < fuel')%nat →
  scanAll fuel verbose s allBytes = scanAll fuel' verbose s allBytes.
Proof.
  induction fuel as [|fuel IH]; intros s allBytes fuel' Hfuel Hfuel'; [lia|].
  destruct fuel' as [|fuel']; [lia|]. cbn [scanAll].
  destruct (Scan s) as [[token|] s'] eqn:HScan; [|done].
  apply scan_progress in HScan.
  by rewrite (IH s' _ fuel') by lia.
Qed.

End Rounds.

(** X24.  What [saveOneTempFile] writes.  Over a reader that delivers at
    least one byte at each call until the stream ends, as a pipe does, and
    however the bytes are cut into reads: the temporary file is created
    after the stream has been scanned, and what is written to it is the
    lines of the stream that come before the first line of 64 KiB or more,
    in order, each without its carriage return if it ends with one, and
    each followed by a newline.  With [verbose], these same lines are sent
    to be printed, in order, before the file is created.  The file is
    reported by its name, or else the error of its creation, or of the
    write, wrapped; it is closed once it was created.  When every line of
    the stream is shorter than 64 KiB, the lines written are all the lines
    of the stream. *)
Theorem saveOneTempFile_captures_lines (os : TempFiles) (verbose : bool)
    (reader : io.Reader) :
  Forall (λ k, (0 < k)%nat) (io.chunks reader) →
  let captured := short_lines (lines (io.stream reader)) in
  let tokens := map bufio.dropCR captured in
  saveOneTempFile os verbose reader
  = (if verbose then map PrintLine tokens else [])
    ++ CreateTempFile "" "log-*.txt"
       :: match os_CreateTemp os "" "log-*.txt" with
          | Err err =>
              [SendResult {| File := None; FileErr := Some (ErrCreateTemp err) |}]
          | Ok tmpfile =>
              WriteFile tmpfile (file_of tokens)
              :: match tmpfile_Write os tmpfile (file_of tokens) with
                 | Some err =>
                     [SendResult {| File := None;
                                    FileErr := Some (ErrWriteBytes err) |};
                      CloseFile tmpfile]
                 | None =>
                     [SendResult {| File := Some tmpfile; FileErr := None |};
                      CloseFile tmpfile]
                 end
          end
  ∧ (Forall (λ line, (strings.len line < bufio.MaxScanTokenSize)%nat)
       (lines (io.stream reader)) →
     captured = lines (io.stream reader)).
Proof.
  intros Hchunks captured tokens. split; [|apply short_lines_all].
  unfold saveOneTempFile.
  rewrite scanAll_lines.
  - done.
  - pose proof MaxScanTokenSize_pos. split; cbn.
    + lia.
    + lia.
    + done.
    + done.
  - unfold remaining. cbn [bufio.NewScanner bufio.pending bufio.reader].
    rewrite len_app. simpl. lia.
Qed.

Lemma saveOneTempFile_captures_lines_witness :
  let stream :=
    "ab" +:+ Scenario.end_of_line
    +:+ "cd" +:+ String bufio.carriage_return Scenario.end_of_line
    +:+ Scenario.end_of_line +:+ "last" in
  let reader := Scenario.pipe stream [1; 2; 5]%nat in
  Forall (λ k, (0 < k)%nat) (io.chunks reader)
  ∧ saveOneTempFile Scenario.tmp true reader
    = [PrintLine "ab"; PrintLine "cd"; PrintLine ""; PrintLine "last";
       CreateTempFile "" "log-*.txt";
       WriteFile "/tmp/log-1.txt"
         ("ab" +:+ Scenario.end_of_line +:+ "cd" +:+ Scenario.end_of_line
          +:+ Scenario.end_of_line +:+ "last" +:+ Scenario.end_of_line);
       SendResult {| File := Some "/tmp/log-1.txt"; FileErr := None |};
       CloseFile "/tmp/log-1.txt"].
Proof.
  intros stream reader.
  assert (Hchunks : Forall (λ k, (0 < k)%nat) (io.chunks reader))
    by (repeat constructor).
  split; [exact Hchunks|].
  destruct (saveOneTempFile_captures_lines Scenario.tmp true reader Hchunks)
    as [-> _].
  vm_compute. reflexivity.
Defined.

(** C8.  A line of 64 KiB is lost, and every line after it.  The stream
    holds a line of 65536 bytes and the line [done].  The first call of
    [Scan] gives no token: the buffer is full, as large as it may get and
    holds no newline, and the error is [bufio.ErrTooLong], which
    [saveOneTempFile] does not ask for.  The rest of the stream is left
    unread; an empty file is written and reported without an error,
    whatever the operating system answers and with or without [verbose]. *)
Theorem saveOneTempFile_loses_long_line :
  let stream :=
    Scenario.long_line +:+ Scenario.end_of_line
    +:+ "done" +:+ Scenario.end_of_line in
  let reader := Scenario.pipe stream [] in
  let scanned := bufio.Scan (bufio.NewScanner reader) in
  strings.len Scenario.long_line = bufio.MaxScanTokenSize
  ∧ lines stream = [Scenario.long_line; "done"]
  ∧ scanned.1 = None
  ∧ bufio.err scanned.2 = Some bufio.ErrTooLong
  ∧ io.stream (bufio.reader scanned.2)
    = Scenario.end_of_line +:+ "done" +:+ Scenario.end_of_line
  ∧ ∀ os verbose,
      saveOneTempFile os verbose reader
      = CreateTempFile "" "log-*.txt"
        :: match os_CreateTemp os "" "log-*.txt" with
           | Err err =>
               [SendResult {| File := None; FileErr := Some (ErrCreateTemp err) |}]
           | Ok tmpfile =>
               WriteFile tmpfile ""
               :: match tmpfile_Write os tmpfile "" with
                  | Some err =>
                      [SendResult {| File := None;
                                     FileErr := Some (ErrWriteBytes err) |};
                       CloseFile tmpfile]
                  | None =>
                      [SendResult {| File := Some tmpfile; FileErr := None |};
                       CloseFile tmpfile]
                  end
           end.
Proof.
  intros stream reader scanned.
  split; [apply len_repeat_byte|].
  split.
  { change (lines (Scenario.long_line
                    +:+ String bufio.newline ("done" +:+ Scenario.end_of_line))
            = [Scenario.long_line; "done"]).
    rewrite lines_newline by (by apply IndexByte_repeat_byte).
    f_equal. }
  split; [vm_compute; reflexivity|].
  split; [vm_compute; reflexivity|].
  split; [vm_compute; reflexivity|].
  intros os verbose. vm_compute. reflexivity.
Qed.
